(** * Deployment helpers of the publish pipeline ([publish/src/util.js])

    A shallow embedding of the helper functions of [util.js] and the
    properties their description states about them.

    Conventions of the embedding.
    - A JavaScript string is a [string]; each character is one code unit
      below 256.
    - A call that may throw returns an [outcome]; a promise is modelled by
      the [outcome] it settles to ([Return] for resolved, [Throw] for
      rejected).
    - [process.env] and the file system are finite maps ([gmap]) from
      names to strings; a missing entry is [undefined], respectively a
      file that does not exist.
    - Console output ([console.log]) is not part of the modelled state,
      except for the two functions that do nothing but print
      ([parameterNotice] and [reportDeployedContracts]), which yield the
      lines they print. *)

From Stdlib Require Import ZArith Ascii String List Lia Decimal DecimalString DecimalZ.
From stdpp Require Import base tactics option list gmap strings.

Local Open Scope Z_scope.

(** ** Exceptions and results *)

Inductive error_kind :=
  | Error          (* [Error(...)] raised by the helpers themselves *)
  | TypeError      (* property access on [undefined] or [null], etc. *)
  | SyntaxError    (* [JSON.parse] on malformed text *)
  | SystemError    (* [fs] failures such as ENOENT *)
  | ArgumentError  (* the numeric library rejecting a value *)
  | Unsupported.   (* not an exception of the program: the input is outside
                      what this embedding covers, and its result is left
                      undetermined *)

Record exn := Exn { kind : error_kind; message : string }.

Inductive outcome (A : Type) :=
  | Return (a : A)
  | Throw (e : exn).
Arguments Return {A} a.
Arguments Throw {A} e.

#[global] Instance outcome_ret : MRet outcome := @Return.
#[global] Instance outcome_bind : MBind outcome := λ A B f m,
  match m with
  | Return a => f a
  | Throw e => Throw e
  end.

Definition returns {A} (m : outcome A) : Prop := ∃ a, m = Return a.
Definition throws {A} (m : outcome A) : Prop := ∃ e, m = Throw e.

(** ** Strings *)

(** The double-quote character, as a string. *)
Definition dquote : string := String "034" EmptyString.

(** [strip_prefix p s] is what follows [p] when [s] starts with [p]. *)
Fixpoint strip_prefix (p s : string) : option string :=
  match p, s with
  | EmptyString, _ => Some s
  | String a p', String b s' =>
      if bool_decide (a = b) then strip_prefix p' s' else None
  | String _ _, EmptyString => None
  end.

(** [s.startsWith(p)] *)
Definition starts_with (p s : string) : bool :=
  bool_decide (is_Some (strip_prefix p s)).

(** An unanchored search, as [RegExp.prototype.test] performs it: the
    anchored matcher [m] is tried at every position of [s], the end
    included. *)
Fixpoint search (m : string → bool) (s : string) : bool :=
  m s ||
  match s with
  | EmptyString => false
  | String _ s' => search m s'
  end.

(** [t] occurs in [s]. *)
Definition occurs_in (t s : string) : Prop :=
  ∃ pre suf, s = pre +:+ t +:+ suf.

(** [l.join(sep)] on an array of strings *)
Definition join (sep : string) (l : list string) : string := String.concat sep l.

(** ** [allowZeroOrUpdateIfNonZero] *)

Definition allowZeroOrUpdateIfNonZero (param input : string) : bool :=
  bool_decide (param = "0") || negb (bool_decide (input = "0")).

(** ** [getExplorerLinkPrefix] *)

Definition getExplorerLinkPrefix (network : string) (useOvm : bool) : string :=
  "https://"
  +:+ (if negb (bool_decide (network = "mainnet"))
       then network +:+ (if useOvm then "-" else ".")
       else "")
  +:+ (if useOvm then "explorer.optimism" else "etherscan")
  +:+ ".io".

(** ** [ensureNetwork] *)

Section EnsureNetwork.
(** The list of known networks is imported from the package root
    ([require('../..')]); it is a parameter here. *)
Variable networks : list string.

Definition ensureNetwork (network : string) : outcome unit :=
  if negb (bool_decide (network ∈ networks)) then
    Throw (Exn Error
      ("Invalid network name of " +:+ dquote +:+ network +:+ dquote
       +:+ " supplied. Must be one of "
       +:+ join ", " networks +:+ "."))
  else Return ().
End EnsureNetwork.

(** ** [loadConnections] *)

(** [GetSubstitution] for a string pattern (no capture groups): in the
    replacement text, [$$] is a dollar sign, [$&] the matched text, a dollar
    followed by a backquote the text before the match, a dollar followed by
    an apostrophe the text after it; every other character, a dollar
    followed by a digit or by [<] included, stands for itself. *)
Fixpoint GetSubstitution (matched before after replacement : string) : string :=
  match replacement with
  | EmptyString => EmptyString
  | String "$" (String "$" r) => "$" +:+ GetSubstitution matched before after r
  | String "$" (String "&" r) => matched +:+ GetSubstitution matched before after r
  | String "$" (String "`" r) => before +:+ GetSubstitution matched before after r
  | String "$" (String "'" r) => after +:+ GetSubstitution matched before after r
  | String c r => String c (GetSubstitution matched before after r)
  end.

(** The text before and after the first occurrence of [pat] in [s]. *)
Fixpoint split_at_first (pat s : string) : option (string * string) :=
  match strip_prefix pat s with
  | Some after => Some (EmptyString, after)
  | None =>
      match s with
      | EmptyString => None
      | String c s' =>
          match split_at_first pat s' with
          | Some (before, after) => Some (String c before, after)
          | None => None
          end
      end
  end.

(** [s.replace(pat, replacement)] with a string pattern: only the first
    occurrence is replaced. *)
Definition String_replace (s pat replacement : string) : string :=
  match split_at_first pat s with
  | Some (before, after) =>
      before +:+ GetSubstitution pat before after replacement +:+ after
  | None => s
  end.

(** Truthiness of [process.env.X]: set and not the empty string. *)
Definition env_truthy (v : option string) : bool :=
  match v with
  | Some s => negb (bool_decide (s = EmptyString))
  | None => false
  end.

Record connections := {
  providerUrl : option string;
  privateKey : option string;
  etherscanUrl : string;
  explorerLinkPrefix : string
}.

Definition loadConnections (env : gmap string string)
    (network : string) (useFork useOvm : bool) : outcome connections :=
  let mainnet := bool_decide (network = "mainnet") in
  providerUrl ←
    (if bool_decide (network = "local") || useFork then
       Return (Some "http://127.0.0.1:8545")
     else if useOvm then
       if mainnet && env_truthy (env !! "OVM_PROVIDER_URL") then
         Return (env !! "OVM_PROVIDER_URL")
       else if env_truthy (env !! "OVM_GOERLI_PROVIDER_URL") then
         Return (env !! "OVM_GOERLI_PROVIDER_URL")
       else Return None
     else
       if mainnet && env_truthy (env !! "PROVIDER_URL_MAINNET") then
         Return (env !! "PROVIDER_URL_MAINNET")
       else
         match env !! "PROVIDER_URL" with
         | Some url => Return (Some (String_replace url "network" network))
         | None =>
             Throw (Exn TypeError
               "Cannot read properties of undefined (reading 'replace')")
         end);
  let privateKey :=
    if mainnet then env !! "DEPLOY_PRIVATE_KEY"
    else env !! "TESTNET_DEPLOY_PRIVATE_KEY" in
  let etherscanUrl :=
    "https://api"
    +:+ (if negb mainnet then "-" +:+ network else EmptyString)
    +:+ (if useOvm then "-optimistic" else EmptyString)
    +:+ ".etherscan.io/api" in
  let explorerLinkPrefix := getExplorerLinkPrefix network useOvm in
  Return {|
    providerUrl := providerUrl;
    privateKey := privateKey;
    etherscanUrl := etherscanUrl;
    explorerLinkPrefix := explorerLinkPrefix
  |}.

(** ** [confirmAction] *)

(** The regular expression [/y|Y/], anchored at the start of [s]. *)
Definition re_y_or_Y (s : string) : bool :=
  starts_with "y" s || starts_with "Y" s.

(** [answer] is the line read from standard input in reply to [prompt];
    the result is what the returned promise settles to. *)
Definition confirmAction (prompt answer : string) : outcome unit :=
  if search re_y_or_Y answer then Return ()
  else Throw (Exn Error "Not confirmed").

(** ** [catchMissingResolverWhenGeneratingSolidity] *)

Definition code (c : ascii) : N := N_of_ascii c.

(** The class [\s]: TAB, LF, VT, FF, CR, space and the no-break space. *)
Definition is_space (c : ascii) : bool :=
  ((9 <=? code c) && (code c <=? 13) || (code c =? 32) || (code c =? 160))%N.

(** The class [\w]: letters, digits and the underscore. *)
Definition is_word (c : ascii) : bool :=
  ((48 <=? code c) && (code c <=? 57) || (65 <=? code c) && (code c <=? 90)
   || (97 <=? code c) && (code c <=? 122) || (code c =? 95))%N.

(** The regular expression [/Missing address:\s[\w]+/], anchored at the
    start of [s]. *)
Definition re_missing_address (s : string) : bool :=
  match strip_prefix "Missing address:" s with
  | Some (String sp (String w _)) => is_space sp && is_word w
  | _ => false
  end.

Definition catchMissingResolverWhenGeneratingSolidity
    (contract : string) (dryRun : bool) (err : exn) (generateSolidity : bool)
    : outcome unit :=
  if (generateSolidity || dryRun) && search re_missing_address (message err)
  then Return ()
  else Throw err.

(** ** JSON values

    The values that [JSON.parse] produces and [JSON.stringify] consumes.
    A number is an integer (the embedding covers the integers that a
    double holds exactly; fractions and exponents are outside it). The
    properties of an object are kept in the order in which they were
    added, which is the order of their enumeration (but for keys that are
    array indices, which JavaScript enumerates first); an object never
    holds the same key twice ([json_ok]). *)

Unset Elimination Schemes.
Inductive json :=
  | VNull
  | VBool (b : bool)
  | VNum (n : Z)
  | VStr (s : string)
  | VArr (elems : list json)
  | VObj (props : list (string * json)).
Set Elimination Schemes.

(** Structural induction through the lists of elements and properties. *)
Definition json_ind (P : json → Prop)
    (Hnull : P VNull) (Hbool : ∀ b, P (VBool b)) (Hnum : ∀ n, P (VNum n))
    (Hstr : ∀ s, P (VStr s))
    (Harr : ∀ elems, Forall P elems → P (VArr elems))
    (Hobj : ∀ props, Forall (λ p, P (snd p)) props → P (VObj props))
    : ∀ value, P value :=
  fix go (value : json) : P value :=
    match value with
    | VNull => Hnull
    | VBool b => Hbool b
    | VNum n => Hnum n
    | VStr s => Hstr s
    | VArr elems =>
        Harr elems
          ((fix all (l : list json) : Forall P l :=
              match l with
              | [] => List.Forall_nil P
              | x :: l' => List.Forall_cons P x l' (go x) (all l')
              end) elems)
    | VObj props =>
        Hobj props
          ((fix all (l : list (string * json)) : Forall (λ p, P (snd p)) l :=
              match l with
              | [] => List.Forall_nil _
              | p :: l' => List.Forall_cons _ p l' (go (snd p)) (all l')
              end) props)
    end.

(** [obj[k]]: [None] stands for [undefined]. *)
Fixpoint get_prop (k : string) (props : list (string * json)) : option json :=
  match props with
  | [] => None
  | (k', v) :: rest => if bool_decide (k' = k) then Some v else get_prop k rest
  end.

(** [obj[k] = v]: an existing property keeps its place, a new one is added
    last. *)
Fixpoint set_prop (k : string) (v : json) (props : list (string * json))
    : list (string * json) :=
  match props with
  | [] => [(k, v)]
  | (k', v') :: rest =>
      if bool_decide (k' = k) then (k, v) :: rest
      else (k', v') :: set_prop k v rest
  end.

(** [value.k] on a value that is not [null]; primitives and arrays have no
    own property of the names read here. *)
Definition get (value : json) (k : string) : option json :=
  match value with
  | VObj props => get_prop k props
  | _ => None
  end.

(** [typeof value === 'object'] *)
Definition typeof_object (value : json) : bool :=
  match value with
  | VNull | VArr _ | VObj _ => true
  | _ => false
  end.

(** Truthiness of a value. *)
Definition truthy (value : json) : bool :=
  match value with
  | VNull => false
  | VBool b => b
  | VNum n => negb (n =? 0)
  | VStr s => negb (bool_decide (s = EmptyString))
  | VArr _ | VObj _ => true
  end.

Definition isArray (value : json) : bool :=
  match value with
  | VArr _ => true
  | _ => false
  end.

(** [x === 'literal'] for a property read. *)
Definition is_string (x : option json) (s : string) : bool :=
  match x with
  | Some (VStr s') => bool_decide (s' = s)
  | _ => false
  end.

(** ** [JSON.stringify] with a replacer and a gap *)

Definition nl : string := String "010" EmptyString.
Definition tab : string := String "009" EmptyString.
Definition backslash : string := String "092" EmptyString.

(** [Number::toString] on an integer: its decimal digits. *)
Definition Number_toString (n : Z) : string :=
  NilZero.string_of_int (Z.to_int n).

Definition hex_digit (n : N) : string :=
  String (ascii_of_N (if (n <? 10)%N then 48 + n else 87 + n)%N) EmptyString.

(** One code unit of a string, as [QuoteJSONString] writes it. *)
Definition escape_char (c : ascii) : string :=
  match code c with
  | 8%N => backslash +:+ "b"
  | 9%N => backslash +:+ "t"
  | 10%N => backslash +:+ "n"
  | 12%N => backslash +:+ "f"
  | 13%N => backslash +:+ "r"
  | 34%N => backslash +:+ dquote
  | 92%N => backslash +:+ backslash
  | n =>
      if (n <? 32)%N then
        backslash +:+ "u00" +:+ hex_digit (n / 16) +:+ hex_digit (n mod 16)
      else String c EmptyString
  end.

Fixpoint escape (s : string) : string :=
  match s with
  | EmptyString => EmptyString
  | String c r => escape_char c +:+ escape r
  end.

Definition QuoteJSONString (s : string) : string :=
  dquote +:+ escape s +:+ dquote.

(** The text of an array or an object from the texts of its parts. *)
Definition wrap_parts (open close stepback indent : string) (partial : list string)
    : string :=
  match partial with
  | [] => open +:+ close
  | _ =>
      open +:+ nl +:+ indent +:+ join ("," +:+ nl +:+ indent) partial
      +:+ nl +:+ stepback +:+ close
  end.

Section Stringify.
(** The numeric library ([ethers]) is outside this repository:
    [BigNumber_from value] is the integer that [BigNumber.from(value)]
    denotes, or the exception it raises. [toString()] on the result
    gives the decimal digits of that integer. *)
Variable BigNumber_from : json → outcome Z.

Definition JSONreplacer (key : string) (value : json) : outcome json :=
  if typeof_object value && truthy value
     && is_string (get value "type") "BigNumber" && negb (isArray value)
  then n ← BigNumber_from value; Return (VStr (Number_toString n))
  else Return value.

(** [SerializeJSONProperty] with [JSONreplacer] as the replacer function
    and a tab as the gap. The replacer is called on every value before
    the value is written. *)
Fixpoint SerializeJSONProperty (indent key : string) (value : json)
    : outcome string :=
  replaced ← JSONreplacer key value;
  match replaced with
  | VNull => Return "null"
  | VBool true => Return "true"
  | VBool false => Return "false"
  | VNum n => Return (Number_toString n)
  | VStr s => Return (QuoteJSONString s)
  | VArr _ | VObj _ =>
      (* the replacer hands an array or an object back as it is *)
      let stepback := indent in
      let indent := indent +:+ tab in
      match value with
      | VArr elems =>
          partial ← mapM (SerializeJSONProperty indent EmptyString) elems;
          Return (wrap_parts "[" "]" stepback indent partial)
      | VObj props =>
          partial ← mapM (λ p,
              strP ← SerializeJSONProperty indent (fst p) (snd p);
              Return (QuoteJSONString (fst p) +:+ ": " +:+ strP)) props;
          Return (wrap_parts "{" "}" stepback indent partial)
      | _ => Return "null"
      end
  end.

Definition JSON_stringify (value : json) : outcome string :=
  SerializeJSONProperty EmptyString EmptyString value.

(** [stringify] of [util.js] *)
Definition stringify (input : json) : outcome string :=
  text ← JSON_stringify input; Return (text +:+ nl).
End Stringify.

(** ** [JSON.parse] *)

Definition syntax_error {A} : outcome A :=
  Throw (Exn SyntaxError "Unexpected token in JSON").

Definition unsupported {A} (what : string) : outcome A :=
  Throw (Exn Unsupported what).

(** JSON white space: space, TAB, LF, CR. *)
Definition is_ws (c : ascii) : bool :=
  ((code c =? 32) || (code c =? 9) || (code c =? 10) || (code c =? 13))%N.

Fixpoint skip_ws (s : string) : string :=
  match s with
  | EmptyString => EmptyString
  | String c r => if is_ws c then skip_ws r else s
  end.

(** The rest of a keyword ([null], [true], [false]) after its first letter. *)
Definition expect {A} (word : string) (a : A) (s : string) : outcome (A * string) :=
  match strip_prefix word s with
  | Some rest => Return (a, rest)
  | None => syntax_error
  end.

Definition hex_value (c : ascii) : option N :=
  let n := code c in
  if ((48 <=? n) && (n <=? 57))%N then Some (n - 48)%N
  else if ((97 <=? n) && (n <=? 102))%N then Some (n - 87)%N
  else if ((65 <=? n) && (n <=? 70))%N then Some (n - 55)%N
  else None.

(** The code unit written as a backslash, [u] and four hexadecimal digits;
    code units from 256 on are outside the embedding of strings. *)
Definition unicode_escape (h1 h2 h3 h4 : ascii) : outcome ascii :=
  match hex_value h1, hex_value h2, hex_value h3, hex_value h4 with
  | Some a, Some b, Some c, Some d =>
      if ((a =? 0) && (b =? 0))%N then Return (ascii_of_N (16 * c + d))
      else unsupported "code unit above 255"
  | _, _, _, _ => syntax_error
  end.

(** [c] in front of the string that [m] reads. *)
Definition consing (c : ascii) (m : outcome (string * string))
    : outcome (string * string) :=
  p ← m; Return (String c (fst p), snd p).

(** The characters of a string literal after its opening quote, up to the
    closing quote, and the text that follows. *)
Fixpoint parse_string_body (s : string) : outcome (string * string) :=
  match s with
  | EmptyString => syntax_error
  | String "034" r => Return (EmptyString, r)
  | String "\" EmptyString => syntax_error
  | String "\" (String e r) =>
      match e with
      | "034"%char => consing "034" (parse_string_body r)
      | "\"%char => consing "\" (parse_string_body r)
      | "/"%char => consing "/" (parse_string_body r)
      | "b"%char => consing "008" (parse_string_body r)
      | "f"%char => consing "012" (parse_string_body r)
      | "n"%char => consing "010" (parse_string_body r)
      | "r"%char => consing "013" (parse_string_body r)
      | "t"%char => consing "009" (parse_string_body r)
      | "u"%char =>
          match r with
          | String h1 (String h2 (String h3 (String h4 r'))) =>
              match unicode_escape h1 h2 h3 h4 with
              | Return c => consing c (parse_string_body r')
              | Throw e => Throw e
              end
          | _ => syntax_error
          end
      | _ => syntax_error
      end
  | String c r =>
      if (code c <? 32)%N then syntax_error
      else consing c (parse_string_body r)
  end.

Definition digit_value (c : ascii) : option (uint → uint) :=
  match c with
  | "0"%char => Some D0 | "1"%char => Some D1 | "2"%char => Some D2
  | "3"%char => Some D3 | "4"%char => Some D4 | "5"%char => Some D5
  | "6"%char => Some D6 | "7"%char => Some D7 | "8"%char => Some D8
  | "9"%char => Some D9
  | _ => None
  end.

(** The longest run of decimal digits at the start of [s]. *)
Fixpoint lex_digits (s : string) : uint * string :=
  match s with
  | EmptyString => (Nil, s)
  | String c r =>
      match digit_value c with
      | Some d => let '(u, rest) := lex_digits r in (d u, rest)
      | None => (Nil, s)
      end
  end.

(** The integers that a double holds exactly. *)
Definition MAX_SAFE_INTEGER : Z := 2 ^ 53 - 1.
Definition safe_integer (n : Z) : bool :=
  (- MAX_SAFE_INTEGER <=? n) && (n <=? MAX_SAFE_INTEGER).

(** The sign of a number literal and what follows it. *)
Definition lex_sign (s : string) : bool * string :=
  match s with
  | String "-" r => (true, r)
  | _ => (false, s)
  end.

(** A zero in front of another digit. *)
Definition leading_zero (u : uint) : bool :=
  match u with
  | D0 Nil => false
  | D0 _ => true
  | _ => false
  end.

(** The number of an integer part [u] followed by [rest]. A literal with a
    fraction or an exponent, or beyond the safe integers, denotes a number
    outside the embedding. *)
Definition number_value (negative : bool) (u : uint) (rest : string)
    : outcome (Z * string) :=
  match rest with
  | String ("." | "e" | "E") _ => unsupported "number with a fraction or an exponent"
  | _ =>
      let n := if negative then - Z.of_uint u else Z.of_uint u in
      if safe_integer n then Return (n, rest)
      else unsupported "number beyond the safe integers"
  end.

(** A number literal: an optional minus sign and an integer part without a
    superfluous leading zero. *)
Definition parse_number (s : string) : outcome (Z * string) :=
  let '(negative, s1) := lex_sign s in
  let '(u, rest) := lex_digits s1 in
  match u with
  | Nil => syntax_error
  | _ => if leading_zero u then syntax_error else number_value negative u rest
  end.

(** [parse_value fuel s] reads one JSON value at the start of [s] and
    returns it with the text that follows; [fuel] bounds the number of
    values read. A key read twice keeps its first place and its last
    value. *)
Fixpoint parse_value (fuel : nat) (s : string) : outcome (json * string) :=
  match fuel with
  | O => syntax_error
  | S fuel =>
      match skip_ws s with
      | String "n" r => expect "ull" VNull r
      | String "t" r => expect "rue" (VBool true) r
      | String "f" r => expect "alse" (VBool false) r
      | String "034" r => p ← parse_string_body r; Return (VStr (fst p), snd p)
      | String "[" r =>
          match skip_ws r with
          | String "]" r' => Return (VArr [], r')
          | _ => parse_elements fuel r []
          end
      | String "{" r =>
          match skip_ws r with
          | String "}" r' => Return (VObj [], r')
          | _ => parse_members fuel r []
          end
      | other => p ← parse_number other; Return (VNum (fst p), snd p)
      end
  end
with parse_elements (fuel : nat) (s : string) (acc : list json)
    : outcome (json * string) :=
  match fuel with
  | O => syntax_error
  | S fuel =>
      p ← parse_value fuel s;
      match skip_ws (snd p) with
      | String "," r => parse_elements fuel r (acc ++ [fst p])
      | String "]" r => Return (VArr (acc ++ [fst p]), r)
      | _ => syntax_error
      end
  end
with parse_members (fuel : nat) (s : string) (acc : list (string * json))
    : outcome (json * string) :=
  match fuel with
  | O => syntax_error
  | S fuel =>
      match skip_ws s with
      | String "034" r =>
          k ← parse_string_body r;
          match skip_ws (snd k) with
          | String ":" r =>
              p ← parse_value fuel r;
              match skip_ws (snd p) with
              | String "," r => parse_members fuel r (set_prop (fst k) (fst p) acc)
              | String "}" r => Return (VObj (set_prop (fst k) (fst p) acc), r)
              | _ => syntax_error
              end
          | _ => syntax_error
          end
      | _ => syntax_error
      end
  end.

(** [JSON.parse(text)]: one value, then only white space. Every value read
    takes at least one character, so twice the length of the text is fuel
    enough: more fuel reads the same. *)
Definition JSON_parse (text : string) : outcome json :=
  p ← parse_value (2 * String.length text) text;
  if bool_decide (skip_ws (snd p) = EmptyString) then Return (fst p)
  else syntax_error.

(** ** The file system *)

(** A computation over the file system: it yields a result or throws, and
    leaves the file system as its writes made it. *)
Definition io (A : Type) : Type :=
  gmap string string → outcome A * gmap string string.

#[global] Instance io_ret : MRet io := λ A a fs, (Return a, fs).
#[global] Instance io_bind : MBind io := λ A B f m fs,
  match m fs with
  | (Return a, fs') => f a fs'
  | (Throw e, fs') => (Throw e, fs')
  end.

(** A computation that only reads the file system. *)
Definition reader {A} (f : gmap string string → outcome A) : io A :=
  λ fs, (f fs, fs).

Definition lift {A} (m : outcome A) : io A := reader (λ _, m).

Definition existsSync (file : string) : io bool :=
  reader (λ fs, Return (bool_decide (is_Some (fs !! file)))).

Definition readFileSync (file : string) : io string :=
  reader (λ fs,
    match fs !! file with
    | Some content => Return content
    | None =>
        Throw (Exn SystemError
          ("ENOENT: no such file or directory, open '" +:+ file +:+ "'"))
    end).

Definition writeFileSync (file content : string) : io unit :=
  λ fs, (Return (), <[file := content]> fs).

(** A computation that leaves the file system as it found it. *)
Definition readonly {A} (m : io A) : Prop := ∀ fs, snd (m fs) = fs.

(** ** [loadAndCheckRequiredSources] *)

(** [target[k] = v] in strict mode. *)
Definition assign (target : json) (k : string) (v : json) : outcome json :=
  match target with
  | VObj props => Return (VObj (set_prop k v props))
  | VNull =>
      Throw (Exn TypeError ("Cannot set properties of null (setting '" +:+ k +:+ "')"))
  | VArr _ => unsupported "named property of an array"
  | _ =>
      Throw (Exn TypeError ("Cannot create property '" +:+ k +:+ "' on a primitive value"))
  end.

Record sources := {
  config : json;
  params : json;
  configFile : string;
  synths : json;
  synthsFile : string;
  stakingRewards : json;
  stakingRewardsFile : string;
  futuresMarkets : json;
  futuresMarketsFile : string;
  deployment : json;
  deploymentFile : string;
  ownerActions : json;
  ownerActionsFile : string;
  versions : json;
  versionsFile : string;
  feeds : json;
  feedsFile : string;
  shortingRewards : json;
  shortingRewardsFile : string
}.

Section Loader.
Variable BigNumber_from : json → outcome Z.

(** [path.join] of Node. *)
Variable path_join : string → string → string.

(** The file names are constants of the package root
    ([require('../..').constants]). *)
Variables CONFIG_FILENAME PARAMS_FILENAME DEPLOYMENT_FILENAME
  OWNER_ACTIONS_FILENAME SYNTHS_FILENAME STAKING_REWARDS_FILENAME
  SHORTING_REWARDS_FILENAME VERSIONS_FILENAME FEEDS_FILENAME
  FUTURES_MARKETS_FILENAME : string.

(** The loaders that the package root builds from [path] and [fs]
    ([wrap({ path, fs })]): each takes the network and the deployment
    path and reads the file system. *)
Variables getSynths getStakingRewards getShortingRewards getVersions getFeeds
  : string → string → gmap string string → outcome json.

(** [JSON.parse(fs.readFileSync(file))] *)
Definition read_json (file : string) : io json :=
  text ← readFileSync file; lift (JSON_parse text).

Definition loadAndCheckRequiredSources
    (deploymentPath network : string) (freshDeploy : bool) : io sources :=
  let synthsFile := path_join deploymentPath SYNTHS_FILENAME in
  synths ← reader (getSynths network deploymentPath);

  let stakingRewardsFile := path_join deploymentPath STAKING_REWARDS_FILENAME in
  stakingRewards ← reader (getStakingRewards network deploymentPath);

  let shortingRewardsFile := path_join deploymentPath SHORTING_REWARDS_FILENAME in
  shortingRewards ← reader (getShortingRewards network deploymentPath);

  let configFile := path_join deploymentPath CONFIG_FILENAME in
  config ← read_json configFile;

  let paramsFile := path_join deploymentPath PARAMS_FILENAME in
  params ← read_json paramsFile;

  let futuresMarketsFile := path_join deploymentPath FUTURES_MARKETS_FILENAME in
  futuresMarkets ← read_json futuresMarketsFile;

  let versionsFile := path_join deploymentPath VERSIONS_FILENAME in
  versions ←
    (if negb (bool_decide (network = "local"))
     then reader (getVersions network deploymentPath)
     else mret (VObj []));

  let feedsFile := path_join deploymentPath FEEDS_FILENAME in
  feeds ← reader (getFeeds network deploymentPath);

  let deploymentFile := path_join deploymentPath DEPLOYMENT_FILENAME in
  present ← existsSync deploymentFile;
  (if negb present then
     text ← lift (stringify BigNumber_from
                    (VObj [("targets", VObj []); ("sources", VObj [])]));
     writeFileSync deploymentFile text
   else mret ());;
  deployment ← read_json deploymentFile;

  deployment ←
    (if freshDeploy then
       lift (d ← assign deployment "targets" (VObj []);
             assign d "sources" (VObj []))
     else mret deployment);

  let ownerActionsFile := path_join deploymentPath OWNER_ACTIONS_FILENAME in
  present ← existsSync ownerActionsFile;
  (if negb present then
     text ← lift (stringify BigNumber_from (VObj []));
     writeFileSync ownerActionsFile text
   else mret ());;
  ownerActions ← read_json ownerActionsFile;

  mret {|
    config := config;
    params := params;
    configFile := configFile;
    synths := synths;
    synthsFile := synthsFile;
    stakingRewards := stakingRewards;
    stakingRewardsFile := stakingRewardsFile;
    futuresMarkets := futuresMarkets;
    futuresMarketsFile := futuresMarketsFile;
    deployment := deployment;
    deploymentFile := deploymentFile;
    ownerActions := ownerActions;
    ownerActionsFile := ownerActionsFile;
    versions := versions;
    versionsFile := versionsFile;
    feeds := feeds;
    feedsFile := feedsFile;
    shortingRewards := shortingRewards;
    shortingRewardsFile := shortingRewardsFile
  |}.

(** Every input file loads: the five loaders of the package root return
    ([getVersions] is not called for the local network), and the three
    files read here exist and hold JSON text. *)
Definition inputs_load (deploymentPath network : string)
    (fs : gmap string string) : Prop :=
  returns (getSynths network deploymentPath fs)
  ∧ returns (getStakingRewards network deploymentPath fs)
  ∧ returns (getShortingRewards network deploymentPath fs)
  ∧ returns (fst (read_json (path_join deploymentPath CONFIG_FILENAME) fs))
  ∧ returns (fst (read_json (path_join deploymentPath PARAMS_FILENAME) fs))
  ∧ returns (fst (read_json (path_join deploymentPath FUTURES_MARKETS_FILENAME) fs))
  ∧ (network ≠ "local" → returns (getVersions network deploymentPath fs))
  ∧ returns (getFeeds network deploymentPath fs).

(** The deployment record, if it is on disk, holds JSON text, and holds
    an object when the record is to be cleared. *)
Definition record_loads (deploymentPath : string) (freshDeploy : bool)
    (fs : gmap string string) : Prop :=
  match fs !! path_join deploymentPath DEPLOYMENT_FILENAME with
  | None => True
  | Some text =>
      ∃ d, JSON_parse text = Return d
        ∧ (freshDeploy = true → ∃ props, d = VObj props)
  end.

(** The owner-actions ledger, if it is on disk, holds JSON text. *)
Definition ledger_loads (deploymentPath : string)
    (fs : gmap string string) : Prop :=
  match fs !! path_join deploymentPath OWNER_ACTIONS_FILENAME with
  | None => True
  | Some text => returns (JSON_parse text)
  end.
End Loader.

(** ** [assignGasOptions] *)

(** [String(value)]; an array is written as its elements separated by
    commas, [null] elements as nothing. *)
Fixpoint ToString (value : json) : string :=
  match value with
  | VNull => "null"
  | VBool true => "true"
  | VBool false => "false"
  | VNum n => Number_toString n
  | VStr s => s
  | VArr elems =>
      join "," (map (λ x, match x with VNull => EmptyString | _ => ToString x end) elems)
  | VObj _ => "[object Object]"
  end.

(** Truthiness of an argument that may be [undefined]. *)
Definition truthy_opt (value : option json) : bool :=
  match value with
  | Some v => truthy v
  | None => false
  end.

(** [value.toString()] *)
Definition toString (value : option json) : outcome string :=
  match value with
  | Some VNull | None =>
      Throw (Exn TypeError "Cannot read properties of undefined (reading 'toString')")
  | Some v => Return (ToString v)
  end.

(** [a || b] on strings *)
Definition or_else (a b : string) : string :=
  if bool_decide (a = EmptyString) then b else a.

(** [Object.assign(target, source)] on plain objects *)
Definition Object_assign (target source : list (string * json))
    : list (string * json) :=
  fold_left (λ t p, set_prop (fst p) (snd p) t) source target.

Section Gas.
(** [utils.parseUnits(value, unit)] of the numeric library. *)
Variable parseUnits : string → string → outcome json.

(** [getFeeData] is what [provider.getFeeData()] settles to: the fee-data
    object, or the exception of a provider without that query. The
    result is what the returned promise settles to. *)
Definition assignGasOptions (tx : list (string * json))
    (getFeeData : outcome (list (string * json)))
    (maxFeePerGas maxPriorityFeePerGas : option json)
    : outcome (list (string * json)) :=
  let gasOptions := [] in
  let feeData :=
    match getFeeData with
    | Return data => data
    | Throw _ => []
    end in
  gasOptions ←
    (if truthy_opt (get_prop "maxFeePerGas" feeData) then
       let gasOptions := set_prop "type" (VNum 2) gasOptions in
       gasOptions ←
         (if truthy_opt maxFeePerGas then
            s ← toString maxFeePerGas;
            units ← parseUnits (or_else s "100") "gwei";
            Return (set_prop "maxFeePerGas" units gasOptions)
          else Return gasOptions);
       (if truthy_opt maxPriorityFeePerGas then
          s ← toString maxPriorityFeePerGas;
          units ← parseUnits s "gwei";
          Return (set_prop "maxPriorityFeePerGas" units gasOptions)
        else Return gasOptions)
     else Return gasOptions);
  Return (Object_assign gasOptions tx).
End Gas.

(** ** [appendOwnerActionGenerator] *)

(** A property name that is an array index: a decimal numeral below
    [2^32 - 1] without a superfluous leading zero. JavaScript enumerates
    such keys before all others, whenever they were added. *)
Definition array_index (k : string) : bool :=
  let '(u, rest) := lex_digits k in
  match u with
  | Nil => false
  | _ =>
      bool_decide (rest = EmptyString) && negb (leading_zero u)
      && (Z.of_uint u <? 2 ^ 32 - 1)
  end.

(** A key under which [obj[key] = v] adds an own property that is
    enumerated last: not an array index, and not [__proto__], which sets
    the prototype of the object instead. *)
Definition ordinary_key (k : string) : bool :=
  negb (bool_decide (k = "__proto__")) && negb (array_index k).

(** The entry that is recorded for an action. *)
Definition ownerAction (explorerLinkPrefix : string) (action target data : json)
    : json :=
  VObj [ ("target", target);
         ("action", action);
         ("complete", VBool false);
         ("link", VStr (explorerLinkPrefix +:+ "/address/" +:+ ToString target
                        +:+ "#writeContract"));
         ("data", data) ].

Section OwnerActions.
Variable BigNumber_from : json → outcome Z.

(** The generator is given the ledger object that its caller holds, and
    the function it returns changes that object in place: the ledger is
    state, next to the file system. [ownerActions] is the ledger before
    the call; the result is how the call ends, the ledger after it, and
    the file system after it. The arguments [action], [target] and [data]
    are values (not [undefined]). *)
Definition appendOwnerActionGenerator
    (ownerActionsFile explorerLinkPrefix : string)
    (key : string) (action target data : json)
    (ownerActions : json) (fs : gmap string string)
    : outcome unit * json * gmap string string :=
  if negb (ordinary_key key) then
    (unsupported "key that is an array index or __proto__", ownerActions, fs)
  else
    match assign ownerActions key
            (ownerAction explorerLinkPrefix action target data) with
    | Throw e => (Throw e, ownerActions, fs)
    | Return ownerActions =>
        match stringify BigNumber_from ownerActions with
        | Throw e => (Throw e, ownerActions, fs)
        | Return text =>
            let '(result, fs) := writeFileSync ownerActionsFile text fs in
            (result, ownerActions, fs)
        end
    end.
End OwnerActions.

(** ** Console output: [parameterNotice] and [reportDeployedContracts] *)

(** What a function that prints did: the lines it wrote with
    [console.log], first line first, and the exception that ended it, if
    one did. *)
Record printed (E : Type) := Printed { lines : list string; raised : option E }.
Arguments Printed {E} lines raised.
Arguments lines {E} p.
Arguments raised {E} p.

(** The exception of [String.prototype.repeat]. *)
Inductive range_error := RangeError (message : string).

Fixpoint repeat_string (n : nat) (s : string) : string :=
  match n with
  | O => EmptyString
  | S n => s +:+ repeat_string n s
  end.

(** [s.repeat(count)] for an integer [count] *)
Definition String_repeat (s : string) (count : Z) : string + range_error :=
  if count <? 0 then
    inr (RangeError ("Invalid count value: " +:+ Number_toString count))
  else inl (repeat_string (Z.to_nat count) s).

(** The names that a value inherits from the prototypes of [Object],
    [Number] and [Boolean]. *)
Definition inherited (k : string) : bool :=
  bool_decide (k ∈ [ "constructor"; "__proto__"; "__defineGetter__";
    "__defineSetter__"; "__lookupGetter__"; "__lookupSetter__";
    "hasOwnProperty"; "isPrototypeOf"; "propertyIsEnumerable";
    "toLocaleString"; "toString"; "valueOf"; "toExponential"; "toFixed";
    "toPrecision" ]).

(** [value[k]] on a value that may be [undefined]. An inherited name that
    is not an own property gives a built-in function, and the properties
    of arrays and strings are their elements, their length and their
    methods: both are outside the embedding. *)
Definition member (value : option json) (k : string) : outcome (option json) :=
  match value with
  | None =>
      Throw (Exn TypeError
        ("Cannot read properties of undefined (reading '" +:+ k +:+ "')"))
  | Some VNull =>
      Throw (Exn TypeError
        ("Cannot read properties of null (reading '" +:+ k +:+ "')"))
  | Some (VObj props) =>
      match get_prop k props with
      | Some v => Return (Some v)
      | None => if inherited k then unsupported "inherited property" else Return None
      end
  | Some (VArr _) | Some (VStr _) => unsupported "property of an array or a string"
  | Some (VNum _) | Some (VBool _) =>
      if inherited k then unsupported "inherited property" else Return None
  end.

(** The deployer, as far as the report reads it: the contracts deployed in
    this run, each with its name and address, the deployment record, and
    the name of the network. *)
Module Deployer.
Record t := {
  newContractsDeployed : list (string * string);
  deployment : json;
  network : string
}.
End Deployer.

Section Console.
(** The styles of [chalk]. A style applied to a text wraps it in the
    escape codes of a colour; [redBright] is applied to any value. *)
Variables gray green : string → string.
Variable redBright : json → string.

(** [table] of the package of that name: the text of a table from its
    rows. A cell is [None] when it is [undefined]. *)
Variable table : list (string * string * option json) → outcome string.

(** The callback of [forEach] over the entries of [props], after the
    lines in [log] have been printed. *)
Fixpoint parameterNotice_entries (entries : list (string * json))
    (log : list string) : printed range_error :=
  match entries with
  | [] => Printed (log ++ [gray (repeat_string 50 "-")]) None
  | (key, val) :: rest =>
      match String_repeat " " (40 - Z.of_nat (String.length key)) with
      | inl pad =>
          parameterNotice_entries rest
            (log ++ [gray key +:+ pad +:+ redBright val])
      | inr e => Printed log (Some e)
      end
  end.

Definition parameterNotice (props : list (string * json)) : printed range_error :=
  parameterNotice_entries props
    [ gray (repeat_string 50 "-");
      "Please check the following parameters are correct:";
      gray (repeat_string 50 "-") ].

Definition reportDeployedContracts (deployer : Deployer.t) : printed exn :=
  let count := Z.of_nat (length (Deployer.newContractsDeployed deployer)) in
  let first :=
    green (nl +:+ "Successfully deployed " +:+ Number_toString count
           +:+ " contracts!" +:+ nl) in
  match
    mapM (λ c,
        targets ← member (Some (Deployer.deployment deployer)) "targets";
        target ← member targets (fst c);
        link ← member target "link";
        Return (fst c, snd c, link))
      (Deployer.newContractsDeployed deployer)
  with
  | Throw e => Printed [first] (Some e)
  | Return [] =>
      Printed [first; EmptyString; gray "Note: No new contracts deployed."] None
  | Return tableData =>
      let heading :=
        gray ("All contracts deployed on " +:+ dquote
              +:+ Deployer.network deployer +:+ dquote +:+ " network:") in
      match table tableData with
      | Return text => Printed [first; EmptyString; heading; text] None
      | Throw e => Printed [first; EmptyString; heading] (Some e)
      end
  end.
End Console.

(** The names that [util.js] exports. *)
Definition module_exports : list string :=
  [ "allowZeroOrUpdateIfNonZero"; "ensureNetwork"; "ensureDeploymentPath";
    "getDeploymentPathForNetwork"; "loadAndCheckRequiredSources";
    "getExplorerLinkPrefix"; "loadConnections"; "confirmAction";
    "appendOwnerActionGenerator"; "stringify"; "parameterNotice";
    "reportDeployedContracts"; "catchMissingResolverWhenGeneratingSolidity";
    "assignGasOptions" ].


(** * Vocabulary of the properties *)

(** A message that the regular expression [/Missing address:\s[\w]+/]
    matches: somewhere in it, [Missing address:], one white-space
    character, and a word character. *)
Definition names_missing_address (msg : string) : Prop :=
  ∃ pre sp w suf,
    msg = pre +:+ "Missing address:" +:+ String sp (String w suf)
    ∧ is_space sp = true ∧ is_word w = true.



(** *** The round trip through [stringify] and [JSON.parse] *)

(** A value in the words of the description: an object shaped like
    [{type: 'BigNumber', ...}] is rendered as the decimal string of the
    number it denotes; every other value keeps its keys and values, its
    parts rendered in turn. *)
Fixpoint render (BigNumber_from : json → outcome Z) (value : json) : outcome json :=
  match value with
  | VObj props =>
      if is_string (get_prop "type" props) "BigNumber" then
        n ← BigNumber_from value; Return (VStr (Number_toString n))
      else
        props' ← mapM (λ p, v ← render BigNumber_from (snd p); Return (fst p, v)) props;
        Return (VObj props')
  | VArr elems =>
      elems' ← mapM (render BigNumber_from) elems; Return (VArr elems')
  | _ => Return value
  end.

(** A value with nothing shaped like a [BigNumber] in it. *)
Fixpoint plain (value : json) : bool :=
  match value with
  | VObj props =>
      negb (is_string (get_prop "type" props) "BigNumber")
      && forallb (λ p, plain (snd p)) props
  | VArr elems => forallb plain elems
  | _ => true
  end.

(** A value of the embedding: its numbers are safe integers, and no object
    in it names a key twice. *)
Fixpoint json_ok (value : json) : bool :=
  match value with
  | VNum n => safe_integer n
  | VArr elems => forallb json_ok elems
  | VObj props =>
      bool_decide (NoDup props.*1) && forallb (λ p, json_ok (snd p)) props
  | _ => true
  end.

(** The text of a value that no replacer touches, at a given indentation. *)
Fixpoint serialize (indent : string) (value : json) : string :=
  match value with
  | VNull => "null"
  | VBool true => "true"
  | VBool false => "false"
  | VNum n => Number_toString n
  | VStr s => QuoteJSONString s
  | VArr elems =>
      wrap_parts "[" "]" indent (indent +:+ tab)
        (map (serialize (indent +:+ tab)) elems)
  | VObj props =>
      wrap_parts "{" "}" indent (indent +:+ tab)
        (map (λ p, QuoteJSONString (fst p) +:+ ": "
                   +:+ serialize (indent +:+ tab) (snd p)) props)
  end.

(** The number of values in a value: the fuel that reading it takes. *)
Fixpoint size (value : json) : nat :=
  match value with
  | VArr elems => S (list_sum (map (λ x, S (size x)) elems))
  | VObj props => S (list_sum (map (λ p, S (size (snd p))) props))
  | _ => 1
  end.

(** *** Indentation by tabs *)

(** Where a reader of a text stands: inside a string literal (just after
    a backslash, or not), just after an opening bracket, just after a
    comma, at the start of a line after [tabs_seen] tabs (on a line that
    can only close a bracket, when [closing]), or further inside a line. *)
Inductive place :=
  | InString (escaped : bool)
  | AfterOpen
  | AfterComma
  | LineStart (tabs_seen : nat) (closing : bool)
  | Inside.

Definition is_open (c : ascii) : bool :=
  bool_decide (c = "["%char) || bool_decide (c = "{"%char).

Definition is_close (c : ascii) : bool :=
  bool_decide (c = "]"%char) || bool_decide (c = "}"%char).

(** A character that starts or continues a token, with [depth] brackets
    open: a quote opens a string, a bracket opens a level, a comma ends a
    part; a tab is no part of a token. *)
Definition token (c : ascii) (depth : nat) : option (place * nat) :=
  if bool_decide (c = "034"%char) then Some (InString false, depth)
  else if is_open c then Some (AfterOpen, S depth)
  else if bool_decide (c = ","%char) then Some (AfterComma, depth)
  else if bool_decide (c = "009"%char) then None
  else Some (Inside, depth).

(** One character of a text that is laid out with one tab for each open
    bracket. After an opening bracket comes its closing bracket or a line
    break, after a comma a line break. A line starts with as many tabs as
    brackets are open, and then neither white space nor another tab; a
    line that closes a bracket starts with one tab less. A closing
    bracket stands right after its opening bracket or first on its line.
    The line break that ends a part is followed by a closing line. *)
Definition step (p : place) (depth : nat) (c : ascii) : option (place * nat) :=
  match p with
  | InString true => Some (InString false, depth)
  | InString false =>
      if bool_decide (c = "\"%char) then Some (InString true, depth)
      else if bool_decide (c = "034"%char) then Some (Inside, depth)
      else Some (InString false, depth)
  | AfterOpen =>
      if bool_decide (c = "010"%char) then Some (LineStart 0 false, depth)
      else if is_close c then
        match depth with
        | S d => Some (Inside, d)
        | O => None
        end
      else None
  | AfterComma =>
      if bool_decide (c = "010"%char) then Some (LineStart 0 false, depth)
      else None
  | LineStart k closing =>
      if bool_decide (c = "009"%char) then Some (LineStart (S k) closing, depth)
      else if is_close c then
        if bool_decide (depth = S k) then Some (Inside, k) else None
      else if closing || is_ws c || negb (bool_decide (k = depth)) then None
      else token c depth
  | Inside =>
      if bool_decide (c = "010"%char) then Some (LineStart 0 true, depth)
      else if is_close c then None
      else token c depth
  end.

Fixpoint walk (p : place) (depth : nat) (s : string) : option (place * nat) :=
  match s with
  | EmptyString => Some (p, depth)
  | String c r =>
      match step p depth c with
      | Some (p', depth') => walk p' depth' r
      | None => None
      end
  end.

(** [s] is a text indented by tabs, one for each level of nesting, that
    ends in a line break: read from the start of its first line with no
    bracket open, it ends at the start of a line, every bracket closed. *)
Definition tab_indented (s : string) : bool :=
  match walk (LineStart 0 false) 0 s with
  | Some (LineStart 0 true, 0%nat) => true
  | _ => false
  end.

(** [s] consists of tabs. *)
Fixpoint tabs (s : string) : bool :=
  match s with
  | EmptyString => true
  | String c r => bool_decide (c = "009"%char) && tabs r
  end.

(** What follows a value inside a text written by [stringify]: a comma or
    a line break. *)
Definition delimited (rest : string) : Prop :=
  ∃ c r, rest = String c r ∧ (c = ","%char ∨ c = "010"%char).

(** The first character of the text of a value. *)
Definition value_start (c : ascii) : bool :=
  bool_decide (c ∈ ["n"; "t"; "f"; "034"; "["; "{"; "-";
                    "0"; "1"; "2"; "3"; "4"; "5"; "6"; "7"; "8"; "9"]%char).

(** The lines of the parts of an array or an object, each on a line of its
    own after the indentation, and what follows the last of them. *)
Fixpoint items (indent : string) (parts : list string) (closing : string) : string :=
  match parts with
  | [] => closing
  | [p] => nl +:+ indent +:+ p +:+ closing
  | p :: ps => nl +:+ indent +:+ p +:+ "," +:+ items indent ps closing
  end.

(** The text of a member of an object. *)
Definition member_text (indent : string) (p : string * json) : string :=
  QuoteJSONString (fst p) +:+ ": " +:+ serialize indent (snd p).

(** Decimal digits as [Z.to_int] writes them: at least one, and no zero in
    front of another digit. *)
Definition canonical (u : uint) : Prop :=
  u ≠ Nil ∧ ∀ u', u = D0 u' → u' = Nil.

(** A value that is read back from its text. *)
Definition reads_back (value : json) : Prop :=
  json_ok value = true →
  ∀ indent rest fuel,
    tabs indent = true → delimited rest → (size value ≤ fuel)%nat →
    parse_value fuel (serialize indent value +:+ rest) = Return (value, rest).

(** A part of an array or an object at a depth: it starts like a value,
    and a reader inside a line is inside a line after it. *)
Definition part_at (d : nat) (p : string) : Prop :=
  (∃ c t, p = String c t ∧ value_start c = true)
  ∧ ∀ s, walk Inside d (p +:+ s) = walk Inside d s.

(** A deployment record after [targets] and [sources] have been cleared. *)
Definition cleared (props : list (string * json)) : json :=
  VObj (set_prop "sources" (VObj []) (set_prop "targets" (VObj []) props)).

(** [s] with another deployment record, every other field as it is. *)
Definition with_deployment (s : sources) (d : json) : sources := {|
  config := config s;
  params := params s;
  configFile := configFile s;
  synths := synths s;
  synthsFile := synthsFile s;
  stakingRewards := stakingRewards s;
  stakingRewardsFile := stakingRewardsFile s;
  futuresMarkets := futuresMarkets s;
  futuresMarketsFile := futuresMarketsFile s;
  deployment := d;
  deploymentFile := deploymentFile s;
  ownerActions := ownerActions s;
  ownerActionsFile := ownerActionsFile s;
  versions := versions s;
  versionsFile := versionsFile s;
  feeds := feeds s;
  feedsFile := feedsFile s;
  shortingRewards := shortingRewards s;
  shortingRewardsFile := shortingRewardsFile s
|}.

(** The file system after [file] has been created with [content] if it did
    not exist. *)
Definition create_if_missing (file content : string) (fs : gmap string string)
    : gmap string string :=
  match fs !! file with
  | Some _ => fs
  | None => <[file := content]> fs
  end.

(** The texts written for a missing deployment record and a missing
    owner-actions ledger. *)
Definition empty_deployment_text : string :=
  "{" +:+ nl +:+ tab +:+ dquote +:+ "targets" +:+ dquote +:+ ": {}," +:+ nl
  +:+ tab +:+ dquote +:+ "sources" +:+ dquote +:+ ": {}" +:+ nl +:+ "}" +:+ nl.

Definition empty_ownerActions_text : string := "{}" +:+ nl.

(** A deployment directory to run the loader on: Node's [path.join] on
    plain names, the file names of the package, and loaders that read and
    parse one file each. *)
Module Sample.
Definition path_join (dir file : string) : string := dir +:+ "/" +:+ file.

Definition load_file (file : string) (network deploymentPath : string)
    (fs : gmap string string) : outcome json :=
  fst (read_json (path_join deploymentPath file) fs).

(** A numeric library that reads the [hex] property of the JSON form of
    a number: an optional minus sign, [0x] and hexadecimal digits. *)
Definition hex_digits (s : string) : option Z :=
  match s with
  | EmptyString => None
  | _ =>
      (fix go (acc : Z) (s : string) : option Z :=
         match s with
         | EmptyString => Some acc
         | String c r =>
             match hex_value c with
             | Some d => go (16 * acc + Z.of_N d) r
             | None => None
             end
         end) 0 s
  end.

Definition parse_hex (s : string) : option Z :=
  match s with
  | String "-" (String "0" (String "x" digits)) => Z.opp <$> hex_digits digits
  | String "0" (String "x" digits) => hex_digits digits
  | _ => None
  end.

Definition BigNumber_from (value : json) : outcome Z :=
  match get value "hex" with
  | Some (VStr hex) =>
      match parse_hex hex with
      | Some n => Return n
      | None => Throw (Exn ArgumentError "invalid BigNumber string")
      end
  | _ => Throw (Exn ArgumentError "invalid BigNumber value")
  end.

Definition loadAndCheckRequiredSources :=
  loadAndCheckRequiredSources BigNumber_from path_join
    "config.json" "params.json" "deployment.json" "owner-actions.json"
    "synths.json" "rewards.json" "shorting-rewards.json" "versions.json"
    "feeds.json" "futures-markets.json"
    (load_file "synths.json") (load_file "rewards.json")
    (load_file "shorting-rewards.json") (load_file "versions.json")
    (load_file "feeds.json").

(** The input files of a deployment directory, all present. *)
Definition inputs : gmap string string :=
  list_to_map
    [ ("d/config.json", "{}"); ("d/params.json", "[]");
      ("d/synths.json", "[]"); ("d/rewards.json", "[]");
      ("d/shorting-rewards.json", "[]"); ("d/versions.json", "{}");
      ("d/feeds.json", "{}"); ("d/futures-markets.json", "[]") ].

(** A deployment record with a contract in it. *)
Definition deployed_text : string :=
  "{" +:+ dquote +:+ "targets" +:+ dquote +:+ ": {" +:+ dquote +:+ "Synthetix"
  +:+ dquote +:+ ": 1}, " +:+ dquote +:+ "sources" +:+ dquote +:+ ": {}, "
  +:+ dquote +:+ "note" +:+ dquote +:+ ": true}".

Definition deployed : gmap string string :=
  <["d/deployment.json" := deployed_text]> inputs.

(** What the loader returns on [deployed] for the network [goerli]. *)
Definition loaded : sources := {|
  config := VObj [];
  params := VArr [];
  configFile := "d/config.json";
  synths := VArr [];
  synthsFile := "d/synths.json";
  stakingRewards := VArr [];
  stakingRewardsFile := "d/rewards.json";
  futuresMarkets := VArr [];
  futuresMarketsFile := "d/futures-markets.json";
  deployment :=
    VObj [("targets", VObj [("Synthetix", VNum 1)]); ("sources", VObj []);
          ("note", VBool true)];
  deploymentFile := "d/deployment.json";
  ownerActions := VObj [];
  ownerActionsFile := "d/owner-actions.json";
  versions := VObj [];
  versionsFile := "d/versions.json";
  feeds := VObj [];
  feedsFile := "d/feeds.json";
  shortingRewards := VArr [];
  shortingRewardsFile := "d/shorting-rewards.json"
|}.

(** An owner-actions ledger with a number in it, and what it is after a
    round trip. *)
Definition ledger : json :=
  VObj [("Issuer.setMinimumStake",
         VObj [("target", VStr "0x0001");
               ("action", VStr "setMinimumStake(uint256)");
               ("complete", VBool false);
               ("value", VObj [("type", VStr "BigNumber");
                               ("hex", VStr "0x0de0b6b3a7640000")]);
               ("args", VArr [VNum 18; VNull; VStr ("a" +:+ dquote +:+ "b")])])].

Definition ledger_read_back : json :=
  VObj [("Issuer.setMinimumStake",
         VObj [("target", VStr "0x0001");
               ("action", VStr "setMinimumStake(uint256)");
               ("complete", VBool false);
               ("value", VStr "1000000000000000000");
               ("args", VArr [VNum 18; VNull; VStr ("a" +:+ dquote +:+ "b")])])].
End Sample.

(** * Vocabulary of the further properties *)

(** The environment variables that [loadConnections] reads for a network
    and a mode. *)
Definition variables_read (network : string) (useFork useOvm : bool) : list string :=
  let mainnet := bool_decide (network = "mainnet") in
  (if mainnet then "DEPLOY_PRIVATE_KEY" else "TESTNET_DEPLOY_PRIVATE_KEY")
  :: (if bool_decide (network = "local") || useFork then []
      else if useOvm then
        (if mainnet then ["OVM_PROVIDER_URL"] else []) ++ ["OVM_GOERLI_PROVIDER_URL"]
      else
        (if mainnet then ["PROVIDER_URL_MAINNET"] else []) ++ ["PROVIDER_URL"]).

(** [fs'] is [fs] with, at most, some files of [files] created: every file
    of [fs] is in [fs'] with the same content, and outside [files] the two
    hold the same. *)
Definition creates_only (files : list string) (fs fs' : gmap string string) : Prop :=
  (∀ file content, fs !! file = Some content → fs' !! file = Some content)
  ∧ (∀ file, file ∉ files → fs' !! file = fs !! file).


(** A computation that, however it ends, has at most created files of
    [files]. *)
Definition grows {A} (files : list string) (m : io A) : Prop :=
  ∀ fs, creates_only files fs (snd (m fs)).


(** The ledger [props] with an action recorded under [key]. *)
Definition with_action (explorerLinkPrefix key : string) (action target data : json)
    (props : list (string * json)) : list (string * json) :=
  set_prop key (ownerAction explorerLinkPrefix action target data) props.

(** The line that [parameterNotice] prints for a parameter: the name, then
    spaces up to the fortieth column, then the value. *)
Definition parameter_line (gray : string → string) (redBright : json → string)
    (p : string * json) (line : string) : Prop :=
  ∃ n, line = gray (fst p) +:+ repeat_string n " " +:+ redBright (snd p)
    ∧ (String.length (fst p) + n = 40)%nat.

(** The row of the report for a contract, given the targets of the
    deployment record: the name, the address, and the link of the target
    of that name, which is an object. *)
Definition report_row (targets : list (string * json)) (c : string * string)
    (row : string * string * option json) : Prop :=
  ∃ target, get_prop (fst c) targets = Some (VObj target)
    ∧ row = (fst c, snd c, get_prop "link" target).

(** * Properties *)

(** ** Strings *)

Lemma str_app_cons c a b : String c a +:+ b = String c (a +:+ b).
Proof. reflexivity. Qed.

Lemma str_app_nil_l s : EmptyString +:+ s = s.
Proof. reflexivity. Qed.

Lemma str_app_nil_r s : s +:+ EmptyString = s.
Proof. induction s as [|c s IH]; [done|]. by rewrite str_app_cons, IH. Qed.

Lemma str_app_assoc a b c : (a +:+ b) +:+ c = a +:+ (b +:+ c).
Proof. induction a as [|x a IH]; [done|]. by rewrite !str_app_cons, IH. Qed.

Lemma str_app_length a b :
  String.length (a +:+ b) = (String.length a + String.length b)%nat.
Proof. induction a as [|x a IH]; [done|]. rewrite str_app_cons. simpl. by rewrite IH. Qed.

Lemma strip_prefix_spec p s r : strip_prefix p s = Some r ↔ s = p +:+ r.
Proof.
  revert s. induction p as [|a p IH]; intros s; simpl.
  - rewrite str_app_nil_l. naive_solver.
  - rewrite str_app_cons. destruct s as [|b s]; [naive_solver|].
    case_bool_decide; [|naive_solver]. subst. rewrite IH. naive_solver.
Qed.

Lemma strip_prefix_app p r : strip_prefix p (p +:+ r) = Some r.
Proof. by apply strip_prefix_spec. Qed.

Lemma starts_with_spec p s : starts_with p s = true ↔ ∃ r, s = p +:+ r.
Proof.
  unfold starts_with. rewrite bool_decide_eq_true. unfold is_Some.
  by setoid_rewrite strip_prefix_spec.
Qed.

Lemma search_spec m s :
  search m s = true ↔ ∃ pre suf, s = pre +:+ suf ∧ m suf = true.
Proof.
  induction s as [|c s IH]; simpl.
  - rewrite orb_false_r. split.
    + intros H. by exists EmptyString, EmptyString.
    + intros ([|??] & suf & Heq & H); [|done]. rewrite str_app_nil_l in Heq. by subst.
  - rewrite orb_true_iff, IH. split.
    + intros [H|(pre & suf & -> & H)].
      * by exists EmptyString, (String c s).
      * exists (String c pre), suf. by rewrite str_app_cons.
    + intros ([|x pre] & suf & Heq & H).
      * rewrite str_app_nil_l in Heq. subst. by left.
      * rewrite str_app_cons in Heq. simplify_eq. right. by exists pre, suf.
Qed.

Lemma occurs_in_app_l t s pre : occurs_in t s → occurs_in t (pre +:+ s).
Proof.
  intros (a & b & ->). exists (pre +:+ a), b. by rewrite str_app_assoc.
Qed.

Lemma occurs_in_app_r t s suf : occurs_in t s → occurs_in t (s +:+ suf).
Proof.
  intros (a & b & ->). exists a, (b +:+ suf). by rewrite !str_app_assoc.
Qed.

Lemma occurs_in_refl t : occurs_in t t.
Proof. exists EmptyString, EmptyString. by rewrite str_app_nil_l, str_app_nil_r. Qed.

Lemma occurs_in_join sep l n : n ∈ l → occurs_in n (join sep l).
Proof.
  unfold join. induction l as [|x l IH]; [by intros ?%elem_of_nil|].
  intros [->|Hin]%elem_of_cons; destruct l as [|y l]; simpl.
  - apply occurs_in_refl.
  - apply occurs_in_app_r, occurs_in_refl.
  - by apply elem_of_nil in Hin.
  - by apply occurs_in_app_l, occurs_in_app_l, IH.
Qed.

(** ** [allowZeroOrUpdateIfNonZero] *)

(** C10: for all strings [param] and [input], the helper returns [true]
    exactly when [param] is ['0'] or [input] is not ['0'], that is, [false]
    only when [param] is not ['0'] and [input] is ['0']; the helper is one
    of the names the module exports. *)
Theorem allowZeroOrUpdateIfNonZero_spec (param input : string) :
  (allowZeroOrUpdateIfNonZero param input = true ↔ param = "0" ∨ input ≠ "0")
  ∧ (allowZeroOrUpdateIfNonZero param input = false ↔ param ≠ "0" ∧ input = "0")
  ∧ "allowZeroOrUpdateIfNonZero" ∈ module_exports.
Proof.
  unfold allowZeroOrUpdateIfNonZero. split_and!.
  - rewrite orb_true_iff, negb_true_iff, bool_decide_eq_true, bool_decide_eq_false.
    done.
  - rewrite orb_false_iff, negb_false_iff, bool_decide_eq_true, bool_decide_eq_false.
    done.
  - unfold module_exports. set_solver.
Qed.

(** ** [getExplorerLinkPrefix] *)

(** C9: for mainnet without OVM the prefix is [https://etherscan.io]; for
    goerli with OVM it is [https://goerli-explorer.optimism.io]. *)
Theorem getExplorerLinkPrefix_examples :
  getExplorerLinkPrefix "mainnet" false = "https://etherscan.io"
  ∧ getExplorerLinkPrefix "goerli" true = "https://goerli-explorer.optimism.io".
Proof. split; reflexivity. Qed.

(** ** [ensureNetwork] *)

(** C8: for a name outside the list of known networks, [ensureNetwork]
    throws an error whose message contains the name and the whole list of
    allowed names; for a name in the list it returns, and it has no effect
    (it is a function of its argument alone). *)
Theorem ensureNetwork_spec (networks : list string) (network : string) :
  (network ∉ networks →
     ∃ msg, ensureNetwork networks network = Throw (Exn Error msg)
       ∧ occurs_in network msg
       ∧ occurs_in (join ", " networks) msg
       ∧ ∀ n, n ∈ networks → occurs_in n msg)
  ∧ (network ∈ networks → ensureNetwork networks network = Return ()).
Proof.
  unfold ensureNetwork. split; intros Hin.
  - rewrite bool_decide_eq_false_2 by done. simpl. eexists. split; [done|].
    assert (∀ pre n suf, occurs_in n (join ", " networks) →
      occurs_in n (pre +:+ join ", " networks +:+ suf)) as Hjoin.
    { intros. by apply occurs_in_app_l, occurs_in_app_r. }
    split_and!.
    + do 2 apply occurs_in_app_l. apply occurs_in_app_r, occurs_in_refl.
    + do 5 apply occurs_in_app_l. apply occurs_in_app_r, occurs_in_refl.
    + intros n Hn. do 5 apply occurs_in_app_l.
      by apply occurs_in_app_r, occurs_in_join.
  - by rewrite bool_decide_eq_true_2.
Qed.

Lemma ensureNetwork_spec_witness :
  (∃ msg, ensureNetwork ["mainnet"; "goerli"] "rinkeby" = Throw (Exn Error msg)
     ∧ occurs_in "rinkeby" msg
     ∧ occurs_in "mainnet, goerli" msg
     ∧ ∀ n, n ∈ ["mainnet"; "goerli"] → occurs_in n msg)
  ∧ ensureNetwork ["mainnet"; "goerli"] "goerli" = Return ().
Proof.
  split.
  - apply (ensureNetwork_spec ["mainnet"; "goerli"] "rinkeby"). set_solver.
  - apply (ensureNetwork_spec ["mainnet"; "goerli"] "goerli"). set_solver.
Defined.

(** ** [confirmAction] *)

Lemma re_y_or_Y_spec s :
  re_y_or_Y s = true ↔ ∃ r, s = "y" +:+ r ∨ s = "Y" +:+ r.
Proof.
  unfold re_y_or_Y. rewrite orb_true_iff, !starts_with_spec. naive_solver.
Qed.

Lemma search_y_or_Y answer :
  search re_y_or_Y answer = true ↔ occurs_in "y" answer ∨ occurs_in "Y" answer.
Proof.
  rewrite search_spec. unfold occurs_in. setoid_rewrite re_y_or_Y_spec.
  naive_solver.
Qed.

(** C2, as the code has it: the promise resolves exactly when the answer
    contains the letter [y] or [Y], and is rejected with the error
    [Not confirmed] for every other answer. *)
Theorem confirmAction_spec (prompt answer : string) :
  (confirmAction prompt answer = Return ()
     ↔ occurs_in "y" answer ∨ occurs_in "Y" answer)
  ∧ (confirmAction prompt answer = Throw (Exn Error "Not confirmed")
     ↔ ¬ (occurs_in "y" answer ∨ occurs_in "Y" answer)).
Proof.
  unfold confirmAction. rewrite <- search_y_or_Y.
  destruct (search re_y_or_Y answer); naive_solver.
Qed.

(** C2, as stated, fails: the answer [yes] is neither [y] nor [Y], and the
    promise resolves. *)
Lemma confirmAction_resolves_on_yes :
  confirmAction "Continue? (y/n) " "yes" = Return ()
  ∧ "yes" ≠ "y" ∧ "yes" ≠ "Y".
Proof. split_and!; [reflexivity|done|done]. Qed.

Example confirmAction_rejects_n :
  confirmAction "Continue? (y/n) " "n" = Throw (Exn Error "Not confirmed").
Proof. reflexivity. Qed.

(** ** [catchMissingResolverWhenGeneratingSolidity] *)

Lemma re_missing_address_spec s :
  re_missing_address s = true ↔
  ∃ sp w suf, s = "Missing address:" +:+ String sp (String w suf)
    ∧ is_space sp = true ∧ is_word w = true.
Proof.
  unfold re_missing_address.
  destruct (strip_prefix "Missing address:" s) as [r|] eqn:Hr.
  - apply strip_prefix_spec in Hr as ->. split.
    + destruct r as [|sp [|w suf]]; [done..|].
      intros [??]%andb_true_iff. by exists sp, w, suf.
    + intros (sp & w & suf & Heq & Hsp & Hw). apply (inj _) in Heq as ->.
      by rewrite Hsp, Hw.
  - split; [done|]. intros (sp & w & suf & -> & _).
    by rewrite strip_prefix_app in Hr.
Qed.

Lemma search_missing_address msg :
  search re_missing_address msg = true ↔ names_missing_address msg.
Proof.
  rewrite search_spec. unfold names_missing_address.
  setoid_rewrite re_missing_address_spec. naive_solver.
Qed.

(** C5: the error is swallowed exactly when [generateSolidity] or [dryRun]
    is set and the message of the error matches [Missing address:
    <identifier>]; in every other case the very same error is raised
    again. *)
Theorem catchMissingResolverWhenGeneratingSolidity_spec
    (contract : string) (dryRun : bool) (err : exn) (generateSolidity : bool) :
  (catchMissingResolverWhenGeneratingSolidity contract dryRun err generateSolidity
     = Return ()
   ↔ (generateSolidity = true ∨ dryRun = true) ∧ names_missing_address (message err))
  ∧ (catchMissingResolverWhenGeneratingSolidity contract dryRun err generateSolidity
     = Throw err
   ↔ ¬ ((generateSolidity = true ∨ dryRun = true) ∧ names_missing_address (message err))).
Proof.
  unfold catchMissingResolverWhenGeneratingSolidity.
  rewrite <- search_missing_address, <- orb_true_iff, <- andb_true_iff.
  destruct (_ && _); naive_solver.
Qed.

Example catchMissingResolver_FeePool :
  names_missing_address "Missing address: FeePool"
  ∧ catchMissingResolverWhenGeneratingSolidity
      "Issuer" false (Exn Error "Missing address: FeePool") true = Return ()
  ∧ catchMissingResolverWhenGeneratingSolidity
      "Issuer" true (Exn Error "Missing address: FeePool") false = Return ()
  ∧ catchMissingResolverWhenGeneratingSolidity
      "Issuer" false (Exn Error "Missing address: FeePool") false
    = Throw (Exn Error "Missing address: FeePool").
Proof.
  split_and!; try reflexivity.
  by exists EmptyString, " "%char, "F"%char, "eePool".
Qed.

(** ** [loadConnections] *)

(** C1, as stated, fails: on a test network without OVM and with no
    environment variable set, the generic fallback calls [replace] on
    [undefined] and the call throws a [TypeError]. *)
Lemma loadConnections_throws_without_PROVIDER_URL :
  "goerli" ≠ "local"
  ∧ ∃ msg, loadConnections ∅ "goerli" false false = Throw (Exn TypeError msg).
Proof. split; [discriminate|]. eexists. reflexivity. Qed.

(** C1, as the code has it: with a network other than [local] and
    [useFork] off, the call returns whenever [useOvm] is on, or
    [PROVIDER_URL] is set, or the network is [mainnet] and
    [PROVIDER_URL_MAINNET] is set and not empty. The private key is then
    that of the variable for the network, [undefined] when the variable is
    unset; with [useOvm] on and neither OVM provider variable usable, the
    provider URL is [undefined]. *)
Theorem loadConnections_returns
    (env : gmap string string) (network : string) (useFork useOvm : bool) :
  network ≠ "local" → useFork = false →
  useOvm = true
    ∨ is_Some (env !! "PROVIDER_URL")
    ∨ (network = "mainnet" ∧ env_truthy (env !! "PROVIDER_URL_MAINNET") = true) →
  ∃ c, loadConnections env network useFork useOvm = Return c
    ∧ privateKey c =
        env !! (if bool_decide (network = "mainnet") then "DEPLOY_PRIVATE_KEY"
                else "TESTNET_DEPLOY_PRIVATE_KEY")
    ∧ (useOvm = true →
       env_truthy (env !! "OVM_GOERLI_PROVIDER_URL") = false →
       network ≠ "mainnet" ∨ env_truthy (env !! "OVM_PROVIDER_URL") = false →
       providerUrl c = None)
    ∧ etherscanUrl c =
        "https://api" +:+ (if bool_decide (network = "mainnet") then EmptyString
                           else "-" +:+ network)
        +:+ (if useOvm then "-optimistic" else EmptyString) +:+ ".etherscan.io/api"
    ∧ explorerLinkPrefix c = getExplorerLinkPrefix network useOvm.
Proof.
  intros Hlocal -> Hcond. unfold loadConnections.
  rewrite (bool_decide_eq_false_2 (network = "local")) by done. simpl.
  destruct useOvm; simpl.
  - destruct (bool_decide (network = "mainnet")
              && env_truthy (env !! "OVM_PROVIDER_URL")) eqn:Hmain;
      [|destruct (env_truthy (env !! "OVM_GOERLI_PROVIDER_URL")) eqn:Hgoerli];
      (eexists; split; [done|]; simpl; split_and!; try by case_bool_decide).
    apply andb_true_iff in Hmain as [Hnet%bool_decide_eq_true Htruthy].
    intros _ _ [?|Hfalse]; [done|]. by rewrite Hfalse in Htruthy.
  - destruct (bool_decide (network = "mainnet")
              && env_truthy (env !! "PROVIDER_URL_MAINNET")) eqn:Hmain.
    + eexists. split; [done|]. simpl. split_and!; try done; by case_bool_decide.
    + destruct Hcond as [?|[[url Hurl]|[-> Htruthy]]]; [done| |].
      * rewrite Hurl. eexists. split; [done|]. simpl.
        split_and!; try done; by case_bool_decide.
      * by rewrite Htruthy in Hmain.
Qed.

Lemma loadConnections_returns_witness :
  ∃ c, loadConnections ∅ "goerli" false true = Return c
    ∧ privateKey c = None
    ∧ providerUrl c = None
    ∧ etherscanUrl c = "https://api-goerli-optimistic.etherscan.io/api"
    ∧ explorerLinkPrefix c = "https://goerli-explorer.optimism.io".
Proof.
  destruct (loadConnections_returns ∅ "goerli" false true)
    as (c & Hc & Hkey & Hurl & Hscan & Hlink);
    [discriminate|done|by left|].
  exists c. split_and!; [done|done| |done|done].
  apply Hurl; [done|done|left; discriminate].
Defined.

Example loadConnections_template :
  loadConnections {["PROVIDER_URL" := "https://network.infura.io/v3/key"]}
    "goerli" false false
  = Return {|
      providerUrl := Some "https://goerli.infura.io/v3/key";
      privateKey := None;
      etherscanUrl := "https://api-goerli.etherscan.io/api";
      explorerLinkPrefix := "https://goerli.etherscan.io"
    |}.
Proof. reflexivity. Qed.

(** ** Properties of objects *)

Lemma get_prop_set_prop k k' v props :
  get_prop k (set_prop k' v props)
  = if bool_decide (k' = k) then Some v else get_prop k props.
Proof.
  induction props as [|[k0 v0] props IH]; simpl.
  - done.
  - destruct (bool_decide (k0 = k')) eqn:H0; simpl.
    + apply bool_decide_eq_true in H0 as ->. by case_bool_decide.
    + rewrite IH. apply bool_decide_eq_false in H0.
      repeat case_bool_decide; congruence.
Qed.


Lemma set_prop_fresh k v props :
  k ∉ props.*1 → set_prop k v props = props ++ [(k, v)].
Proof.
  induction props as [|[k0 v0] props IH]; simpl; [done|].
  intros Hk. rewrite bool_decide_eq_false_2 by set_solver.
  rewrite IH by set_solver. done.
Qed.



(** ** [assignGasOptions] *)





Example assignGasOptions_eip1559 :
  assignGasOptions (λ value unit, Return (VStr (value +:+ unit)))
    [("to", VStr "0x01"); ("type", VNum 0)]
    (Return [("maxFeePerGas", VStr "0x59682f00")]) (Some (VStr "5")) (Some (VNum 2))
  = Return [("type", VNum 0); ("maxFeePerGas", VStr "5gwei");
            ("maxPriorityFeePerGas", VStr "2gwei"); ("to", VStr "0x01")].
Proof. reflexivity. Qed.

(** ** [loadAndCheckRequiredSources] *)


(** ** Computations over the file system *)

Lemma io_bind_Return {A B} (m : io A) (f : A → io B) fs a fs1 :
  m fs = (Return a, fs1) → (m ≫= f) fs = f a fs1.
Proof. unfold mbind, io_bind. by intros ->. Qed.

Lemma io_bind_Return_inv {A B} (m : io A) (f : A → io B) fs b fs2 :
  (m ≫= f) fs = (Return b, fs2) →
  ∃ a fs1, m fs = (Return a, fs1) ∧ f a fs1 = (Return b, fs2).
Proof.
  unfold mbind, io_bind. destruct (m fs) as [[a|e] fs1]; [eauto|done].
Qed.

Lemma readonly_reader {A} (f : gmap string string → outcome A) : readonly (reader f).
Proof. done. Qed.

Lemma readonly_mret {A} (a : A) : readonly (mret a : io A).
Proof. done. Qed.

Lemma readonly_bind {A B} (m : io A) (f : A → io B) :
  readonly m → (∀ a, readonly (f a)) → readonly (m ≫= f).
Proof.
  intros Hm Hf fs. unfold mbind, io_bind. specialize (Hm fs).
  destruct (m fs) as [[a|e] fs1]; simpl in *; subst; [apply Hf|done].
Qed.

Lemma readonly_read_json file : readonly (read_json file).
Proof. apply readonly_bind; [apply readonly_reader|]. intros. apply readonly_reader. Qed.

Lemma readonly_if {A} (b : bool) (m1 m2 : io A) :
  readonly m1 → readonly m2 → readonly (if b then m1 else m2).
Proof. by destruct b. Qed.

(** If what follows a read-only step fails without a trace, so does the
    whole. *)
Lemma io_bind_fails {A B} (m : io A) (f : A → io B) fs :
  readonly m →
  (∀ a, ∃ e, f a fs = (Throw e, fs)) →
  ∃ e, (m ≫= f) fs = (Throw e, fs).
Proof.
  intros Hm Hf. unfold mbind, io_bind. specialize (Hm fs).
  destruct (m fs) as [[a|e] fs1]; simpl in *; subst; eauto.
Qed.

Lemma io_bind_fails_now {A B} (m : io A) (f : A → io B) fs :
  readonly m → throws (fst (m fs)) → ∃ e, (m ≫= f) fs = (Throw e, fs).
Proof.
  intros Hm [e He]. unfold mbind, io_bind. specialize (Hm fs).
  destruct (m fs) as [[a|e'] fs1]; simpl in *; subst; [done|eauto].
Qed.

Lemma read_json_missing file fs :
  fs !! file = None → throws (fst (read_json file fs)).
Proof.
  intros Hfile. unfold read_json, readFileSync, reader, mbind, io_bind.
  rewrite Hfile. by eexists.
Qed.

Lemma read_json_present file fs text :
  fs !! file = Some text → read_json file fs = (JSON_parse text, fs).
Proof.
  intros Hfile. unfold read_json, readFileSync, reader, mbind, io_bind.
  rewrite Hfile. unfold lift, reader. by destruct (JSON_parse text).
Qed.

Lemma read_json_returns file fs a :
  fst (read_json file fs) = Return a → read_json file fs = (Return a, fs).
Proof.
  intros H. pose proof (readonly_read_json file fs) as Hfs.
  destruct (read_json file fs); simpl in *. by subst.
Qed.

(** ** [loadAndCheckRequiredSources] *)

Section LoaderProps.
Context (BigNumber_from : json → outcome Z) (path_join : string → string → string)
  (CONFIG_FILENAME PARAMS_FILENAME DEPLOYMENT_FILENAME
  OWNER_ACTIONS_FILENAME SYNTHS_FILENAME STAKING_REWARDS_FILENAME
  SHORTING_REWARDS_FILENAME VERSIONS_FILENAME FEEDS_FILENAME
  FUTURES_MARKETS_FILENAME : string)
  (getSynths getStakingRewards getShortingRewards getVersions getFeeds
  : string → string → gmap string string → outcome json).

Local Abbreviation load := (loadAndCheckRequiredSources BigNumber_from path_join
  CONFIG_FILENAME PARAMS_FILENAME DEPLOYMENT_FILENAME
  OWNER_ACTIONS_FILENAME SYNTHS_FILENAME STAKING_REWARDS_FILENAME
  SHORTING_REWARDS_FILENAME VERSIONS_FILENAME FEEDS_FILENAME
  FUTURES_MARKETS_FILENAME getSynths getStakingRewards getShortingRewards
  getVersions getFeeds).

Ltac both_step H :=
  let Hstep := fresh "Hstep" in
  apply io_bind_Return_inv in H as (? & ? & Hstep & H);
  rewrite (io_bind_Return _ _ _ _ _ Hstep).

(** C4, as the code has it: whenever the call without [freshDeploy]
    returns and the deployment record it loaded is an object, the call
    with [freshDeploy] returns too and leaves the same file system; its
    deployment record has empty [targets] and [sources] and its other
    properties unchanged, and every other field of the result is the
    same. *)
Theorem freshDeploy_frame (deploymentPath network : string)
    (fs fs' : gmap string string) (s : sources) (props : list (string * json)) :
  load deploymentPath network false fs = (Return s, fs') →
  deployment s = VObj props →
  load deploymentPath network true fs
    = (Return (with_deployment s (cleared props)), fs')
  ∧ get (cleared props) "targets" = Some (VObj [])
  ∧ get (cleared props) "sources" = Some (VObj [])
  ∧ ∀ k, k ≠ "targets" → k ≠ "sources" → get (cleared props) k = get_prop k props.
Proof.
  intros H Hd. split.
  - unfold loadAndCheckRequiredSources in *.
    do 11 both_step H.
    apply io_bind_Return_inv in H as (d & fs1 & Hd' & H).
    unfold mret, io_ret in Hd'. simplify_eq.
    assert (d = VObj props) as ->.
    { do 3 apply io_bind_Return_inv in H as (? & ? & _ & H).
      unfold mret, io_ret in H. by simplify_eq. }
    erewrite (io_bind_Return (lift _)) by reflexivity.
    do 3 both_step H. unfold mret, io_ret in *. by simplify_eq.
  - unfold cleared. simpl. rewrite !get_prop_set_prop. split_and!; [done..|].
    intros k ??. rewrite !get_prop_set_prop. by rewrite !bool_decide_eq_false_2.
Qed.

Lemma default_record_text :
  stringify BigNumber_from (VObj [("targets", VObj []); ("sources", VObj [])])
  = Return empty_deployment_text.
Proof. reflexivity. Qed.

Lemma default_ledger_text :
  stringify BigNumber_from (VObj []) = Return empty_ownerActions_text.
Proof. reflexivity. Qed.

Lemma default_record_parses :
  JSON_parse empty_deployment_text
  = Return (VObj [("targets", VObj []); ("sources", VObj [])]).
Proof. reflexivity. Qed.

(** Creating a file that is missing, then reading it as JSON. *)
Lemma create_then_read (file : string) (value : json) (text : string)
    {B} (f : json → io B) fs :
  stringify BigNumber_from value = Return text →
  (present ← existsSync file;
   (if negb present then
      text ← lift (stringify BigNumber_from value);
      writeFileSync file text
    else mret ());;
   v ← read_json file; f v) fs
  = match fs !! file with
    | Some old =>
        match JSON_parse old with
        | Return v => f v fs
        | Throw e => (Throw e, fs)
        end
    | None =>
        match JSON_parse text with
        | Return v => f v (<[file := text]> fs)
        | Throw e => (Throw e, <[file := text]> fs)
        end
    end.
Proof.
  intros Htext.
  rewrite (io_bind_Return _ _ fs (bool_decide (is_Some (fs !! file))) fs) by done.
  destruct (fs !! file) as [old|] eqn:Hfile.
  - rewrite bool_decide_eq_true_2 by done. simpl.
    rewrite (io_bind_Return _ _ fs () fs) by done.
    unfold mbind at 1, io_bind. rewrite (read_json_present _ _ old) by done.
    by destruct (JSON_parse old).
  - rewrite bool_decide_eq_false_2 by (by intros [??]). simpl.
    rewrite (io_bind_Return _ _ fs () (<[file := text]> fs)).
    2:{ unfold mbind, io_bind, lift, reader. by rewrite Htext. }
    unfold mbind at 1, io_bind.
    rewrite (read_json_present _ _ text) by apply lookup_insert_eq.
    by destruct (JSON_parse text).
Qed.

Lemma load_inputs_fail (deploymentPath network : string) (freshDeploy : bool)
    (fs : gmap string string) :
  throws (getSynths network deploymentPath fs)
  ∨ throws (getStakingRewards network deploymentPath fs)
  ∨ throws (getShortingRewards network deploymentPath fs)
  ∨ fs !! path_join deploymentPath CONFIG_FILENAME = None
  ∨ fs !! path_join deploymentPath PARAMS_FILENAME = None
  ∨ fs !! path_join deploymentPath FUTURES_MARKETS_FILENAME = None
  ∨ (network ≠ "local" ∧ throws (getVersions network deploymentPath fs))
  ∨ throws (getFeeds network deploymentPath fs) →
  ∃ e, load deploymentPath network freshDeploy fs = (Throw e, fs).
Proof.
  intros H. unfold loadAndCheckRequiredSources.
  destruct H as [H|H]; [by apply io_bind_fails_now; [apply readonly_reader|]|].
  apply io_bind_fails; [apply readonly_reader|intros ?].
  destruct H as [H|H]; [by apply io_bind_fails_now; [apply readonly_reader|]|].
  apply io_bind_fails; [apply readonly_reader|intros ?].
  destruct H as [H|H]; [by apply io_bind_fails_now; [apply readonly_reader|]|].
  apply io_bind_fails; [apply readonly_reader|intros ?].
  destruct H as [H|H];
    [by apply io_bind_fails_now; [apply readonly_read_json|apply read_json_missing]|].
  apply io_bind_fails; [apply readonly_read_json|intros ?].
  destruct H as [H|H];
    [by apply io_bind_fails_now; [apply readonly_read_json|apply read_json_missing]|].
  apply io_bind_fails; [apply readonly_read_json|intros ?].
  destruct H as [H|H];
    [by apply io_bind_fails_now; [apply readonly_read_json|apply read_json_missing]|].
  apply io_bind_fails; [apply readonly_read_json|intros ?].
  assert (readonly (if negb (bool_decide (network = "local"))
                    then reader (getVersions network deploymentPath)
                    else mret (VObj []))) as Hversions.
  { apply readonly_if; [apply readonly_reader|apply readonly_mret]. }
  destruct H as [[Hnet H]|H].
  { apply io_bind_fails_now; [done|].
    by rewrite bool_decide_eq_false_2. }
  apply io_bind_fails; [done|intros ?].
  by apply io_bind_fails_now; [apply readonly_reader|].
Qed.

Lemma create_if_missing_lookup file content fs :
  fs !! file = None → create_if_missing file content fs !! file = Some content.
Proof. intros H. unfold create_if_missing. rewrite H. apply lookup_insert_eq. Qed.

Lemma create_if_missing_other file content fs file' :
  file ≠ file' → create_if_missing file content fs !! file' = fs !! file'.
Proof.
  intros H. unfold create_if_missing. destruct (fs !! file); [done|].
  by apply lookup_insert_ne.
Qed.

Lemma clear_step (freshDeploy : bool) (d : json) fs :
  (freshDeploy = true → ∃ props, d = VObj props) →
  ∃ d', (if freshDeploy
         then lift (d1 ← assign d "targets" (VObj []); assign d1 "sources" (VObj []))
         else mret d) fs = (Return d', fs)
    ∧ (d = VObj [("targets", VObj []); ("sources", VObj [])] → d' = d).
Proof.
  intros Hobj. destruct freshDeploy.
  - destruct Hobj as [props ->]; [done|]. eexists. split; [done|].
    by intros [= ->].
  - by exists d.
Qed.

Lemma load_tail (ledger_file : string) (freshDeploy : bool) (d : json)
    (K : json → json → sources) fs :
  (freshDeploy = true → ∃ props, d = VObj props) →
  match fs !! ledger_file with
  | None => True
  | Some text => returns (JSON_parse text)
  end →
  ∃ d' actions,
    (deployment ←
       (if freshDeploy
        then lift (d1 ← assign d "targets" (VObj []); assign d1 "sources" (VObj []))
        else mret d);
     present ← existsSync ledger_file;
     (if negb present then
        text ← lift (stringify BigNumber_from (VObj []));
        writeFileSync ledger_file text
      else mret ());;
     ownerActions ← read_json ledger_file;
     mret (K deployment ownerActions)) fs
    = (Return (K d' actions),
       create_if_missing ledger_file empty_ownerActions_text fs)
    ∧ (d = VObj [("targets", VObj []); ("sources", VObj [])] → d' = d)
    ∧ (fs !! ledger_file = None → actions = VObj []).
Proof.
  intros Hobj Hledger.
  destruct (clear_step freshDeploy d fs Hobj) as (d' & Hclear & Hd').
  exists d'. rewrite (io_bind_Return _ _ _ _ _ Hclear).
  rewrite (create_then_read _ _ _ _ _ default_ledger_text).
  unfold create_if_missing. destruct (fs !! ledger_file) as [old|].
  - destruct Hledger as [actions ->]. by exists actions.
  - by exists (VObj []).
Qed.

Lemma create_if_missing_present file content fs file' :
  is_Some (fs !! file') → create_if_missing file content fs !! file' = fs !! file'.
Proof.
  intros Hfile. unfold create_if_missing. destruct (fs !! file) eqn:H; [done|].
  apply lookup_insert_ne. intros ->. rewrite H in Hfile. by destruct Hfile.
Qed.

Lemma load_defaults (deploymentPath network : string) (freshDeploy : bool)
    (fs : gmap string string) :
  path_join deploymentPath DEPLOYMENT_FILENAME
    ≠ path_join deploymentPath OWNER_ACTIONS_FILENAME →
  inputs_load path_join CONFIG_FILENAME PARAMS_FILENAME FUTURES_MARKETS_FILENAME
    getSynths getStakingRewards getShortingRewards getVersions getFeeds
    deploymentPath network fs →
  record_loads path_join DEPLOYMENT_FILENAME deploymentPath freshDeploy fs →
  ledger_loads path_join OWNER_ACTIONS_FILENAME deploymentPath fs →
  ∃ s, load deploymentPath network freshDeploy fs
       = (Return s,
          create_if_missing (path_join deploymentPath OWNER_ACTIONS_FILENAME)
            empty_ownerActions_text
            (create_if_missing (path_join deploymentPath DEPLOYMENT_FILENAME)
               empty_deployment_text fs))
    ∧ (fs !! path_join deploymentPath DEPLOYMENT_FILENAME = None →
       deployment s = VObj [("targets", VObj []); ("sources", VObj [])])
    ∧ (fs !! path_join deploymentPath OWNER_ACTIONS_FILENAME = None →
       ownerActions s = VObj []).
Proof.
  intros Hne ([synths Hsynths] & [staking Hstaking] & [shorting Hshorting]
              & [config Hconfig] & [params Hparams] & [futures Hfutures]
              & Hversions & [feeds Hfeeds]) Hrecord Hledger.
  assert (∃ versions,
    (if negb (bool_decide (network = "local"))
     then reader (getVersions network deploymentPath)
     else mret (VObj [])) fs = (Return versions, fs)) as [versions Hv].
  { case_bool_decide; simpl; [by eexists|].
    destruct (Hversions ltac:(done)) as [v Hv]. exists v.
    unfold reader. by rewrite Hv. }
  unfold loadAndCheckRequiredSources.
  rewrite (io_bind_Return _ _ fs synths fs) by (unfold reader; by rewrite Hsynths).
  rewrite (io_bind_Return _ _ fs staking fs) by (unfold reader; by rewrite Hstaking).
  rewrite (io_bind_Return _ _ fs shorting fs) by (unfold reader; by rewrite Hshorting).
  rewrite (io_bind_Return _ _ fs config fs) by by apply read_json_returns.
  rewrite (io_bind_Return _ _ fs params fs) by by apply read_json_returns.
  rewrite (io_bind_Return _ _ fs futures fs) by by apply read_json_returns.
  rewrite (io_bind_Return _ _ fs versions fs) by done.
  rewrite (io_bind_Return _ _ fs feeds fs) by (unfold reader; by rewrite Hfeeds).
  rewrite (create_then_read _ _ _ _ _ default_record_text).
  unfold record_loads, ledger_loads in *.
  set (record_file := path_join deploymentPath DEPLOYMENT_FILENAME) in *.
  set (ledger_file := path_join deploymentPath OWNER_ACTIONS_FILENAME) in *.
  destruct (fs !! record_file) as [old|] eqn:Hrec.
  - destruct Hrecord as (d & -> & Hobj).
    edestruct (load_tail ledger_file freshDeploy d) as (d' & actions & -> & Hd' & Ha);
      [done|done|].
    unfold create_if_missing. rewrite Hrec. eexists. split_and!; [done|done|].
    simpl. done.
  - rewrite default_record_parses.
    edestruct (load_tail ledger_file freshDeploy
                 (VObj [("targets", VObj []); ("sources", VObj [])]))
      as (d' & actions & -> & Hd' & Ha).
    { by eexists. }
    { rewrite lookup_insert_ne by done. exact Hledger. }
    unfold create_if_missing. rewrite Hrec. eexists. split_and!; [done|..].
    + intros _. simpl. by apply Hd'.
    + intros Hl. simpl. apply Ha. by rewrite lookup_insert_ne.
Qed.

(** C3, as the code has it: when every input loads (the loaders of the
    package return, and the config, params and futures-markets files hold
    JSON text), a deployment record or ledger that is on disk holds JSON
    text (an object, for a record that [freshDeploy] clears), and the two
    have different paths, the call returns; a missing deployment record is
    loaded as [{targets: {}, sources: {}}] and a missing ledger as [{}];
    each missing file is created with the text of that default, and
    nothing else on disk changes. Of the files that the function reads
    itself, no other is treated so: if the config, params or
    futures-markets file is missing, or a loader of the package throws,
    the call throws and creates nothing. Whether a missing file of a
    loader is an error is for the loader to say. *)
Theorem loadAndCheckRequiredSources_defaults
    (deploymentPath network : string) (freshDeploy : bool)
    (fs : gmap string string) :
  (path_join deploymentPath DEPLOYMENT_FILENAME
     ≠ path_join deploymentPath OWNER_ACTIONS_FILENAME →
   inputs_load path_join CONFIG_FILENAME PARAMS_FILENAME FUTURES_MARKETS_FILENAME
     getSynths getStakingRewards getShortingRewards getVersions getFeeds
     deploymentPath network fs →
   record_loads path_join DEPLOYMENT_FILENAME deploymentPath freshDeploy fs →
   ledger_loads path_join OWNER_ACTIONS_FILENAME deploymentPath fs →
   ∃ s fs',
     load deploymentPath network freshDeploy fs = (Return s, fs')
     ∧ (fs !! path_join deploymentPath DEPLOYMENT_FILENAME = None →
        deployment s = VObj [("targets", VObj []); ("sources", VObj [])]
        ∧ fs' !! path_join deploymentPath DEPLOYMENT_FILENAME
          = Some empty_deployment_text)
     ∧ (fs !! path_join deploymentPath OWNER_ACTIONS_FILENAME = None →
        ownerActions s = VObj []
        ∧ fs' !! path_join deploymentPath OWNER_ACTIONS_FILENAME
          = Some empty_ownerActions_text)
     ∧ (∀ file, is_Some (fs !! file) → fs' !! file = fs !! file)
     ∧ (∀ file, file ≠ path_join deploymentPath DEPLOYMENT_FILENAME →
                file ≠ path_join deploymentPath OWNER_ACTIONS_FILENAME →
                fs' !! file = fs !! file))
  ∧ stringify BigNumber_from (VObj [("targets", VObj []); ("sources", VObj [])])
    = Return empty_deployment_text
  ∧ JSON_parse empty_deployment_text
    = Return (VObj [("targets", VObj []); ("sources", VObj [])])
  ∧ stringify BigNumber_from (VObj []) = Return empty_ownerActions_text
  ∧ JSON_parse empty_ownerActions_text = Return (VObj [])
  ∧ (throws (getSynths network deploymentPath fs)
     ∨ throws (getStakingRewards network deploymentPath fs)
     ∨ throws (getShortingRewards network deploymentPath fs)
     ∨ fs !! path_join deploymentPath CONFIG_FILENAME = None
     ∨ fs !! path_join deploymentPath PARAMS_FILENAME = None
     ∨ fs !! path_join deploymentPath FUTURES_MARKETS_FILENAME = None
     ∨ (network ≠ "local" ∧ throws (getVersions network deploymentPath fs))
     ∨ throws (getFeeds network deploymentPath fs) →
     ∃ e, load deploymentPath network freshDeploy fs = (Throw e, fs)).
Proof.
  split_and!; [|reflexivity..|apply load_inputs_fail].
  intros Hne Hinputs Hrecord Hledger.
  destruct (load_defaults _ _ _ _ Hne Hinputs Hrecord Hledger)
    as (s & Hload & Hd & Ha).
  eexists s, _. split; [exact Hload|]. split_and!.
  - intros Hrec. split; [auto|].
    rewrite create_if_missing_other by done.
    by apply create_if_missing_lookup.
  - intros Hled. split; [auto|].
    apply create_if_missing_lookup.
    by rewrite create_if_missing_other.
  - intros file Hfile.
    rewrite !create_if_missing_present; [done..|].
    by rewrite create_if_missing_present.
  - intros file ??. by rewrite !create_if_missing_other.
Qed.
End LoaderProps.

Lemma loadAndCheckRequiredSources_defaults_witness :
  ∃ s fs',
    Sample.loadAndCheckRequiredSources "d" "goerli" false Sample.inputs = (Return s, fs')
    ∧ deployment s = VObj [("targets", VObj []); ("sources", VObj [])]
    ∧ fs' !! "d/deployment.json" = Some empty_deployment_text
    ∧ ownerActions s = VObj []
    ∧ fs' !! "d/owner-actions.json" = Some empty_ownerActions_text.
Proof.
  destruct (loadAndCheckRequiredSources_defaults Sample.BigNumber_from Sample.path_join
      "config.json" "params.json" "deployment.json" "owner-actions.json"
      "synths.json" "rewards.json" "shorting-rewards.json" "versions.json"
      "feeds.json" "futures-markets.json"
      (Sample.load_file "synths.json") (Sample.load_file "rewards.json")
      (Sample.load_file "shorting-rewards.json") (Sample.load_file "versions.json")
      (Sample.load_file "feeds.json") "d" "goerli" false Sample.inputs)
    as [Hload _].
  destruct Hload as (s & fs' & Hload & Hrecord & Hledger & _).
  - discriminate.
  - unfold inputs_load. split_and!; try intros _; eexists; vm_compute; reflexivity.
  - vm_compute. exact I.
  - vm_compute. exact I.
  - exists s, fs'. split; [exact Hload|].
    destruct Hrecord as [? ?]; [reflexivity|].
    destruct Hledger as [? ?]; [reflexivity|]. done.
Defined.

(** C3, as stated, fails. In a directory with every input file present,
    no ledger, and a deployment record that holds [null], the call with
    [freshDeploy] throws a [TypeError] and creates no ledger. In a
    directory with every input file present, no deployment record, and a
    ledger that is empty, the call throws a [SyntaxError]. *)
Lemma loadAndCheckRequiredSources_throws_with_inputs_present :
  (∀ file,
     file ∈ ["d/config.json"; "d/params.json"; "d/synths.json"; "d/rewards.json";
             "d/shorting-rewards.json"; "d/versions.json"; "d/feeds.json";
             "d/futures-markets.json"] →
     is_Some (Sample.inputs !! file))
  ∧ (<["d/deployment.json" := "null"]> Sample.inputs) !! "d/owner-actions.json" = None
  ∧ (∃ msg, fst (Sample.loadAndCheckRequiredSources "d" "goerli" true
                   (<["d/deployment.json" := "null"]> Sample.inputs))
            = Throw (Exn TypeError msg))
  ∧ snd (Sample.loadAndCheckRequiredSources "d" "goerli" true
           (<["d/deployment.json" := "null"]> Sample.inputs))
      !! "d/owner-actions.json" = None
  ∧ (<["d/owner-actions.json" := EmptyString]> Sample.inputs) !! "d/deployment.json"
    = None
  ∧ (∃ msg, fst (Sample.loadAndCheckRequiredSources "d" "goerli" false
                   (<["d/owner-actions.json" := EmptyString]> Sample.inputs))
            = Throw (Exn SyntaxError msg)).
Proof.
  split_and!.
  - intros file Hfile.
    repeat (apply elem_of_cons in Hfile as [->|Hfile];
            [eexists; vm_compute; reflexivity|]).
    by apply elem_of_nil in Hfile.
  - vm_compute. reflexivity.
  - eexists. vm_compute. reflexivity.
  - vm_compute. reflexivity.
  - vm_compute. reflexivity.
  - eexists. vm_compute. reflexivity.
Qed.

(** C4, as stated, fails: on a deployment record that holds [null], the
    call without [freshDeploy] returns, and the call with [freshDeploy]
    throws a [TypeError] instead of returning an empty record. *)
Lemma freshDeploy_throws_on_null_record :
  returns (fst (Sample.loadAndCheckRequiredSources "d" "goerli" false
                  (<["d/deployment.json" := "null"]> Sample.inputs)))
  ∧ ∃ msg, fst (Sample.loadAndCheckRequiredSources "d" "goerli" true
                  (<["d/deployment.json" := "null"]> Sample.inputs))
           = Throw (Exn TypeError msg).
Proof. split; eexists; vm_compute; reflexivity. Qed.

Lemma freshDeploy_frame_witness :
  Sample.loadAndCheckRequiredSources "d" "goerli" false Sample.deployed
    = (Return Sample.loaded,
       <["d/owner-actions.json" := empty_ownerActions_text]> Sample.deployed)
  ∧ Sample.loadAndCheckRequiredSources "d" "goerli" true Sample.deployed
    = (Return (with_deployment Sample.loaded
         (VObj [("targets", VObj []); ("sources", VObj []); ("note", VBool true)])),
       <["d/owner-actions.json" := empty_ownerActions_text]> Sample.deployed).
Proof.
  assert (Sample.loadAndCheckRequiredSources "d" "goerli" false Sample.deployed
    = (Return Sample.loaded,
       <["d/owner-actions.json" := empty_ownerActions_text]> Sample.deployed)) as H.
  { vm_compute. reflexivity. }
  split; [exact H|].
  exact (proj1 (freshDeploy_frame Sample.BigNumber_from Sample.path_join
      "config.json" "params.json" "deployment.json" "owner-actions.json"
      "synths.json" "rewards.json" "shorting-rewards.json" "versions.json"
      "feeds.json" "futures-markets.json"
      (Sample.load_file "synths.json") (Sample.load_file "rewards.json")
      (Sample.load_file "shorting-rewards.json") (Sample.load_file "versions.json")
      (Sample.load_file "feeds.json") "d" "goerli" _ _ _ _ H eq_refl)).
Defined.
(** ** Reading back what [stringify] wrote *)

(** *** White space *)

Lemma skip_ws_tabs ind s : tabs ind = true → skip_ws (ind +:+ s) = skip_ws s.
Proof.
  induction ind as [|c ind IH]; [done|]. simpl.
  intros [->%bool_decide_eq_true Hind]%andb_true_iff.
  rewrite ?str_app_cons. simpl. auto.
Qed.

Lemma skip_ws_nl s : skip_ws (nl +:+ s) = skip_ws s.
Proof. reflexivity. Qed.

Lemma skip_ws_id c s : is_ws c = false → skip_ws (String c s) = String c s.
Proof. simpl. by intros ->. Qed.

Lemma tabs_app ind : tabs ind = true → tabs (ind +:+ tab) = true.
Proof.
  induction ind as [|c ind IH]; [done|]. simpl.
  intros [-> Hind]%andb_true_iff. rewrite ?str_app_cons. simpl. auto.
Qed.

(** *** Strings *)

Lemma parse_escape_char c t :
  parse_string_body (escape_char c +:+ t) = consing c (parse_string_body t).
Proof. destruct c as [[] [] [] [] [] [] [] []]; reflexivity. Qed.

Lemma parse_escape s rest :
  parse_string_body (escape s +:+ dquote +:+ rest) = Return (s, rest).
Proof.
  induction s as [|c s IH]; [done|]. simpl.
  by rewrite str_app_assoc, parse_escape_char, IH.
Qed.

Lemma parse_quoted s rest :
  ∃ t, QuoteJSONString s +:+ rest = String "034" t
     ∧ parse_string_body t = Return (s, rest).
Proof.
  exists (escape s +:+ dquote +:+ rest). split; [|apply parse_escape].
  unfold QuoteJSONString. by rewrite !str_app_assoc.
Qed.

(** *** Numbers *)

Lemma canonical_unorm u : unorm u = u → canonical u.
Proof.
  intros Hu. split.
  - intros ->. by apply (DecimalFacts.unorm_nonnil Nil).
  - intros u' ->. rewrite DecimalFacts.unorm_D0 in Hu.
    unfold unorm in Hu. destruct (nzhead u') eqn:Hnz; try by simplify_eq.
    by apply DecimalFacts.nzhead_nonzero in Hnz.
Qed.

Lemma canonical_nzhead u : nzhead u = u → u ≠ Nil → canonical u.
Proof.
  intros Hu Hnil. split; [done|]. intros u' ->.
  by apply DecimalFacts.nzhead_nonzero in Hu.
Qed.

Lemma to_int_canonical n :
  match Z.to_int n with
  | Pos u => canonical u ∧ Z.of_uint u = n
  | Neg u => canonical u ∧ - Z.of_uint u = n
  end.
Proof.
  pose proof (DecimalZ.of_to n) as Hof.
  pose proof (DecimalZ.to_of (Z.to_int n)) as Hto. rewrite Hof in Hto.
  destruct (Z.to_int n) as [u|u]; simpl in *.
  - split; [|done]. apply canonical_unorm. congruence.
  - split; [|done].
    destruct (nzhead u) eqn:Hnz; try done;
      try (by apply DecimalFacts.nzhead_nonzero in Hnz);
      simplify_eq; by apply canonical_nzhead.
Qed.

Lemma lex_digits_uint u rest :
  match rest with String c _ => digit_value c = None | EmptyString => True end →
  lex_digits (NilEmpty.string_of_uint u +:+ rest) = (u, rest).
Proof.
  intros Hrest. induction u as [|u IH|u IH|u IH|u IH|u IH|u IH|u IH|u IH|u IH|u IH];
    simpl; rewrite ?str_app_cons; simpl; rewrite ?IH; try done.
  rewrite str_app_nil_l. destruct rest as [|c r]; [done|]. simpl. by rewrite Hrest.
Qed.

Lemma delimited_not_digit rest :
  delimited rest →
  match rest with String c _ => digit_value c = None | EmptyString => True end.
Proof. intros (c & r & -> & [->| ->]); done. Qed.

Lemma number_value_delimited negative u rest :
  delimited rest →
  number_value negative u rest
  = if safe_integer (if negative then - Z.of_uint u else Z.of_uint u)
    then Return (if negative then - Z.of_uint u else Z.of_uint u, rest)
    else unsupported "number beyond the safe integers".
Proof. by intros (c & r & -> & [->| ->]). Qed.

Lemma canonical_leading_zero u : canonical u → leading_zero u = false.
Proof.
  intros [_ Hzero]. destruct u as [|u| | | | | | | | |]; try done.
  by rewrite (Hzero u eq_refl).
Qed.

Lemma lex_sign_uint u t :
  u ≠ Nil →
  lex_sign (NilEmpty.string_of_uint u +:+ t)
  = (false, NilEmpty.string_of_uint u +:+ t).
Proof. by destruct u. Qed.

Lemma parse_number_toString n rest :
  safe_integer n = true → delimited rest →
  parse_number (Number_toString n +:+ rest) = Return (n, rest).
Proof.
  intros Hsafe Hrest. unfold Number_toString, parse_number.
  pose proof (to_int_canonical n) as Hn.
  pose proof (delimited_not_digit _ Hrest) as Hdigit.
  destruct (Z.to_int n) as [u|u]; destruct Hn as [Hu Hn]; simpl;
    assert (NilZero.string_of_uint u = NilEmpty.string_of_uint u) as ->
      by (destruct Hu as [Hnil _]; by destruct u).
  - rewrite lex_sign_uint by apply Hu. rewrite lex_digits_uint by done.
    rewrite canonical_leading_zero, number_value_delimited by done.
    rewrite Hn, Hsafe. destruct Hu as [Hnil _]. by destruct u.
  - rewrite ?str_app_cons. simpl. rewrite lex_digits_uint by done.
    rewrite canonical_leading_zero, number_value_delimited by done.
    rewrite Hn, Hsafe. destruct Hu as [Hnil _]. by destruct u.
Qed.

(** *** Values *)

Lemma join_items sep_indent parts closing :
  parts ≠ [] →
  nl +:+ sep_indent +:+ join ("," +:+ nl +:+ sep_indent) parts +:+ closing
  = items sep_indent parts closing.
Proof.
  unfold join. induction parts as [|p ps IH]; [done|]. intros _.
  destruct ps as [|q ps]; [done|].
  change (items sep_indent (p :: q :: ps) closing)
    with (nl +:+ sep_indent +:+ p +:+ "," +:+ items sep_indent (q :: ps) closing).
  rewrite <- IH by done.
  change (String.concat ("," +:+ nl +:+ sep_indent) (p :: q :: ps))
    with (p +:+ ("," +:+ nl +:+ sep_indent)
          +:+ String.concat ("," +:+ nl +:+ sep_indent) (q :: ps)).
  by rewrite !str_app_assoc.
Qed.

Lemma wrap_parts_items open close stepback indent parts rest :
  parts ≠ [] →
  wrap_parts open close stepback indent parts +:+ rest
  = open +:+ items indent parts (nl +:+ stepback +:+ close +:+ rest).
Proof.
  intros Hparts. rewrite <- join_items by done. unfold wrap_parts.
  destruct parts; [done|]. by rewrite !str_app_assoc.
Qed.

Lemma parse_value_skip fuel s s' :
  skip_ws s = skip_ws s' → parse_value fuel s = parse_value fuel s'.
Proof. intros H. destruct fuel; [done|]. simpl. by rewrite H. Qed.

Lemma parse_value_number fuel c t :
  c ∈ ["-"; "0"; "1"; "2"; "3"; "4"; "5"; "6"; "7"; "8"; "9"]%char →
  parse_value (S fuel) (String c t)
  = p ← parse_number (String c t); Return (VNum (fst p), snd p).
Proof. intros H. repeat (apply elem_of_cons in H as [->|H]; [done|]). by apply elem_of_nil in H. Qed.

Lemma parse_value_array fuel r c t :
  skip_ws r = String c t → value_start c = true →
  parse_value (S fuel) (String "[" r) = parse_elements fuel r [].
Proof.
  intros Hr Hc. simpl. rewrite Hr. apply bool_decide_eq_true in Hc.
  repeat (apply elem_of_cons in Hc as [->|Hc]; [done|]). by apply elem_of_nil in Hc.
Qed.

Lemma parse_value_object fuel r c t :
  skip_ws r = String c t → value_start c = true →
  parse_value (S fuel) (String "{" r) = parse_members fuel r [].
Proof.
  intros Hr Hc. simpl. rewrite Hr. apply bool_decide_eq_true in Hc.
  repeat (apply elem_of_cons in Hc as [->|Hc]; [done|]). by apply elem_of_nil in Hc.
Qed.

Lemma value_start_not_ws c : value_start c = true → is_ws c = false.
Proof.
  intros Hc. apply bool_decide_eq_true in Hc.
  repeat (apply elem_of_cons in Hc as [->|Hc]; [done|]). by apply elem_of_nil in Hc.
Qed.

Lemma Number_toString_start n :
  ∃ c t, Number_toString n = String c t
    ∧ c ∈ ["-"; "0"; "1"; "2"; "3"; "4"; "5"; "6"; "7"; "8"; "9"]%char.
Proof.
  unfold Number_toString. pose proof (to_int_canonical n) as Hn.
  destruct (Z.to_int n) as [u|u]; destruct Hn as [[Hnil _] _]; simpl.
  - destruct u; try done; eexists _, _; (split; [reflexivity|set_solver]).
  - eexists _, _. split; [reflexivity|set_solver].
Qed.

Lemma serialize_start indent value :
  ∃ c t, serialize indent value = String c t ∧ value_start c = true.
Proof.
  destruct value as [|[]|n|s|elems|props]; simpl; try by eexists _, _.
  - destruct (Number_toString_start n) as (c & t & -> & Hc).
    exists c, t. split; [done|]. apply bool_decide_eq_true. set_solver.
  - unfold wrap_parts. destruct (map _ elems); by eexists _, _.
  - unfold wrap_parts. destruct (map _ props); by eexists _, _.
Qed.

Lemma outcome_bind_Return {A B} (a : A) (f : A → outcome B) :
  (Return a ≫= f) = f a.
Proof. reflexivity. Qed.

Lemma delimited_comma s : delimited ("," +:+ s).
Proof. exists ","%char, s. auto. Qed.

Lemma delimited_nl s : delimited (nl +:+ s).
Proof. exists "010"%char, s. auto. Qed.

Lemma parse_elements_unfold fuel s acc :
  parse_elements (S fuel) s acc
  = p ← parse_value fuel s;
    match skip_ws (snd p) with
    | String "," r => parse_elements fuel r (acc ++ [fst p])
    | String "]" r => Return (VArr (acc ++ [fst p]), r)
    | _ => syntax_error
    end.
Proof. reflexivity. Qed.

Lemma parse_members_unfold fuel s acc :
  parse_members (S fuel) s acc
  = match skip_ws s with
    | String "034" r =>
        k ← parse_string_body r;
        match skip_ws (snd k) with
        | String ":" r =>
            p ← parse_value fuel r;
            match skip_ws (snd p) with
            | String "," r => parse_members fuel r (set_prop (fst k) (fst p) acc)
            | String "}" r => Return (VObj (set_prop (fst k) (fst p) acc), r)
            | _ => syntax_error
            end
        | _ => syntax_error
        end
    | _ => syntax_error
    end.
Proof. reflexivity. Qed.

Lemma skip_ws_line indent s :
  tabs indent = true → skip_ws (nl +:+ indent +:+ s) = skip_ws s.
Proof. intros. by rewrite skip_ws_nl, skip_ws_tabs. Qed.

Lemma skip_ws_serialize indent value rest :
  skip_ws (serialize indent value +:+ rest) = serialize indent value +:+ rest.
Proof.
  destruct (serialize_start indent value) as (c & t & -> & Hc).
  rewrite str_app_cons. by apply skip_ws_id, value_start_not_ws.
Qed.

Lemma parse_elements_items indent stepback elems :
  tabs indent = true → tabs stepback = true →
  Forall reads_back elems → forallb json_ok elems = true → elems ≠ [] →
  ∀ acc fuel rest,
    (list_sum (map (λ x, S (size x)) elems) ≤ fuel)%nat →
    parse_elements fuel
      (items indent (map (serialize indent) elems) (nl +:+ stepback +:+ "]" +:+ rest))
      acc
    = Return (VArr (acc ++ elems), rest).
Proof.
  intros Hind Hstep Hall Hok. induction elems as [|x l IH]; [done|]. intros _.
  apply Forall_cons in Hall as [Hx Hall].
  apply andb_true_iff in Hok as [Hxok Hok].
  intros acc [|fuel] rest Hfuel; [simpl in Hfuel; lia|].
  rewrite parse_elements_unfold. simpl in Hfuel.
  destruct l as [|y l].
  - simpl map. unfold items.
    rewrite (parse_value_skip _ _ (serialize indent x +:+ nl +:+ stepback +:+ "]" +:+ rest)).
    2:{ by rewrite skip_ws_line, skip_ws_serialize. }
    rewrite Hx; [|done|done|apply delimited_nl|lia].
    rewrite outcome_bind_Return. cbn [fst snd].
    by rewrite skip_ws_line.
  - change (items indent (map (serialize indent) (x :: y :: l))
              (nl +:+ stepback +:+ "]" +:+ rest))
      with (nl +:+ indent +:+ serialize indent x +:+ ","
            +:+ items indent (map (serialize indent) (y :: l))
                  (nl +:+ stepback +:+ "]" +:+ rest)).
    rewrite (parse_value_skip _ _ (serialize indent x +:+ ","
            +:+ items indent (map (serialize indent) (y :: l))
                  (nl +:+ stepback +:+ "]" +:+ rest))).
    2:{ by rewrite skip_ws_line, skip_ws_serialize. }
    rewrite Hx; [|done|done|apply delimited_comma|lia].
    rewrite outcome_bind_Return. cbn [fst snd].
    rewrite str_app_cons, str_app_nil_l, skip_ws_id by done.
    rewrite IH; [|done|done|done|lia].
    by rewrite <- app_assoc.
Qed.

Lemma parse_members_step fuel s acc k t r v rest :
  skip_ws s = String "034" t →
  parse_string_body t = Return (k, String ":" r) →
  parse_value fuel r = Return (v, rest) →
  parse_members (S fuel) s acc
  = match skip_ws rest with
    | String "," r => parse_members fuel r (set_prop k v acc)
    | String "}" r => Return (VObj (set_prop k v acc), r)
    | _ => syntax_error
    end.
Proof.
  intros Hs Hk Hv. rewrite parse_members_unfold, Hs. cbv iota beta.
  rewrite Hk, outcome_bind_Return. cbn [fst snd].
  rewrite skip_ws_id by done. cbv iota beta.
  by rewrite Hv, outcome_bind_Return.
Qed.

Lemma parse_member indent fuel acc k v rest :
  tabs indent = true → reads_back v → json_ok v = true →
  delimited rest → (size v ≤ fuel)%nat →
  parse_members (S fuel) (nl +:+ indent +:+ member_text indent (k, v) +:+ rest) acc
  = match skip_ws rest with
    | String "," r => parse_members fuel r (set_prop k v acc)
    | String "}" r => Return (VObj (set_prop k v acc), r)
    | _ => syntax_error
    end.
Proof.
  intros Hind Hv Hok Hrest Hfuel. unfold member_text. cbn [fst snd].
  destruct (parse_quoted k (": " +:+ serialize indent v +:+ rest)) as (t & Ht & Hk).
  apply (parse_members_step _ _ _ k t (" " +:+ serialize indent v +:+ rest)).
  - rewrite skip_ws_line by done. rewrite !str_app_assoc, Ht. done.
  - exact Hk.
  - rewrite (parse_value_skip _ _ (serialize indent v +:+ rest)).
    + by apply Hv.
    + rewrite str_app_cons, str_app_nil_l. done.
Qed.

Lemma parse_members_items indent stepback props :
  tabs indent = true → tabs stepback = true →
  Forall (λ p, reads_back (snd p)) props →
  forallb (λ p, json_ok (snd p)) props = true → props ≠ [] →
  ∀ acc fuel rest,
    NoDup (acc.*1 ++ props.*1) →
    (list_sum (map (λ p, S (size (snd p))) props) ≤ fuel)%nat →
    parse_members fuel
      (items indent (map (member_text indent) props) (nl +:+ stepback +:+ "}" +:+ rest))
      acc
    = Return (VObj (acc ++ props), rest).
Proof.
  intros Hind Hstep Hall Hok. induction props as [|[k v] l IH]; [done|]. intros _.
  apply Forall_cons in Hall as [Hv Hall].
  apply andb_true_iff in Hok as [Hvok Hok]. cbn [fst snd] in *.
  intros acc [|fuel] rest Hnodup Hfuel; [simpl in Hfuel; lia|].
  simpl in Hfuel.
  assert (set_prop k v acc = acc ++ [(k, v)]) as Hset.
  { apply set_prop_fresh. apply NoDup_app in Hnodup as (_ & Hdisj & _).
    intros Hin. apply (Hdisj _ Hin). set_solver. }
  destruct l as [|q l].
  - simpl map. unfold items.
    rewrite parse_member; [|done|done|done|apply delimited_nl|lia].
    rewrite skip_ws_line by done. by rewrite Hset.
  - change (items indent (map (member_text indent) ((k, v) :: q :: l))
              (nl +:+ stepback +:+ "}" +:+ rest))
      with (nl +:+ indent +:+ member_text indent (k, v) +:+ ","
            +:+ items indent (map (member_text indent) (q :: l))
                  (nl +:+ stepback +:+ "}" +:+ rest)).
    rewrite parse_member; [|done|done|done|apply delimited_comma|lia].
    rewrite str_app_cons, str_app_nil_l, skip_ws_id by done.
    rewrite Hset, IH; [|done|done|done| |lia].
    + by rewrite <- app_assoc.
    + rewrite fmap_app. simpl. by rewrite <- app_assoc.
Qed.

Lemma skip_ws_items indent p ps closing :
  tabs indent = true →
  (∃ c t, p = String c t ∧ value_start c = true) →
  ∃ c t, skip_ws (items indent (p :: ps) closing) = String c t
       ∧ value_start c = true.
Proof.
  intros Hind (c & t & -> & Hc).
  destruct ps as [|q ps].
  - exists c, (t +:+ closing). split; [|done]. unfold items.
    rewrite skip_ws_line, str_app_cons by done.
    by apply skip_ws_id, value_start_not_ws.
  - exists c, (t +:+ "," +:+ items indent (q :: ps) closing). split; [|done].
    change (items indent (String c t :: q :: ps) closing)
      with (nl +:+ indent +:+ String c t +:+ "," +:+ items indent (q :: ps) closing).
    rewrite skip_ws_line, str_app_cons by done.
    by apply skip_ws_id, value_start_not_ws.
Qed.

Lemma all_read_back value : reads_back value.
Proof.
  induction value as [|b|n|s|elems IH|props IH] using json_ind;
    intros Hok indent rest [|fuel] Hind Hrest Hfuel; try (simpl in Hfuel; lia).
  - done.
  - by destruct b.
  - simpl serialize. destruct (Number_toString_start n) as (c & t & Hn & Hc).
    rewrite Hn, str_app_cons, parse_value_number by done.
    rewrite <- str_app_cons, <- Hn, parse_number_toString by done. done.
  - simpl serialize. destruct (parse_quoted s rest) as (t & -> & Ht).
    simpl. by rewrite Ht.
  - simpl serialize. destruct elems as [|x l]; [done|].
    rewrite wrap_parts_items by done.
    destruct (skip_ws_items (indent +:+ tab) (serialize (indent +:+ tab) x)
                (map (serialize (indent +:+ tab)) l)
                (nl +:+ indent +:+ "]" +:+ rest)) as (c & t & Hskip & Hc).
    { by apply tabs_app. }
    { apply serialize_start. }
    rewrite str_app_cons, str_app_nil_l.
    rewrite (parse_value_array _ _ c t) by done.
    rewrite (parse_elements_items (indent +:+ tab) indent (x :: l));
      [done|by apply tabs_app|done|done|done|done|].
    simpl in Hfuel. simpl. lia.
  - simpl serialize. destruct props as [|[k v] l]; [done|].
    rewrite wrap_parts_items by done.
    simpl in Hok. apply andb_true_iff in Hok as [Hnodup%bool_decide_eq_true Hok].
    destruct (skip_ws_items (indent +:+ tab) (member_text (indent +:+ tab) (k, v))
                (map (member_text (indent +:+ tab)) l)
                (nl +:+ indent +:+ "}" +:+ rest)) as (c & t & Hskip & Hc).
    { by apply tabs_app. }
    { by eexists _, _. }
    rewrite str_app_cons, str_app_nil_l.
    rewrite (parse_value_object _ _ c t) by done.
    rewrite (parse_members_items (indent +:+ tab) indent ((k, v) :: l));
      [done|by apply tabs_app|done|done|done|done|done|].
    simpl in Hfuel. simpl. lia.
Qed.

(** *** Fuel *)

Lemma items_length indent parts closing :
  (list_sum (map (λ p, S (String.length p)) parts) + String.length closing
   ≤ String.length (items indent parts closing))%nat.
Proof.
  induction parts as [|p ps IH]; [simpl; lia|].
  destruct ps as [|q ps].
  - unfold items. rewrite !str_app_length. simpl. lia.
  - change (items indent (p :: q :: ps) closing)
      with (nl +:+ indent +:+ p +:+ "," +:+ items indent (q :: ps) closing).
    rewrite !str_app_length. simpl in *. lia.
Qed.

Lemma wrap_parts_length open close stepback indent parts :
  (0 < String.length open)%nat →
  (list_sum (map (λ p, S (String.length p)) parts)
   < String.length (wrap_parts open close stepback indent parts))%nat.
Proof.
  intros Hopen. destruct parts as [|p ps].
  - unfold wrap_parts. rewrite str_app_length. simpl. lia.
  - rewrite <- (str_app_nil_r (wrap_parts _ _ _ _ _)).
    rewrite wrap_parts_items by done.
    pose proof (items_length indent (p :: ps) (nl +:+ stepback +:+ close +:+ EmptyString)).
    rewrite str_app_length. lia.
Qed.

Lemma size_le_length indent value :
  (size value ≤ String.length (serialize indent value))%nat.
Proof.
  revert indent.
  induction value as [|b|n|s|elems IH|props IH] using json_ind; intros indent.
  - simpl. lia.
  - destruct b; simpl; lia.
  - simpl. destruct (Number_toString_start n) as (c & t & -> & _). simpl. lia.
  - simpl. unfold QuoteJSONString. rewrite str_app_length. simpl. lia.
  - simpl.
    assert (list_sum (map (λ x, S (size x)) elems)
            ≤ list_sum (map (λ p, S (String.length p))
                (map (serialize (indent +:+ tab)) elems)))%nat.
    { induction IH as [|x l Hx _ IHl]; [done|]. simpl.
      specialize (Hx (indent +:+ tab)). lia. }
    pose proof (wrap_parts_length "[" "]" indent (indent +:+ tab)
                  (map (serialize (indent +:+ tab)) elems) ltac:(simpl; lia)) as Hlen.
    lia.
  - simpl.
    assert (list_sum (map (λ p, S (size (snd p))) props)
            ≤ list_sum (map (λ p, S (String.length p))
                (map (member_text (indent +:+ tab)) props)))%nat.
    { induction IH as [|[k v] l Hv _ IHl]; [done|]. simpl.
      specialize (Hv (indent +:+ tab)). unfold member_text in *. cbn [fst snd] in *.
      rewrite !str_app_length. lia. }
    pose proof (wrap_parts_length "{" "}" indent (indent +:+ tab)
                  (map (member_text (indent +:+ tab)) props) ltac:(simpl; lia)) as Hlen.
    unfold member_text in *. lia.
Qed.

(** *** The replacer *)

Lemma mapM_outcome_map {A B C} (f : A → outcome C) (g : A → outcome B) (h : B → C) l :
  Forall (λ x, f x = y ← g x; Return (h y)) l →
  mapM f l = ys ← mapM g l; Return (map h ys).
Proof.
  induction 1 as [|x l Hx _ IH]; [done|]. simpl. rewrite Hx, IH.
  destruct (g x); [|done]. simpl. by destruct (mapM g l).
Qed.

Section Replacer.
Context (BigNumber_from : json → outcome Z).

Lemma JSONreplacer_object key props :
  JSONreplacer BigNumber_from key (VObj props)
  = if is_string (get_prop "type" props) "BigNumber"
    then n ← BigNumber_from (VObj props); Return (VStr (Number_toString n))
    else Return (VObj props).
Proof. unfold JSONreplacer. simpl. by destruct (is_string _ _). Qed.

Lemma JSONreplacer_other key value :
  (∀ props, value ≠ VObj props) →
  JSONreplacer BigNumber_from key value = Return value.
Proof. intros H. destruct value; try done. by destruct (H props). Qed.

(** What [SerializeJSONProperty] writes is the text of the rendered
    value. *)
Lemma SerializeJSONProperty_render value :
  ∀ indent key,
    SerializeJSONProperty BigNumber_from indent key value
    = r ← render BigNumber_from value; Return (serialize indent r).
Proof.
  induction value as [|b|n|s|elems IH|props IH] using json_ind; intros indent key;
    try done.
  - by destruct b.
  - cbn [SerializeJSONProperty render]. rewrite JSONreplacer_other by done.
    rewrite outcome_bind_Return.
    rewrite (mapM_outcome_map _ (render BigNumber_from)
               (serialize (indent +:+ tab))).
    + by destruct (mapM _ elems).
    + eapply Forall_impl; [exact IH|]. intros x Hx. apply Hx.
  - cbn [SerializeJSONProperty render]. rewrite JSONreplacer_object.
    destruct (is_string _ _).
    + by destruct (BigNumber_from _).
    + rewrite outcome_bind_Return.
      rewrite (mapM_outcome_map _
                 (λ p, v ← render BigNumber_from (snd p); Return (fst p, v))
                 (member_text (indent +:+ tab))).
      * by destruct (mapM _ props).
      * eapply Forall_impl; [exact IH|]. intros [k v] Hv. cbn [fst snd] in *.
        rewrite Hv. by destruct (render BigNumber_from v).
Qed.

Lemma mapM_render_keys (props props' : list (string * json)) :
  mapM (λ p, v ← render BigNumber_from (snd p); Return (fst p, v)) props
    = Return props' →
  props'.*1 = props.*1
  ∧ Forall2 (λ p p', render BigNumber_from (snd p) = Return (snd p')) props props'.
Proof.
  revert props'. induction props as [|[k v] l IH]; intros props'; simpl;
    unfold mret, outcome_ret.
  - intros ?; simplify_eq. split; [done|constructor].
  - destruct (render BigNumber_from v) as [v'|] eqn:Hv; [|done]. simpl.
    destruct (mapM _ l) as [l'|]; [|done]. simpl. intros [= <-].
    destruct (IH l' eq_refl) as [Hkeys Hall]. simpl. split; [by f_equal|].
    by constructor.
Qed.

Lemma mapM_render_elems elems elems' :
  mapM (render BigNumber_from) elems = Return elems' →
  Forall2 (λ x x', render BigNumber_from x = Return x') elems elems'.
Proof.
  revert elems'. induction elems as [|x l IH]; intros elems'; simpl;
    unfold mret, outcome_ret.
  - intros ?; simplify_eq. constructor.
  - destruct (render BigNumber_from x) as [x'|] eqn:Hx; [|done]. simpl.
    destruct (mapM _ l) as [l'|]; [|done]. simpl. intros [= <-].
    constructor; auto.
Qed.

(** Rendering keeps a value within the embedding. *)
Lemma render_ok value :
  ∀ r, json_ok value = true → render BigNumber_from value = Return r →
       json_ok r = true.
Proof.
  induction value as [|b|n|s|elems IH|props IH] using json_ind; intros r Hok;
    try (by intros [= <-]).
  - simpl. destruct (mapM _ elems) as [elems'|] eqn:Hm; [|done]. simpl.
    intros [= <-]. simpl in *. apply mapM_render_elems in Hm.
    clear -IH Hok Hm. induction Hm as [|x x' l l' Hx _ IHl]; [done|].
    apply Forall_cons in IH as [IHx IH]. simpl in *.
    apply andb_true_iff in Hok as [Hxok Hok].
    apply andb_true_iff. split; [by eapply IHx|by apply IHl].
  - simpl. destruct (is_string _ _).
    { destruct (BigNumber_from _); [|done]. by intros [= <-]. }
    destruct (mapM _ props) as [props'|] eqn:Hm; [|done]. simpl.
    intros [= <-]. simpl in *. apply mapM_render_keys in Hm as [Hkeys Hm].
    apply andb_true_iff in Hok as [Hnodup Hok]. rewrite Hkeys, Hnodup. simpl.
    clear -IH Hok Hm. induction Hm as [|[k v] [k' v'] l l' Hv _ IHl]; [done|].
    apply Forall_cons in IH as [IHv IH]. simpl in *.
    apply andb_true_iff in Hok as [Hvok Hok].
    apply andb_true_iff. split; [by eapply IHv|by apply IHl].
Qed.
End Replacer.

(** *** Indentation *)

Lemma walk_app p d a s :
  walk p d (a +:+ s)
  = match walk p d a with
    | Some (p', d') => walk p' d' s
    | None => None
    end.
Proof.
  revert p d. induction a as [|c a IH]; intros p d; [done|].
  rewrite str_app_cons. cbn [walk]. destruct (step p d c) as [[p' d']|]; [|done].
  apply IH.
Qed.

Lemma walk_stay p d a s : walk p d a = Some (p, d) → walk p d (a +:+ s) = walk p d s.
Proof. intros H. by rewrite walk_app, H. Qed.

Lemma walk_tabs k closing d indent s :
  tabs indent = true →
  walk (LineStart k closing) d (indent +:+ s)
  = walk (LineStart (k + String.length indent) closing) d s.
Proof.
  revert k. induction indent as [|c indent IH]; intros k.
  - intros _. rewrite str_app_nil_l. simpl. by rewrite Nat.add_0_r.
  - simpl. intros [->%bool_decide_eq_true Hind]%andb_true_iff.
    rewrite ?str_app_cons. simpl. rewrite IH by done.
    by rewrite Nat.add_succ_r.
Qed.

Lemma step_start d c :
  value_start c = true → step (LineStart d false) d c = step Inside d c.
Proof.
  intros Hc. apply bool_decide_eq_true in Hc. cbn [step].
  rewrite (bool_decide_eq_true_2 (d = d)) by done.
  repeat (apply elem_of_cons in Hc as [->|Hc]; [done|]). by apply elem_of_nil in Hc.
Qed.

Lemma walk_start d c s :
  value_start c = true →
  walk (LineStart d false) d (String c s) = walk Inside d (String c s).
Proof. intros Hc. cbn [walk]. by rewrite step_start. Qed.

Lemma walk_escape_char d c s :
  walk (InString false) d (escape_char c +:+ s) = walk (InString false) d s.
Proof. destruct c as [[] [] [] [] [] [] [] []]; reflexivity. Qed.

Lemma walk_escape d s rest :
  walk (InString false) d (escape s +:+ rest) = walk (InString false) d rest.
Proof.
  induction s as [|c s IH]; [done|]. simpl.
  by rewrite str_app_assoc, walk_escape_char.
Qed.

Lemma walk_quoted d s rest :
  walk Inside d (QuoteJSONString s +:+ rest) = walk Inside d rest.
Proof.
  unfold QuoteJSONString. rewrite !str_app_assoc.
  change (walk Inside d (dquote +:+ escape s +:+ dquote +:+ rest))
    with (walk (InString false) d (escape s +:+ dquote +:+ rest)).
  by rewrite walk_escape.
Qed.

Lemma walk_uint d u : walk Inside d (NilEmpty.string_of_uint u) = Some (Inside, d).
Proof. induction u; done. Qed.

Lemma walk_number d n : walk Inside d (Number_toString n) = Some (Inside, d).
Proof.
  unfold Number_toString. destruct (Z.to_int n) as [u|u]; simpl.
  - destruct u; try done; apply (walk_uint d (_ u)).
  - destruct u; try done; apply (walk_uint d (_ u)).
Qed.

Lemma walk_line p d indent part s :
  p = AfterOpen ∨ p = AfterComma →
  tabs indent = true → String.length indent = d → part_at d part →
  walk p d (nl +:+ indent +:+ part +:+ s) = walk Inside d s.
Proof.
  intros Hp Hind Hlen [(c & t & -> & Hc) Hpart].
  assert (walk p d (nl +:+ indent +:+ String c t +:+ s)
          = walk (LineStart 0 false) d (indent +:+ String c t +:+ s)) as ->.
  { by destruct Hp as [-> | ->]. }
  rewrite walk_tabs by done. simpl "+". rewrite Hlen.
  rewrite str_app_cons, walk_start, <- str_app_cons by done. apply Hpart.
Qed.

Lemma walk_items p d indent parts closing :
  p = AfterOpen ∨ p = AfterComma →
  tabs indent = true → String.length indent = d →
  parts ≠ [] → Forall (part_at d) parts →
  walk p d (items indent parts closing) = walk Inside d closing.
Proof.
  intros Hp Hind Hlen Hne Hparts. revert p Hp.
  induction Hparts as [|part ps Hpart _ IH]; [done|]. intros p Hp.
  destruct ps as [|q ps].
  - unfold items. by apply walk_line.
  - change (items indent (part :: q :: ps) closing)
      with (nl +:+ indent +:+ part +:+ "," +:+ items indent (q :: ps) closing).
    rewrite walk_line by done. rewrite str_app_cons, str_app_nil_l.
    change (walk Inside d (String "," (items indent (q :: ps) closing)))
      with (walk AfterComma d (items indent (q :: ps) closing)).
    apply IH; [done|by right].
Qed.

Lemma walk_wrap_parts d open close stepback indent parts s :
  open ∈ ["["; "{"] → close ∈ ["]"; "}"] →
  tabs stepback = true → String.length stepback = d →
  tabs indent = true → String.length indent = S d →
  Forall (part_at (S d)) parts →
  walk Inside d (wrap_parts open close stepback indent parts +:+ s)
  = walk Inside d s.
Proof.
  intros Hopen Hclose Hstep Hlen Hind Hlen' Hparts.
  assert (∀ t, walk Inside d (open +:+ t) = walk AfterOpen (S d) t) as Ho.
  { intros t. set_unfold. by destruct Hopen as [-> | [-> | []]]. }
  assert (∀ t, walk AfterOpen (S d) (close +:+ t) = walk Inside d t) as Hc.
  { intros t. set_unfold. by destruct Hclose as [-> | [-> | []]]. }
  assert (∀ t, walk (LineStart d true) (S d) (close +:+ t) = walk Inside d t) as Hc'.
  { intros t. set_unfold.
    destruct Hclose as [-> | [-> | []]]; rewrite str_app_cons, str_app_nil_l;
      cbn [walk step]; simpl; by rewrite bool_decide_eq_true_2. }
  destruct parts as [|part ps].
  - unfold wrap_parts. by rewrite str_app_assoc, Ho, Hc.
  - rewrite wrap_parts_items by done. rewrite Ho.
    rewrite walk_items by (done || by left).
    change (walk Inside (S d) (nl +:+ stepback +:+ close +:+ s))
      with (walk (LineStart 0 true) (S d) (stepback +:+ close +:+ s)).
    rewrite walk_tabs by done. simpl "+". rewrite Hlen. apply Hc'.
Qed.

Lemma tabs_app_length indent :
  String.length (indent +:+ tab) = S (String.length indent).
Proof. rewrite str_app_length. simpl. lia. Qed.

Lemma walk_serialize value :
  ∀ d indent, tabs indent = true → String.length indent = d →
    part_at d (serialize indent value).
Proof.
  induction value as [|b|n|s|elems IH|props IH] using json_ind;
    intros d indent Hind Hlen; (split; [apply serialize_start|]); intros rest.
  - done.
  - by destruct b.
  - apply walk_stay, walk_number.
  - apply walk_quoted.
  - simpl. apply walk_wrap_parts;
      [set_solver|set_solver|done|done|by apply tabs_app| |].
    + by rewrite tabs_app_length, Hlen.
    + apply Forall_fmap. eapply Forall_impl; [exact IH|].
      intros x Hx. apply Hx; [by apply tabs_app|by rewrite tabs_app_length, Hlen].
  - simpl. apply walk_wrap_parts;
      [set_solver|set_solver|done|done|by apply tabs_app| |].
    + by rewrite tabs_app_length, Hlen.
    + apply Forall_fmap. eapply Forall_impl; [exact IH|].
      intros [k v] Hv. cbn [fst snd] in *. simpl. split.
      * by eexists _, _.
      * intros s. rewrite !str_app_assoc, walk_quoted.
        rewrite str_app_cons, str_app_cons, str_app_nil_l.
        change (walk Inside (S d)
                  (String ":" (String " " (serialize (indent +:+ tab) v +:+ s))))
          with (walk Inside (S d) (serialize (indent +:+ tab) v +:+ s)).
        apply Hv; [by apply tabs_app|by rewrite tabs_app_length, Hlen].
Qed.

Lemma stringified_tab_indented value :
  tab_indented (serialize EmptyString value +:+ nl) = true.
Proof.
  unfold tab_indented.
  destruct (walk_serialize value 0%nat EmptyString eq_refl eq_refl)
    as [(c & t & Hstart & Hc) Hwalk].
  assert (walk (LineStart 0 false) 0 (serialize EmptyString value +:+ nl)
          = walk Inside 0 (serialize EmptyString value +:+ nl)) as ->.
  { rewrite Hstart, str_app_cons. by apply walk_start. }
  by rewrite Hwalk.
Qed.

Example tab_indented_rejects :
  tab_indented ("{" +:+ nl +:+ dquote +:+ "a" +:+ dquote +:+ ": 1" +:+ nl +:+ "}" +:+ nl)
    = false
  ∧ tab_indented ("{" +:+ dquote +:+ "a" +:+ dquote +:+ ":1}" +:+ nl) = false
  ∧ tab_indented ("{" +:+ nl +:+ tab +:+ tab +:+ dquote +:+ "a" +:+ dquote +:+ ": 1"
                  +:+ nl +:+ "}" +:+ nl) = false
  ∧ tab_indented ("{" +:+ nl +:+ tab +:+ dquote +:+ "a" +:+ dquote +:+ ": 1"
                  +:+ nl +:+ "}") = false
  ∧ tab_indented ("{" +:+ nl +:+ tab +:+ dquote +:+ "a" +:+ dquote +:+ ": 1"
                  +:+ nl +:+ "}" +:+ nl) = true.
Proof. repeat split. Qed.

(** *** The round trip *)

Lemma render_plain BigNumber_from value :
  plain value = true → render BigNumber_from value = Return value.
Proof.
  induction value as [|b|n|s|elems IH|props IH] using json_ind; try done.
  - simpl. intros Hplain.
    assert (mapM (render BigNumber_from) elems = Return elems) as ->; [|done].
    induction IH as [|x l Hx _ IHl]; [done|]. simpl in *.
    apply andb_true_iff in Hplain as [Hxp Hlp]. by rewrite Hx, IHl.
  - simpl. intros [Hshape Hplain]%andb_true_iff.
    apply negb_true_iff in Hshape as ->.
    assert (mapM (λ p, v ← render BigNumber_from (snd p); Return (fst p, v)) props
            = Return props) as ->; [|done].
    induction IH as [|[k v] l Hv _ IHl]; [done|]. simpl in *.
    apply andb_true_iff in Hplain as [Hvp Hlp]. by rewrite Hv, IHl.
Qed.

(** C7: for every ledger of the embedding whose BigNumber-shaped values
    denote numbers, [stringify] returns a text that [JSON.parse] reads
    back as the ledger with the same keys and values, each BigNumber-shaped
    value rendered as its decimal string; the text ends in a line break
    and is indented by tabs, one for each level of nesting, every part
    of an array or an object on a line of its own. A ledger with no
    BigNumber-shaped value is read back as it is, and a ledger that is a
    mapping is read back as a mapping with the same keys. *)
Theorem stringify_round_trip
    (BigNumber_from : json → outcome Z) (ledger rendered : json) :
  json_ok ledger = true →
  render BigNumber_from ledger = Return rendered →
  ∃ text,
    stringify BigNumber_from ledger = Return text
    ∧ JSON_parse text = Return rendered
    ∧ (∃ body, text = body +:+ nl)
    ∧ tab_indented text = true
    ∧ (plain ledger = true → rendered = ledger)
    ∧ (∀ props, ledger = VObj props →
         is_string (get_prop "type" props) "BigNumber" = false →
         ∃ props', rendered = VObj props' ∧ props'.*1 = props.*1).
Proof.
  intros Hok Hrender. exists (serialize EmptyString rendered +:+ nl).
  split_and!.
  - unfold stringify, JSON_stringify.
    by rewrite SerializeJSONProperty_render, Hrender.
  - unfold JSON_parse.
    rewrite (all_read_back rendered); [done| |done|apply delimited_nl|].
    + by eapply render_ok.
    + rewrite str_app_length. pose proof (size_le_length EmptyString rendered). lia.
  - by eexists.
  - apply stringified_tab_indented.
  - intros Hplain. rewrite render_plain in Hrender by done. by simplify_eq.
  - intros props -> Hshape. simpl in Hrender. rewrite Hshape in Hrender.
    destruct (mapM _ props) as [props'|] eqn:Hprops; [|done].
    simpl in Hrender. simplify_eq. exists props'. split; [done|].
    by apply mapM_render_keys in Hprops as [? _].
Qed.

Lemma stringify_round_trip_witness :
  ∃ text,
    stringify Sample.BigNumber_from Sample.ledger = Return text
    ∧ JSON_parse text = Return Sample.ledger_read_back
    ∧ (∃ body, text = body +:+ nl)
    ∧ tab_indented text = true.
Proof.
  destruct (stringify_round_trip Sample.BigNumber_from Sample.ledger
              Sample.ledger_read_back)
    as (text & Htext & Hparse & Hnl & Htabs & _ & _).
  - vm_compute. reflexivity.
  - vm_compute. reflexivity.
  - by exists text.
Defined.
(** ** The fuel of [JSON.parse] *)

Lemma skip_ws_length s : (String.length (skip_ws s) ≤ String.length s)%nat.
Proof. induction s as [|c s IH]; simpl; [lia|]. destruct (is_ws c); simpl; lia. Qed.

Lemma strip_prefix_length p s r :
  strip_prefix p s = Some r → (String.length r ≤ String.length s)%nat.
Proof. intros ->%strip_prefix_spec. rewrite str_app_length. lia. Qed.

Lemma expect_length {A} word (a : A) s v rest :
  expect word a s = Return (v, rest) → (String.length rest ≤ String.length s)%nat.
Proof.
  unfold expect. destruct (strip_prefix word s) eqn:H; [|done].
  intros [= <- <-]. by eapply strip_prefix_length.
Qed.

Lemma consing_Return c m k rest :
  consing c m = Return (k, rest) → ∃ k', m = Return (k', rest).
Proof.
  unfold consing. destruct m as [[k' r]|]; [|done]. simpl. intros [= <- <-]. eauto.
Qed.

Lemma parse_string_body_length s k rest :
  parse_string_body s = Return (k, rest) → (String.length rest < String.length s)%nat.
Proof.
  revert k. induction s as [s IH] using (induction_ltof1 _ String.length).
  unfold ltof in IH. intros k.
  assert (∀ c s' k, (String.length s' < String.length s)%nat →
    consing c (parse_string_body s') = Return (k, rest) →
    (String.length rest < String.length s)%nat) as Hcons.
  { intros c s' k' Hlt [k'' Hs']%consing_Return. apply IH in Hs'; [lia|done]. }
  destruct s as [|c s]; [done|]. simpl.
  destruct c as [[] [] [] [] [] [] [] []]; simpl;
    try done; try (intros [= <- <-]; simpl; lia);
    try (apply Hcons; simpl; lia).
  destruct s as [|e s]; [done|].
  destruct e as [[] [] [] [] [] [] [] []]; simpl;
    try done; try (apply Hcons; simpl; lia).
  destruct s as [|h1 [|h2 [|h3 [|h4 s]]]]; try done.
  destruct (unicode_escape h1 h2 h3 h4); [|done].
  apply Hcons. simpl. lia.
Qed.

Lemma lex_digits_length s :
  (String.length (snd (lex_digits s)) ≤ String.length s)%nat
  ∧ (fst (lex_digits s) ≠ Nil →
     String.length (snd (lex_digits s)) < String.length s)%nat.
Proof.
  induction s as [|c s [IH _]]; simpl; [done|].
  destruct (digit_value c) as [d|]; [|simpl; split; [lia|done]].
  destruct (lex_digits s) as [u rest]. simpl in *. split; lia.
Qed.

Lemma lex_sign_length s : (String.length (snd (lex_sign s)) ≤ String.length s)%nat.
Proof.
  destruct s as [|c r]; [done|].
  destruct c as [[] [] [] [] [] [] [] []]; simpl; lia.
Qed.

Lemma number_value_rest negative u rest n r :
  number_value negative u rest = Return (n, r) → r = rest.
Proof.
  unfold number_value. destruct (safe_integer _).
  - destruct rest as [|c rest]; [by intros [= _ <-]|].
    destruct c as [[] [] [] [] [] [] [] []]; by intros [= _ <-].
  - destruct rest as [|c rest]; [done|].
    by destruct c as [[] [] [] [] [] [] [] []].
Qed.

Lemma parse_number_length s n rest :
  parse_number s = Return (n, rest) → (String.length rest < String.length s)%nat.
Proof.
  unfold parse_number. pose proof (lex_sign_length s) as Hsign.
  destruct (lex_sign s) as [negative s1]. simpl in Hsign.
  pose proof (lex_digits_length s1) as [_ Hlex].
  destruct (lex_digits s1) as [u r]. simpl in Hlex.
  destruct u; try done;
    (destruct (leading_zero _); [done|]; intros ->%number_value_rest;
     specialize (Hlex ltac:(done)); lia).
Qed.

(** Reading a value takes at least one character. *)
Lemma parse_length fuel :
  (∀ s v rest, parse_value fuel s = Return (v, rest) →
     (String.length rest < String.length s)%nat)
  ∧ (∀ s acc v rest, parse_elements fuel s acc = Return (v, rest) →
     (String.length rest < String.length s)%nat)
  ∧ (∀ s acc v rest, parse_members fuel s acc = Return (v, rest) →
     (String.length rest < String.length s)%nat).
Proof.
  induction fuel as [|fuel (IHv & IHe & IHm)]; [done|]. split_and!.
  - intros s v rest. simpl. pose proof (skip_ws_length s) as Hs.
    destruct (skip_ws s) as [|c r] eqn:Hskip; [done|]. simpl in Hs.
    assert (∀ word (a : json), expect word a r = Return (v, rest) →
              (String.length rest < String.length s)%nat) as Hword.
    { intros word a Hw%expect_length. lia. }
    assert (∀ t, (String.length t ≤ String.length r)%nat →
              ∀ acc, parse_elements fuel t acc = Return (v, rest) →
              (String.length rest < String.length s)%nat) as Helems.
    { intros t Ht acc Hp%IHe. lia. }
    assert (∀ t, (String.length t ≤ String.length r)%nat →
              ∀ acc, parse_members fuel t acc = Return (v, rest) →
              (String.length rest < String.length s)%nat) as Hmembers.
    { intros t Ht acc Hp%IHm. lia. }
    assert ((p ← parse_number (String c r); Return (VNum (fst p), snd p))
              = Return (v, rest) →
            (String.length rest < String.length s)%nat) as Hnumber.
    { destruct (parse_number _) as [[n r']|] eqn:Hn; [|done]. simpl.
      intros [= <- <-]. apply parse_number_length in Hn. simpl in Hn. lia. }
    destruct c as [[] [] [] [] [] [] [] []]; try exact Hnumber; try apply Hword;
      lazymatch goal with
      | |- context [parse_string_body] =>
          destruct (parse_string_body r) as [[k r']|] eqn:Hk; [|done]; simpl;
          intros [= <- <-]; apply parse_string_body_length in Hk; lia
      | |- context [parse_elements] =>
          pose proof (skip_ws_length r);
          destruct (skip_ws r) as [|c' r'] eqn:Hr; [by apply Helems|];
          destruct c' as [[] [] [] [] [] [] [] []]; try (by apply Helems);
          intros [= <- <-]; simpl in *; lia
      | |- context [parse_members] =>
          pose proof (skip_ws_length r);
          destruct (skip_ws r) as [|c' r'] eqn:Hr; [by apply Hmembers|];
          destruct c' as [[] [] [] [] [] [] [] []]; try (by apply Hmembers);
          intros [= <- <-]; simpl in *; lia
      end.
  - intros s acc v rest. rewrite parse_elements_unfold.
    destruct (parse_value fuel s) as [[x r]|] eqn:Hx; [|done].
    rewrite outcome_bind_Return. cbn [fst snd]. apply IHv in Hx.
    pose proof (skip_ws_length r).
    destruct (skip_ws r) as [|c r'] eqn:Hr; [done|]. simpl in *.
    destruct c as [[] [] [] [] [] [] [] []]; try done;
      first [intros [= <- <-]; lia | intros Hp%IHe; lia].
  - intros s acc v rest. rewrite parse_members_unfold.
    pose proof (skip_ws_length s).
    destruct (skip_ws s) as [|c r] eqn:Hs; [done|]. simpl in *.
    destruct c as [[] [] [] [] [] [] [] []]; try done.
    destruct (parse_string_body r) as [[k r1]|] eqn:Hk; [|done].
    rewrite outcome_bind_Return. cbn [fst snd]. apply parse_string_body_length in Hk.
    pose proof (skip_ws_length r1).
    destruct (skip_ws r1) as [|c r2] eqn:Hr1; [done|]. simpl in *.
    destruct c as [[] [] [] [] [] [] [] []]; try done.
    destruct (parse_value fuel r2) as [[x r3]|] eqn:Hx; [|done].
    rewrite outcome_bind_Return. cbn [fst snd]. apply IHv in Hx.
    pose proof (skip_ws_length r3).
    destruct (skip_ws r3) as [|c r4] eqn:Hr3; [done|]. simpl in *.
    destruct c as [[] [] [] [] [] [] [] []]; try done;
      first [intros [= <- <-]; lia | intros Hp%IHm; lia].
Qed.

(** One more unit of fuel reads the same, once the fuel is twice the
    length of the text. *)
Lemma parse_fuel_step fuel :
  (∀ s, (2 * String.length s ≤ fuel)%nat →
     parse_value (S fuel) s = parse_value fuel s)
  ∧ (∀ s acc, (2 * String.length s + 1 ≤ fuel)%nat →
     parse_elements (S fuel) s acc = parse_elements fuel s acc)
  ∧ (∀ s acc, (2 * String.length s + 1 ≤ fuel)%nat →
     parse_members (S fuel) s acc = parse_members fuel s acc).
Proof.
  induction fuel as [|fuel (IHv & IHe & IHm)].
  { split_and!; [|intros; lia..]. intros [|c s] Hs; [done|]. simpl in Hs. lia. }
  split_and!.
  - intros s Hfuel.
    change (parse_value (S (S fuel)) s) with
      (match skip_ws s with
       | String "n" r => expect "ull" VNull r
       | String "t" r => expect "rue" (VBool true) r
       | String "f" r => expect "alse" (VBool false) r
       | String "034" r => p ← parse_string_body r; Return (VStr (fst p), snd p)
       | String "[" r =>
           match skip_ws r with
           | String "]" r' => Return (VArr [], r')
           | _ => parse_elements (S fuel) r []
           end
       | String "{" r =>
           match skip_ws r with
           | String "}" r' => Return (VObj [], r')
           | _ => parse_members (S fuel) r []
           end
       | other => p ← parse_number other; Return (VNum (fst p), snd p)
       end).
    change (parse_value (S fuel) s) with
      (match skip_ws s with
       | String "n" r => expect "ull" VNull r
       | String "t" r => expect "rue" (VBool true) r
       | String "f" r => expect "alse" (VBool false) r
       | String "034" r => p ← parse_string_body r; Return (VStr (fst p), snd p)
       | String "[" r =>
           match skip_ws r with
           | String "]" r' => Return (VArr [], r')
           | _ => parse_elements fuel r []
           end
       | String "{" r =>
           match skip_ws r with
           | String "}" r' => Return (VObj [], r')
           | _ => parse_members fuel r []
           end
       | other => p ← parse_number other; Return (VNum (fst p), snd p)
       end).
    pose proof (skip_ws_length s) as Hs.
    destruct (skip_ws s) as [|c r]; [done|]. simpl in Hs.
    assert (parse_elements (S fuel) r [] = parse_elements fuel r []) as He
      by (apply IHe; lia).
    assert (parse_members (S fuel) r [] = parse_members fuel r []) as Hm
      by (apply IHm; lia).
    destruct c as [[] [] [] [] [] [] [] []]; try done; by rewrite ?He, ?Hm.
  - intros s acc Hfuel. rewrite !parse_elements_unfold, IHv by lia.
    destruct (parse_value fuel s) as [[x r]|] eqn:Hx; [|done].
    rewrite !outcome_bind_Return. cbn [fst snd].
    apply (proj1 (parse_length fuel)) in Hx.
    pose proof (skip_ws_length r).
    destruct (skip_ws r) as [|c r']; [done|]. simpl in *.
    destruct c as [[] [] [] [] [] [] [] []]; try done. apply IHe. lia.
  - intros s acc Hfuel. rewrite !parse_members_unfold.
    pose proof (skip_ws_length s).
    destruct (skip_ws s) as [|c r]; [done|]. simpl in *.
    destruct c as [[] [] [] [] [] [] [] []]; try done.
    destruct (parse_string_body r) as [[k r1]|] eqn:Hk; [|done].
    rewrite !outcome_bind_Return. cbn [fst snd].
    apply parse_string_body_length in Hk.
    pose proof (skip_ws_length r1).
    destruct (skip_ws r1) as [|c r2]; [done|]. simpl in *.
    destruct c as [[] [] [] [] [] [] [] []]; try done.
    rewrite IHv by lia.
    destruct (parse_value fuel r2) as [[x r3]|] eqn:Hx; [|done].
    rewrite !outcome_bind_Return. cbn [fst snd].
    apply (proj1 (parse_length fuel)) in Hx.
    pose proof (skip_ws_length r3).
    destruct (skip_ws r3) as [|c r4]; [done|]. simpl in *.
    destruct c as [[] [] [] [] [] [] [] []]; try done. apply IHm. lia.
Qed.

(** [JSON.parse] never fails for lack of fuel: any amount of fuel from
    twice the length of the text on reads what [JSON_parse] reads. *)
Lemma JSON_parse_fuel text fuel :
  (2 * String.length text ≤ fuel)%nat →
  parse_value fuel text = parse_value (2 * String.length text) text.
Proof.
  induction 1 as [|fuel Hle IH]; [done|].
  rewrite <- IH. by apply parse_fuel_step.
Qed.

(** * Further properties of the helpers *)

(** ** [loadConnections] *)

(** X1: [loadConnections] throws in one situation only: the network is not
    [local], [useFork] and [useOvm] are off, [PROVIDER_URL] is unset, and
    the mainnet override does not apply (the network is not [mainnet], or
    [PROVIDER_URL_MAINNET] is unset or empty). What it throws is then a
    [TypeError]. *)
Theorem loadConnections_throws_iff
    (env : gmap string string) (network : string) (useFork useOvm : bool) :
  (throws (loadConnections env network useFork useOvm)
   ↔ network ≠ "local" ∧ useFork = false ∧ useOvm = false
     ∧ env !! "PROVIDER_URL" = None
     ∧ ¬ (network = "mainnet" ∧ env_truthy (env !! "PROVIDER_URL_MAINNET") = true))
  ∧ ∀ e, loadConnections env network useFork useOvm = Throw e → kind e = TypeError.
Proof.
  unfold loadConnections, throws.
  destruct (bool_decide (network = "local")) eqn:Hlocal; simpl.
  { apply bool_decide_eq_true in Hlocal. split; [|done]. naive_solver. }
  apply bool_decide_eq_false in Hlocal.
  destruct useFork; simpl; [split; [naive_solver|done]|].
  destruct useOvm; simpl.
  { split; [|by repeat case_match]. split; [|naive_solver].
    intros [e He]. by repeat case_match. }
  destruct (bool_decide (network = "mainnet")) eqn:Hmain; simpl.
  - apply bool_decide_eq_true in Hmain.
    destruct (env_truthy (env !! "PROVIDER_URL_MAINNET")) eqn:Htruthy; simpl.
    + split; [naive_solver|done].
    + destruct (env !! "PROVIDER_URL") eqn:Hurl; simpl.
      * split; [naive_solver|done].
      * split; [|by intros ? [= <-]]. split; [|by eexists].
        intros _. split_and!; try done. by intros [_ ?].
  - apply bool_decide_eq_false in Hmain.
    destruct (env !! "PROVIDER_URL") eqn:Hurl; simpl.
    + split; [naive_solver|done].
    + split; [|by intros ? [= <-]]. split; [|by eexists].
      intros _. split_and!; try done. by intros [? _].
Qed.

(** X2: the result of [loadConnections] depends on the environment only
    through the variables of its network and mode ([variables_read]). In
    particular a run on a test network never reads [DEPLOY_PRIVATE_KEY], a
    run on [mainnet] never reads [TESTNET_DEPLOY_PRIVATE_KEY], a run with
    [useOvm] reads neither [PROVIDER_URL] nor [PROVIDER_URL_MAINNET], and
    a local or forked run reads no provider variable at all. *)
Theorem loadConnections_variables_read
    (env env' : gmap string string) (network : string) (useFork useOvm : bool) :
  (∀ k, k ∈ variables_read network useFork useOvm → env !! k = env' !! k) →
  loadConnections env network useFork useOvm
  = loadConnections env' network useFork useOvm.
Proof.
  unfold variables_read, loadConnections. intros H.
  destruct (bool_decide (network = "mainnet")) eqn:Hmain;
    destruct (bool_decide (network = "local") || useFork) eqn:Hlocal;
    try destruct useOvm; simpl in *;
    repeat match goal with
    | |- context [env !! ?k] => rewrite (H k) by set_solver
    end; done.
Qed.

Lemma loadConnections_variables_read_witness :
  loadConnections
    {["DEPLOY_PRIVATE_KEY" := "0xkey"; "PROVIDER_URL" := "https://network.example"]}
    "goerli" false false
  = loadConnections {["PROVIDER_URL" := "https://network.example"]} "goerli" false false.
Proof.
  apply loadConnections_variables_read. intros k Hk. vm_compute in Hk.
  apply elem_of_cons in Hk as [->|Hk]; [reflexivity|].
  apply elem_of_cons in Hk as [->|Hk]; [reflexivity|].
  by apply elem_of_nil in Hk.
Defined.

(** X3: on [mainnet] with [useOvm] on, when [OVM_PROVIDER_URL] is unset or
    empty and [OVM_GOERLI_PROVIDER_URL] is set, the call returns the
    provider URL of the goerli variable, next to the private key of
    [DEPLOY_PRIVATE_KEY] and the mainnet explorer link. *)
Theorem loadConnections_ovm_mainnet_fallback (env : gmap string string) :
  env_truthy (env !! "OVM_PROVIDER_URL") = false →
  env_truthy (env !! "OVM_GOERLI_PROVIDER_URL") = true →
  ∃ c, loadConnections env "mainnet" false true = Return c
    ∧ providerUrl c = env !! "OVM_GOERLI_PROVIDER_URL"
    ∧ privateKey c = env !! "DEPLOY_PRIVATE_KEY"
    ∧ explorerLinkPrefix c = "https://explorer.optimism.io".
Proof.
  intros Hovm Hgoerli. unfold loadConnections. simpl.
  rewrite Hovm, Hgoerli. simpl. by eexists.
Qed.

Lemma loadConnections_ovm_mainnet_fallback_witness :
  ∃ c, loadConnections {["OVM_GOERLI_PROVIDER_URL" := "https://goerli.optimism.io"]}
         "mainnet" false true = Return c
    ∧ providerUrl c = Some "https://goerli.optimism.io".
Proof.
  destruct (loadConnections_ovm_mainnet_fallback
              {["OVM_GOERLI_PROVIDER_URL" := "https://goerli.optimism.io"]})
    as (c & Hc & Hurl & _); [reflexivity|reflexivity|].
  exists c. split; [exact Hc|]. rewrite Hurl. reflexivity.
Defined.

(** *** The template of the provider URL *)

Lemma occurs_in_search t s : occurs_in t s ↔ search (starts_with t) s = true.
Proof.
  rewrite search_spec. unfold occurs_in. split.
  - intros (pre & suf & ->). exists pre, (t +:+ suf). split; [done|].
    apply starts_with_spec. by exists suf.
  - intros (pre & suf & -> & [r ->]%starts_with_spec). by exists pre, r.
Qed.

Lemma occurs_in_cons t c s : occurs_in t s → occurs_in t (String c s).
Proof. intros H. by apply (occurs_in_app_l t s (String c EmptyString)). Qed.

Lemma GetSubstitution_plain matched before after replacement :
  ¬ occurs_in "$" replacement →
  GetSubstitution matched before after replacement = replacement.
Proof.
  induction replacement as [|c r IH]; intros Hno; [done|].
  assert (c ≠ "$"%char) as Hc.
  { intros ->. apply Hno. by exists EmptyString, r. }
  assert (GetSubstitution matched before after (String c r)
          = String c (GetSubstitution matched before after r)) as ->.
  { destruct c as [[] [] [] [] [] [] [] []]; try done. }
  rewrite IH; [done|]. intros H. by apply Hno, occurs_in_cons.
Qed.

Lemma split_at_first_None pat s : ¬ occurs_in pat s → split_at_first pat s = None.
Proof.
  induction s as [|c s IH]; intros Hno.
  - simpl. destruct (strip_prefix pat EmptyString) as [r|] eqn:Hr; [|done].
    destruct Hno. apply strip_prefix_spec in Hr. by exists EmptyString, r.
  - simpl. destruct (strip_prefix pat (String c s)) as [r|] eqn:Hr.
    + destruct Hno. apply strip_prefix_spec in Hr. by exists EmptyString, r.
    + rewrite IH; [done|]. intros H. by apply Hno, occurs_in_cons.
Qed.

(** No occurrence of [network] starts inside the text before it, unless
    one lies within that text: the word overlaps no shifted copy of
    itself. *)
Lemma strip_prefix_network c pre post :
  ¬ occurs_in "network" (String c pre) →
  strip_prefix "network" (String c pre +:+ "network" +:+ post) = None.
Proof.
  intros Hno.
  destruct (strip_prefix _ _) as [r|] eqn:Hr; [|done]. destruct Hno.
  destruct pre as [|c2 [|c3 [|c4 [|c5 [|c6 [|c7 pre]]]]]];
    rewrite ?str_app_cons, ?str_app_nil_l in Hr; simpl in Hr;
    repeat (case_bool_decide; [|done]); simplify_eq.
  by exists EmptyString, pre.
Qed.

Lemma split_at_first_network pre post :
  ¬ occurs_in "network" pre →
  split_at_first "network" (pre +:+ "network" +:+ post) = Some (pre, post).
Proof.
  induction pre as [|c pre IH]; intros Hno.
  - rewrite str_app_nil_l. reflexivity.
  - pose proof (strip_prefix_network c pre post Hno) as Hr.
    rewrite (str_app_cons c) in Hr |- *. cbn [split_at_first]. rewrite Hr.
    rewrite IH; [done|]. intros H. by apply Hno, occurs_in_cons.
Qed.

(** X4: on the generic path (no fork, no OVM, no mainnet override) with
    [PROVIDER_URL] set and a network name without a dollar sign, the
    provider URL is [PROVIDER_URL] with its first occurrence of the word
    [network] replaced by the network name; a later occurrence is left as
    it is, and a URL without the word is returned unchanged. *)
Theorem loadConnections_replaces_first
    (env : gmap string string) (network url : string) :
  network ≠ "local" →
  (network = "mainnet" → env_truthy (env !! "PROVIDER_URL_MAINNET") = false) →
  env !! "PROVIDER_URL" = Some url →
  ¬ occurs_in "$" network →
  ∃ c, loadConnections env network false false = Return c
    ∧ (¬ occurs_in "network" url → providerUrl c = Some url)
    ∧ (∀ pre post, url = pre +:+ "network" +:+ post → ¬ occurs_in "network" pre →
         providerUrl c = Some (pre +:+ network +:+ post)).
Proof.
  intros Hlocal Hmain Hurl Hdollar. unfold loadConnections.
  rewrite (bool_decide_eq_false_2 (network = "local")) by done. simpl.
  assert (bool_decide (network = "mainnet")
          && env_truthy (env !! "PROVIDER_URL_MAINNET") = false) as ->.
  { case_bool_decide; [by rewrite Hmain|done]. }
  rewrite Hurl. simpl. eexists. split; [done|]. simpl. split.
  - intros Hno. unfold String_replace. by rewrite split_at_first_None.
  - intros pre post -> Hno. unfold String_replace.
    rewrite split_at_first_network by done. by rewrite GetSubstitution_plain.
Qed.

Lemma loadConnections_replaces_first_witness :
  ∃ c, loadConnections {["PROVIDER_URL" := "https://network.infura.io/network"]}
         "goerli" false false = Return c
    ∧ providerUrl c = Some "https://goerli.infura.io/network".
Proof.
  destruct (loadConnections_replaces_first
              {["PROVIDER_URL" := "https://network.infura.io/network"]}
              "goerli" "https://network.infura.io/network")
    as (c & Hc & _ & Hurl).
  - discriminate.
  - discriminate.
  - reflexivity.
  - intros H%occurs_in_search. vm_compute in H. discriminate H.
  - exists c. split; [exact Hc|].
    apply (Hurl "https://" ".infura.io/network"); [reflexivity|].
    intros H%occurs_in_search. vm_compute in H. discriminate H.
Defined.

(** ** [getExplorerLinkPrefix] *)

Lemma str_app_inj_suffix a b s t :
  String.length s = String.length t → a +:+ s = b +:+ t → a = b ∧ s = t.
Proof.
  intros Hlen. revert b. induction a as [|x a IH]; intros [|y b] H.
  - done.
  - rewrite str_app_nil_l in H. subst s. rewrite str_app_length in Hlen.
    simpl in Hlen. lia.
  - rewrite str_app_nil_l in H. subst t. rewrite str_app_length in Hlen.
    simpl in Hlen. lia.
  - rewrite !str_app_cons in H. injection H as -> H.
    destruct (IH b H) as [-> ->]. done.
Qed.

(** X5: the explorer link prefix determines the network and the mode: two
    calls of [getExplorerLinkPrefix] that give the same prefix were given
    the same network name and the same [useOvm]. *)
Theorem getExplorerLinkPrefix_inj (network network' : string) (useOvm useOvm' : bool) :
  getExplorerLinkPrefix network useOvm = getExplorerLinkPrefix network' useOvm' →
  network = network' ∧ useOvm = useOvm'.
Proof.
  unfold getExplorerLinkPrefix. intros H.
  apply (f_equal (strip_prefix "https://")) in H.
  rewrite !strip_prefix_app in H. injection H as H.
  rewrite <- !str_app_assoc in H.
  assert (∀ a b : string, a +:+ "explorer.optimism" +:+ ".io" ≠ b +:+ "etherscan" +:+ ".io")
    as Hdiff.
  { intros a b Hab.
    change (a +:+ "explorer.optimism" +:+ ".io")
      with (a +:+ "explorer" +:+ ".optimism.io") in Hab.
    rewrite <- str_app_assoc in Hab.
    by apply (str_app_inj_suffix _ b ".optimism.io" "etherscan.io") in Hab as [_ ?]. }
  rewrite !str_app_assoc in H.
  assert (∀ sep : string, String.length sep = 1%nat →
    (if negb (bool_decide (network = "mainnet")) then network +:+ sep else "")
    = (if negb (bool_decide (network' = "mainnet")) then network' +:+ sep else "") →
    network = network') as Hnet.
  { intros sep Hsep Heq.
    destruct (bool_decide (network = "mainnet")) eqn:H1,
             (bool_decide (network' = "mainnet")) eqn:H2; simpl in Heq.
    - apply bool_decide_eq_true in H1, H2. congruence.
    - apply (f_equal String.length) in Heq. rewrite str_app_length in Heq.
      simpl in Heq. lia.
    - apply (f_equal String.length) in Heq. rewrite str_app_length in Heq.
      simpl in Heq. lia.
    - by apply str_app_inj_suffix in Heq as [? _]. }
  destruct useOvm, useOvm'; try (by destruct (Hdiff _ _ H));
    try (symmetry in H; by destruct (Hdiff _ _ H));
    (apply str_app_inj_suffix in H as [H _]; [|done]);
    (split; [|done]); by apply Hnet in H.
Qed.

Lemma getExplorerLinkPrefix_inj_witness : "goerli" = "goerli" ∧ true = true.
Proof.
  apply (getExplorerLinkPrefix_inj "goerli" "goerli" true true). reflexivity.
Defined.

(** ** [loadAndCheckRequiredSources]: what it leaves on disk *)

Lemma creates_only_refl files fs : creates_only files fs fs.
Proof. by split. Qed.

Lemma creates_only_trans files fs1 fs2 fs3 :
  creates_only files fs1 fs2 → creates_only files fs2 fs3 → creates_only files fs1 fs3.
Proof.
  intros [H1 H1'] [H2 H2']. split.
  - intros file content H. by apply H2, H1.
  - intros file H. by rewrite H2', H1'.
Qed.

Lemma grows_readonly {A} files (m : io A) : readonly m → grows files m.
Proof. intros Hm fs. rewrite Hm. apply creates_only_refl. Qed.

Lemma grows_bind {A B} files (m : io A) (f : A → io B) :
  grows files m → (∀ a, grows files (f a)) → grows files (m ≫= f).
Proof.
  intros Hm Hf fs. specialize (Hm fs). unfold mbind, io_bind.
  destruct (m fs) as [[a|e] fs1]; simpl in *; [|done].
  eapply creates_only_trans; [exact Hm|apply Hf].
Qed.

Lemma grows_create {A} files file (text : outcome string) (k : io A) :
  file ∈ files → grows files k →
  grows files
    (present ← existsSync file;
     (if negb present then t ← lift text; writeFileSync file t else mret ());;
     k).
Proof.
  intros Hfile Hk fs.
  rewrite (io_bind_Return _ _ fs (bool_decide (is_Some (fs !! file))) fs) by done.
  destruct (fs !! file) as [old|] eqn:Hold.
  - rewrite bool_decide_eq_true_2 by done. simpl.
    rewrite (io_bind_Return _ _ fs () fs) by done. apply Hk.
  - rewrite bool_decide_eq_false_2 by (by intros [??]). simpl.
    destruct text as [t|e].
    + rewrite (io_bind_Return _ _ fs () (<[file := t]> fs)) by done.
      eapply creates_only_trans; [|apply Hk]. split.
      * intros file' content H. rewrite lookup_insert_ne; [done|]. congruence.
      * intros file' H. apply lookup_insert_ne. set_solver.
    + unfold mbind, io_bind, lift, reader. simpl. apply creates_only_refl.
Qed.

Section LoaderFrame.
Context (BigNumber_from : json → outcome Z) (path_join : string → string → string)
  (CONFIG_FILENAME PARAMS_FILENAME DEPLOYMENT_FILENAME
  OWNER_ACTIONS_FILENAME SYNTHS_FILENAME STAKING_REWARDS_FILENAME
  SHORTING_REWARDS_FILENAME VERSIONS_FILENAME FEEDS_FILENAME
  FUTURES_MARKETS_FILENAME : string)
  (getSynths getStakingRewards getShortingRewards getVersions getFeeds
  : string → string → gmap string string → outcome json).

Local Abbreviation load := (loadAndCheckRequiredSources BigNumber_from path_join
  CONFIG_FILENAME PARAMS_FILENAME DEPLOYMENT_FILENAME
  OWNER_ACTIONS_FILENAME SYNTHS_FILENAME STAKING_REWARDS_FILENAME
  SHORTING_REWARDS_FILENAME VERSIONS_FILENAME FEEDS_FILENAME
  FUTURES_MARKETS_FILENAME getSynths getStakingRewards getShortingRewards
  getVersions getFeeds).

Lemma load_grows (deploymentPath network : string) (freshDeploy : bool) :
  grows [path_join deploymentPath DEPLOYMENT_FILENAME;
         path_join deploymentPath OWNER_ACTIONS_FILENAME]
    (load deploymentPath network freshDeploy).
Proof.
  unfold loadAndCheckRequiredSources.
  do 3 (apply grows_bind; [apply grows_readonly, readonly_reader|intros ?]).
  do 3 (apply grows_bind; [apply grows_readonly, readonly_read_json|intros ?]).
  apply grows_bind.
  { apply grows_readonly, readonly_if; [apply readonly_reader|apply readonly_mret]. }
  intros ?. apply grows_bind; [apply grows_readonly, readonly_reader|intros ?].
  apply grows_create; [set_solver|].
  apply grows_bind; [apply grows_readonly, readonly_read_json|intros ?].
  apply grows_bind.
  { apply grows_readonly, readonly_if; [apply readonly_reader|apply readonly_mret]. }
  intros ?. apply grows_create; [set_solver|].
  apply grows_bind; [apply grows_readonly, readonly_read_json|intros ?].
  apply grows_readonly, readonly_mret.
Qed.

(** X6: however [loadAndCheckRequiredSources] ends, by returning or by
    throwing, it has changed no file that existed and has created no file
    other than the deployment record and the owner-actions ledger. *)
Theorem loadAndCheckRequiredSources_creates_only
    (deploymentPath network : string) (freshDeploy : bool)
    (fs : gmap string string) :
  creates_only
    [path_join deploymentPath DEPLOYMENT_FILENAME;
     path_join deploymentPath OWNER_ACTIONS_FILENAME]
    fs (snd (load deploymentPath network freshDeploy fs)).
Proof. apply load_grows. Qed.

Ltac read_step H :=
  let Hs := fresh "Hs" in
  let a := fresh "a" in
  let fs1 := fresh "fs1" in
  apply io_bind_Return_inv in H as (a & fs1 & Hs & H);
  apply (f_equal snd) in Hs;
  first [ rewrite (readonly_reader _ _) in Hs
        | rewrite (readonly_read_json _ _) in Hs
        | rewrite (readonly_if _ _ _ (readonly_reader _) (readonly_mret _) _) in Hs ];
  simpl in Hs; subst fs1.

(** X7: whenever the call with [freshDeploy] returns, the deployment record
    it returns is an object with empty [targets] and [sources]: it is the
    record read from disk with the two cleared. The clearing is in memory
    only: a record file that existed still holds its text, targets
    included. *)
Theorem freshDeploy_clears_in_memory (deploymentPath network : string)
    (fs fs' : gmap string string) (s : sources) :
  load deploymentPath network true fs = (Return s, fs') →
  ∃ props,
    deployment s = cleared props
    ∧ get (deployment s) "targets" = Some (VObj [])
    ∧ get (deployment s) "sources" = Some (VObj [])
    ∧ ∀ text, fs !! path_join deploymentPath DEPLOYMENT_FILENAME = Some text →
        JSON_parse text = Return (VObj props)
        ∧ fs' !! path_join deploymentPath DEPLOYMENT_FILENAME = Some text.
Proof.
  intros H.
  assert (∀ text, fs !! path_join deploymentPath DEPLOYMENT_FILENAME = Some text →
                  fs' !! path_join deploymentPath DEPLOYMENT_FILENAME = Some text)
    as Hdisk.
  { intros text Htext. pose proof (load_grows deploymentPath network true fs) as [Hg _].
    rewrite H in Hg. by apply Hg. }
  unfold loadAndCheckRequiredSources in H.
  do 8 read_step H.
  rewrite (create_then_read BigNumber_from _ _ _ _ _ (default_record_text BigNumber_from)) in H.
  set (record_file := path_join deploymentPath DEPLOYMENT_FILENAME) in *.
  assert (∃ props,
    match fs !! record_file with
    | Some old => JSON_parse old = Return (VObj props)
    | None => True
    end ∧ deployment s = cleared props) as (props & Hparse & Hs).
  { destruct (fs !! record_file) as [old|].
    - destruct (JSON_parse old) as [d|e]; [|done].
      apply io_bind_Return_inv in H as (d' & fs1 & Hclear & H).
      unfold lift, reader in Hclear.
      destruct d as [| | | | |props]; try done. simpl in Hclear. simplify_eq.
      exists props. split; [done|].
      do 3 apply io_bind_Return_inv in H as (? & ? & _ & H).
      unfold mret, io_ret in H. by simplify_eq.
    - rewrite (default_record_parses) in H.
      apply io_bind_Return_inv in H as (d' & fs1 & Hclear & H).
      unfold lift, reader in Hclear. simpl in Hclear. simplify_eq.
      exists [("targets", VObj []); ("sources", VObj [])]. split; [done|].
      do 3 apply io_bind_Return_inv in H as (? & ? & _ & H).
      unfold mret, io_ret in H. by simplify_eq. }
  exists props. rewrite Hs. split_and!; [done| | |].
  - unfold cleared. simpl. by rewrite !get_prop_set_prop.
  - unfold cleared. simpl. by rewrite !get_prop_set_prop.
  - intros text Htext. rewrite Htext in Hparse. auto.
Qed.
End LoaderFrame.

Lemma pair_of_fst {A B} (p : A * B) (a : A) : fst p = a → p = (a, snd p).
Proof. destruct p. simpl. by intros ->. Qed.

Lemma freshDeploy_clears_in_memory_witness :
  ∃ props,
    cleared props
    = VObj [("targets", VObj []); ("sources", VObj []); ("note", VBool true)]
    ∧ JSON_parse Sample.deployed_text = Return (VObj props).
Proof.
  assert (fst (Sample.loadAndCheckRequiredSources "d" "goerli" true Sample.deployed)
    = Return (with_deployment Sample.loaded
         (VObj [("targets", VObj []); ("sources", VObj []); ("note", VBool true)])))
    as H.
  { vm_compute. reflexivity. }
  apply pair_of_fst in H.
  destruct (freshDeploy_clears_in_memory Sample.BigNumber_from Sample.path_join
      "config.json" "params.json" "deployment.json" "owner-actions.json"
      "synths.json" "rewards.json" "shorting-rewards.json" "versions.json"
      "feeds.json" "futures-markets.json"
      (Sample.load_file "synths.json") (Sample.load_file "rewards.json")
      (Sample.load_file "shorting-rewards.json") (Sample.load_file "versions.json")
      (Sample.load_file "feeds.json") "d" "goerli" Sample.deployed _ _ H)
    as (props & Hs & _ & _ & Hdisk).
  exists props. split; [symmetry; exact Hs|].
  apply (Hdisk Sample.deployed_text). vm_compute. reflexivity.
Defined.


(** ** [stringify]: failure and stability *)

Section StringifyMore.
Context (BigNumber_from : json → outcome Z).

Lemma stringify_render value :
  stringify BigNumber_from value
  = r ← render BigNumber_from value; Return (serialize EmptyString r +:+ nl).
Proof.
  unfold stringify, JSON_stringify. rewrite SerializeJSONProperty_render.
  by destruct (render BigNumber_from value).
Qed.

Lemma parse_serialized r :
  json_ok r = true → JSON_parse (serialize EmptyString r +:+ nl) = Return r.
Proof.
  intros Hok. unfold JSON_parse.
  rewrite (all_read_back r); [done|done|done|apply delimited_nl|].
  rewrite str_app_length. pose proof (size_le_length EmptyString r). lia.
Qed.

Lemma mapM_Throw {A B} (f : A → outcome B) l e :
  mapM f l = Throw e → ∃ x, x ∈ l ∧ f x = Throw e.
Proof.
  induction l as [|x l IH]; simpl; [done|].
  destruct (f x) as [y|e'] eqn:Hx; simpl.
  - destruct (mapM f l) as [ys|e'] eqn:Hl; simpl; [done|].
    intros [= ->]. destruct (IH eq_refl) as (x' & Hin & Hx').
    exists x'. split; [set_solver|done].
  - intros [= ->]. exists x. split; [set_solver|done].
Qed.

Lemma render_Throw value e :
  render BigNumber_from value = Throw e →
  ∃ props, is_string (get_prop "type" props) "BigNumber" = true
    ∧ BigNumber_from (VObj props) = Throw e.
Proof.
  induction value as [|b|n|s|elems IH|props IH] using json_ind; try done.
  - simpl. destruct (mapM _ elems) as [|e'] eqn:Hm; [done|]. simpl.
    intros [= ->]. apply mapM_Throw in Hm as (x & Hin & Hx).
    rewrite Forall_forall in IH. by apply (IH x).
  - simpl. destruct (is_string _ _) eqn:Hshape.
    + destruct (BigNumber_from (VObj props)) as [|e'] eqn:Hn; [done|].
      simpl. intros [= ->]. by exists props.
    + destruct (mapM _ props) as [|e'] eqn:Hm; [done|]. simpl.
      intros [= ->]. apply mapM_Throw in Hm as ([k v] & Hin & Hx).
      rewrite Forall_forall in IH. apply (IH (k, v) Hin). cbn [fst snd] in *.
      destruct (render BigNumber_from v); simpl in Hx; [done|by simplify_eq].
Qed.

(** X8: [stringify] can fail in one way only: by the numeric library
    rejecting an object shaped like a [BigNumber]. On a value with no such
    object it returns; it returns whenever the library accepts every such
    object; and an exception it throws is one that [BigNumber.from] threw
    on an object of that shape. *)
Theorem stringify_throws_only_BigNumber (value : json) :
  (plain value = true → returns (stringify BigNumber_from value))
  ∧ ((∀ props, is_string (get_prop "type" props) "BigNumber" = true →
               returns (BigNumber_from (VObj props))) →
     returns (stringify BigNumber_from value))
  ∧ ∀ e, stringify BigNumber_from value = Throw e →
      ∃ props, is_string (get_prop "type" props) "BigNumber" = true
        ∧ BigNumber_from (VObj props) = Throw e.
Proof.
  assert (∀ e, stringify BigNumber_from value = Throw e →
      ∃ props, is_string (get_prop "type" props) "BigNumber" = true
        ∧ BigNumber_from (VObj props) = Throw e) as Hthrow.
  { intros e. rewrite stringify_render.
    destruct (render BigNumber_from value) as [r|e'] eqn:Hr; [done|].
    simpl. intros [= ->]. by apply render_Throw in Hr. }
  split_and!; [| |done].
  - intros Hplain. rewrite stringify_render, render_plain by done. by eexists.
  - intros Hall. destruct (stringify BigNumber_from value) as [text|e] eqn:Hs.
    + by eexists.
    + destruct (Hthrow e eq_refl) as (props & Hshape & He).
      destruct (Hall props Hshape) as [n Hn]. congruence.
Qed.

Lemma render_not_BigNumber_string v v' :
  render BigNumber_from v = Return v' →
  is_string (Some v) "BigNumber" = false → is_string (Some v') "BigNumber" = false.
Proof.
  destruct v as [| | | |elems|props]; try (by intros [= <-]).
  - simpl. destruct (mapM _ elems); [|done]. by intros [= <-].
  - simpl. destruct (is_string _ _).
    + destruct (BigNumber_from _) as [n|]; [|done]. simpl. intros [= <-] _.
      apply bool_decide_eq_false. intros Hn.
      destruct (Number_toString_start n) as (c & t & Hc & Hin).
      rewrite Hn in Hc. injection Hc as <- _. set_solver.
    + destruct (mapM _ props); [|done]. by intros [= <-].
Qed.

Lemma render_type (props props' : list (string * json)) :
  props'.*1 = props.*1 →
  Forall2 (λ p p', render BigNumber_from (snd p) = Return (snd p')) props props' →
  is_string (get_prop "type" props) "BigNumber" = false →
  is_string (get_prop "type" props') "BigNumber" = false.
Proof.
  intros Hkeys Hall. induction Hall as [|[k v] [k' v'] l l' Hv _ IH]; [done|].
  simpl in *. injection Hkeys as -> Hkeys. case_bool_decide.
  - by apply render_not_BigNumber_string.
  - by apply IH.
Qed.

(** A rendered value has nothing shaped like a [BigNumber] left in it. *)
Lemma render_is_plain value :
  ∀ r, render BigNumber_from value = Return r → plain r = true.
Proof.
  induction value as [|b|n|s|elems IH|props IH] using json_ind; intros r;
    try (by intros [= <-]).
  - simpl. destruct (mapM _ elems) as [elems'|] eqn:Hm; [|done]. simpl.
    intros [= <-]. simpl. apply mapM_render_elems in Hm.
    clear -IH Hm. induction Hm as [|x x' l l' Hx _ IHl]; [done|].
    apply Forall_cons in IH as [IHx IH]. simpl.
    apply andb_true_iff. split; [by apply IHx|by apply IHl].
  - simpl. destruct (is_string _ _) eqn:Hshape.
    { destruct (BigNumber_from _); [|done]. by intros [= <-]. }
    destruct (mapM _ props) as [props'|] eqn:Hm; [|done]. simpl.
    intros [= <-]. simpl. apply mapM_render_keys in Hm as [Hkeys Hm].
    rewrite (render_type props props') by done. simpl.
    clear -IH Hm. induction Hm as [|[k v] [k' v'] l l' Hv _ IHl]; [done|].
    apply Forall_cons in IH as [IHv IH]. simpl in *.
    apply andb_true_iff. split; [by apply IHv|by apply IHl].
Qed.

(** X9: a text that [stringify] wrote is stable: [JSON.parse] reads it, and
    [stringify] of what was read is the same text again, character for
    character. *)
Theorem stringify_stable (value : json) (text : string) :
  json_ok value = true →
  stringify BigNumber_from value = Return text →
  ∃ r, JSON_parse text = Return r
    ∧ stringify BigNumber_from r = Return text.
Proof.
  intros Hok. rewrite stringify_render.
  destruct (render BigNumber_from value) as [r|] eqn:Hr; [|done]. simpl.
  intros [= <-]. exists r. split.
  - apply parse_serialized. by eapply render_ok.
  - rewrite stringify_render, render_plain; [done|]. by eapply render_is_plain.
Qed.
End StringifyMore.

Lemma stringify_stable_witness :
  ∃ r, JSON_parse (serialize EmptyString Sample.ledger_read_back +:+ nl) = Return r
    ∧ stringify Sample.BigNumber_from r
      = Return (serialize EmptyString Sample.ledger_read_back +:+ nl).
Proof.
  apply (stringify_stable Sample.BigNumber_from Sample.ledger).
  - vm_compute. reflexivity.
  - vm_compute. reflexivity.
Defined.

(** ** [appendOwnerActionGenerator] *)

Lemma set_prop_set_prop k v1 v2 props :
  set_prop k v2 (set_prop k v1 props) = set_prop k v2 props.
Proof.
  induction props as [|[k0 v0] props IH]; simpl.
  - by rewrite bool_decide_eq_true_2.
  - destruct (bool_decide (k0 = k)) eqn:Hk; simpl.
    + by rewrite bool_decide_eq_true_2.
    + by rewrite Hk, IH.
Qed.

Lemma set_prop_keys k v props :
  (set_prop k v props).*1
  = if bool_decide (k ∈ props.*1) then props.*1 else props.*1 ++ [k].
Proof.
  induction props as [|[k0 v0] props IH].
  - cbn. case_bool_decide; [set_solver|done].
  - cbn [set_prop]. destruct (bool_decide (k0 = k)) eqn:Hk.
    + apply bool_decide_eq_true in Hk as ->. cbn.
      rewrite bool_decide_eq_true_2; [done|]. set_solver.
    + apply bool_decide_eq_false in Hk. rewrite !fmap_cons, IH. cbn [fst].
      repeat case_bool_decide; set_solver.
Qed.

Lemma set_prop_NoDup k v props : NoDup props.*1 → NoDup (set_prop k v props).*1.
Proof.
  intros Hnodup. rewrite set_prop_keys. case_bool_decide; [done|].
  apply NoDup_app. split_and!; [done| |apply NoDup_singleton]. set_solver.
Qed.

Lemma set_prop_forallb (P : json → bool) k v props :
  P v = true → forallb (λ p, P (snd p)) props = true →
  forallb (λ p, P (snd p)) (set_prop k v props) = true.
Proof.
  intros Hv. induction props as [|[k0 v0] props IH]; simpl.
  - by rewrite Hv.
  - intros [H0 Hrest]%andb_true_iff. case_bool_decide; simpl.
    + by rewrite Hv, Hrest.
    + by rewrite H0, IH.
Qed.

Lemma set_prop_json_ok k v props :
  json_ok (VObj props) = true → json_ok v = true →
  json_ok (VObj (set_prop k v props)) = true.
Proof.
  simpl. intros [Hnodup Hall]%andb_true_iff Hv.
  apply bool_decide_eq_true in Hnodup. apply andb_true_iff. split.
  - apply bool_decide_eq_true. by apply set_prop_NoDup.
  - by apply set_prop_forallb.
Qed.

Lemma set_prop_plain k v props :
  plain (VObj props) = true → plain v = true →
  (∀ s, v ≠ VStr s) →
  plain (VObj (set_prop k v props)) = true.
Proof.
  simpl. intros [Hshape Hall]%andb_true_iff Hv Hstr.
  apply andb_true_iff. split.
  - rewrite get_prop_set_prop. case_bool_decide; [|done].
    destruct v; try done. by destruct (Hstr s).
  - by apply set_prop_forallb.
Qed.

Lemma ownerAction_json_ok prefix action target data :
  json_ok action = true → json_ok target = true → json_ok data = true →
  json_ok (ownerAction prefix action target data) = true.
Proof.
  intros Ha Ht Hd. unfold ownerAction. cbn [json_ok forallb snd].
  rewrite Ha, Ht, Hd. rewrite bool_decide_eq_true_2; [done|].
  cbn. repeat constructor; set_solver.
Qed.

Lemma ownerAction_plain prefix action target data :
  plain action = true → plain target = true → plain data = true →
  plain (ownerAction prefix action target data) = true.
Proof. intros Ha Ht Hd. unfold ownerAction. simpl. by rewrite Ha, Ht, Hd. Qed.

Lemma mapM_set_prop_Throw {B} (f : string * json → outcome B) k v props e :
  Forall (λ p, returns (f p)) props → f (k, v) = Throw e →
  mapM f (set_prop k v props) = Throw e.
Proof.
  intros Hall Hv. induction Hall as [|[k0 v0] props [y Hy] _ IH]; simpl.
  - by rewrite Hv.
  - case_bool_decide; simpl.
    + by rewrite Hv.
    + by rewrite Hy, IH.
Qed.

Section OwnerActionsProps.
Context (BigNumber_from : json → outcome Z).
Context (ownerActionsFile explorerLinkPrefix : string).

Local Abbreviation appendOwnerAction :=
  (appendOwnerActionGenerator BigNumber_from ownerActionsFile explorerLinkPrefix).

(** X10: recording an action under an ordinary key in a ledger of the
    embedding, when the numbers in it can be written: the call returns;
    the ledger in memory holds the new entry under the key (with
    [complete] false and the link to the target) and every other entry as
    before; the ledger file holds the whole ledger, whatever it held
    before, and [JSON.parse] reads it back as the ledger in memory with
    its BigNumber-shaped values rendered, which is the ledger itself when
    it has none. *)
Theorem appendOwnerAction_persists
    (key : string) (action target data : json)
    (props : list (string * json)) (fs : gmap string string) (rendered : json) :
  ordinary_key key = true →
  json_ok (VObj props) = true →
  json_ok action = true → json_ok target = true → json_ok data = true →
  render BigNumber_from
    (VObj (with_action explorerLinkPrefix key action target data props))
    = Return rendered →
  ∃ text,
    appendOwnerAction key action target data (VObj props) fs
      = (Return (),
         VObj (with_action explorerLinkPrefix key action target data props),
         <[ownerActionsFile := text]> fs)
    ∧ read_json ownerActionsFile (<[ownerActionsFile := text]> fs)
      = (Return rendered, <[ownerActionsFile := text]> fs)
    ∧ get_prop key (with_action explorerLinkPrefix key action target data props)
      = Some (VObj [ ("target", target); ("action", action);
                     ("complete", VBool false);
                     ("link", VStr (explorerLinkPrefix +:+ "/address/"
                                    +:+ ToString target +:+ "#writeContract"));
                     ("data", data) ])
    ∧ (∀ k, k ≠ key →
         get_prop k (with_action explorerLinkPrefix key action target data props)
         = get_prop k props)
    ∧ (plain (VObj props) = true → plain action = true → plain target = true →
       plain data = true →
       rendered
       = VObj (with_action explorerLinkPrefix key action target data props)).
Proof.
  intros Hkey Hok Ha Ht Hd Hrender. unfold with_action in *.
  exists (serialize EmptyString rendered +:+ nl).
  assert (json_ok (VObj (set_prop key
            (ownerAction explorerLinkPrefix action target data) props)) = true)
    as Hledger.
  { apply set_prop_json_ok; [done|]. by apply ownerAction_json_ok. }
  split_and!.
  - unfold appendOwnerActionGenerator. rewrite Hkey. simpl.
    by rewrite stringify_render, Hrender.
  - rewrite (read_json_present _ _ (serialize EmptyString rendered +:+ nl))
      by apply lookup_insert_eq.
    rewrite parse_serialized; [done|]. by eapply render_ok.
  - rewrite get_prop_set_prop. by rewrite bool_decide_eq_true_2.
  - intros k Hk. rewrite get_prop_set_prop. by rewrite bool_decide_eq_false_2.
  - intros Hp Hpa Hpt Hpd. rewrite render_plain in Hrender; [by simplify_eq|].
    apply set_prop_plain; [done|by apply ownerAction_plain|done].
Qed.

(** X11: recording an action again under a key replaces the earlier entry.
    After two calls with the same ordinary key on a ledger that is not an
    array, the ledger in memory and the way the second call ended are what
    one call with the second action would have given on the first ledger,
    and so is the file system when that call returns. This holds also
    when a call throws. *)
Theorem appendOwnerAction_same_key
    (key : string) (action1 target1 data1 action2 target2 data2 : json)
    (ownerActions : json) (fs : gmap string string) :
  ordinary_key key = true → isArray ownerActions = false →
  let '(_, ledger1, fs1) :=
    appendOwnerAction key action1 target1 data1 ownerActions fs in
  let '(result2, ledger2, fs2) :=
    appendOwnerAction key action2 target2 data2 ledger1 fs1 in
  let '(result, ledger, fs') :=
    appendOwnerAction key action2 target2 data2 ownerActions fs in
  result2 = result ∧ ledger2 = ledger ∧ (returns result → fs2 = fs').
Proof.
  intros Hkey Harray. unfold appendOwnerActionGenerator. rewrite Hkey. simpl.
  destruct ownerActions as [| | | | |props]; simpl; try done.
  destruct (stringify BigNumber_from (VObj (set_prop key _ props))) as [text1|e1];
    simpl; rewrite set_prop_set_prop;
    (destruct (stringify BigNumber_from (VObj (set_prop key _ props))) as [text|e];
     simpl; split_and!).
  all: try done.
  - intros _. apply insert_insert_eq.
  - by intros [??].
Qed.

(** X12: a call with an ordinary key on a ledger that is not an array
    changes no file other than the ledger file. When it returns, the
    ledger file holds the text of the ledger in memory; when it throws,
    it has written nothing. *)
Theorem appendOwnerAction_frame
    (key : string) (action target data : json)
    (ownerActions : json) (fs : gmap string string) :
  ordinary_key key = true → isArray ownerActions = false →
  let '(result, ledger, fs') :=
    appendOwnerAction key action target data ownerActions fs in
  (∀ file, file ≠ ownerActionsFile → fs' !! file = fs !! file)
  ∧ (returns result →
     ∃ text, stringify BigNumber_from ledger = Return text
       ∧ fs' = <[ownerActionsFile := text]> fs)
  ∧ (throws result → fs' = fs).
Proof.
  intros Hkey Harray. unfold appendOwnerActionGenerator. rewrite Hkey. simpl.
  destruct (assign ownerActions key _) as [ledger|e];
    [|split_and!; [done|by intros [??]|done]].
  destruct (stringify BigNumber_from ledger) as [text|e] eqn:Htext;
    [|split_and!; [done|by intros [??]|done]].
  simpl. split_and!.
  - intros file Hfile. by apply lookup_insert_ne.
  - intros _. by exists text.
  - by intros [??].
Qed.

(** X13: when the data of an action is shaped like a [BigNumber] that the
    numeric library rejects (on an otherwise plain ledger, under an
    ordinary key), the call throws the exception of the library and writes
    nothing, but the ledger in memory already holds the new entry: memory
    and disk then disagree. *)
Theorem appendOwnerAction_unwritten
    (key : string) (action target : json) (number props : list (string * json))
    (fs : gmap string string) (e : exn) :
  ordinary_key key = true →
  plain (VObj props) = true → plain action = true → plain target = true →
  is_string (get_prop "type" number) "BigNumber" = true →
  BigNumber_from (VObj number) = Throw e →
  appendOwnerAction key action target (VObj number) (VObj props) fs
  = (Throw e,
     VObj (with_action explorerLinkPrefix key action target (VObj number) props),
     fs).
Proof.
  intros Hkey Hprops Haction Htarget Hshape Hthrow.
  unfold appendOwnerActionGenerator, with_action. rewrite Hkey. simpl.
  rewrite stringify_render.
  assert (render BigNumber_from
            (ownerAction explorerLinkPrefix action target (VObj number))
          = Throw e) as Hentry.
  { unfold ownerAction. cbn [render]. simpl get_prop. cbn [is_string].
    simpl mapM. rewrite !render_plain by done. simpl.
    by rewrite Hshape, Hthrow. }
  assert (render BigNumber_from
            (VObj (set_prop key
               (ownerAction explorerLinkPrefix action target (VObj number)) props))
          = Throw e) as ->; [|done].
  simpl in Hprops. apply andb_true_iff in Hprops as [Hunshaped Hall].
  cbn [render]. rewrite get_prop_set_prop.
  assert ((if bool_decide (key = "type")
           then is_string (Some (ownerAction explorerLinkPrefix action target
                                   (VObj number))) "BigNumber"
           else is_string (get_prop "type" props) "BigNumber") = false) as Hno.
  { case_bool_decide; [done|]. by apply negb_true_iff. }
  destruct (bool_decide (key = "type")); rewrite Hno;
    (rewrite (mapM_set_prop_Throw _ _ _ _ e);
     [done| |by cbn [fst snd]; rewrite Hentry]);
    (apply Forall_forall; intros [k v] Hin;
     rewrite forallb_forall in Hall; specialize (Hall (k, v));
     cbn [snd fst] in *; rewrite render_plain; [by eexists|];
     apply Hall; by apply list_elem_of_In).
Qed.
End OwnerActionsProps.

Lemma appendOwnerAction_persists_witness :
  ∃ text,
    appendOwnerActionGenerator Sample.BigNumber_from "d/owner-actions.json"
      "https://goerli.etherscan.io" "ProxyERC20.setTarget"
      (VStr "setTarget(address)") (VStr "0x0001") (VStr "0xabcd")
      (VObj [("Issuer.nominateNewOwner", VNull)])
      {["d/owner-actions.json" := "{}"]}
    = (Return (),
       VObj [ ("Issuer.nominateNewOwner", VNull);
              ("ProxyERC20.setTarget",
               VObj [ ("target", VStr "0x0001");
                      ("action", VStr "setTarget(address)");
                      ("complete", VBool false);
                      ("link", VStr "https://goerli.etherscan.io/address/0x0001#writeContract");
                      ("data", VStr "0xabcd") ]) ],
       {["d/owner-actions.json" := text]})
    ∧ JSON_parse text
      = Return (VObj [ ("Issuer.nominateNewOwner", VNull);
              ("ProxyERC20.setTarget",
               VObj [ ("target", VStr "0x0001");
                      ("action", VStr "setTarget(address)");
                      ("complete", VBool false);
                      ("link", VStr "https://goerli.etherscan.io/address/0x0001#writeContract");
                      ("data", VStr "0xabcd") ]) ]).
Proof.
  destruct (appendOwnerAction_persists Sample.BigNumber_from "d/owner-actions.json"
      "https://goerli.etherscan.io" "ProxyERC20.setTarget"
      (VStr "setTarget(address)") (VStr "0x0001") (VStr "0xabcd")
      [("Issuer.nominateNewOwner", VNull)]
      {["d/owner-actions.json" := "{}"]}
      (VObj [ ("Issuer.nominateNewOwner", VNull);
              ("ProxyERC20.setTarget",
               VObj [ ("target", VStr "0x0001");
                      ("action", VStr "setTarget(address)");
                      ("complete", VBool false);
                      ("link", VStr "https://goerli.etherscan.io/address/0x0001#writeContract");
                      ("data", VStr "0xabcd") ]) ]))
    as (text & Hcall & Hread & _); try reflexivity.
  exists text. split.
  - rewrite Hcall. by rewrite insert_singleton_eq.
  - rewrite (read_json_present _ _ text) in Hread by apply lookup_insert_eq.
    by injection Hread.
Defined.

Lemma appendOwnerAction_same_key_witness :
  let '(_, ledger1, fs1) :=
    appendOwnerActionGenerator Sample.BigNumber_from "d/owner-actions.json"
      "https://goerli.etherscan.io" "Issuer.setMinimumStake"
      (VStr "setMinimumStake(uint256)") (VStr "0x0001") (VNum 1) (VObj []) ∅ in
  let '(result2, ledger2, fs2) :=
    appendOwnerActionGenerator Sample.BigNumber_from "d/owner-actions.json"
      "https://goerli.etherscan.io" "Issuer.setMinimumStake"
      (VStr "setMinimumStake(uint256)") (VStr "0x0001") (VNum 2) ledger1 fs1 in
  let '(result, ledger, fs') :=
    appendOwnerActionGenerator Sample.BigNumber_from "d/owner-actions.json"
      "https://goerli.etherscan.io" "Issuer.setMinimumStake"
      (VStr "setMinimumStake(uint256)") (VStr "0x0001") (VNum 2) (VObj []) ∅ in
  result2 = result ∧ ledger2 = ledger ∧ (returns result → fs2 = fs').
Proof.
  apply (appendOwnerAction_same_key Sample.BigNumber_from "d/owner-actions.json"
    "https://goerli.etherscan.io" "Issuer.setMinimumStake"
    (VStr "setMinimumStake(uint256)") (VStr "0x0001") (VNum 1)
    (VStr "setMinimumStake(uint256)") (VStr "0x0001") (VNum 2) (VObj []) ∅);
    reflexivity.
Defined.

Lemma appendOwnerAction_frame_witness :
  let '(result, ledger, fs') :=
    appendOwnerActionGenerator Sample.BigNumber_from "d/owner-actions.json"
      "https://goerli.etherscan.io" "Issuer.setMinimumStake"
      (VStr "setMinimumStake(uint256)") (VStr "0x0001") (VNum 1) VNull
      {["d/owner-actions.json" := "null"]} in
  (∀ file, file ≠ "d/owner-actions.json" →
     fs' !! file = ({["d/owner-actions.json" := "null"]} : gmap string string) !! file)
  ∧ (returns result →
     ∃ text, stringify Sample.BigNumber_from ledger = Return text
       ∧ fs' = <["d/owner-actions.json" := text]> {["d/owner-actions.json" := "null"]})
  ∧ (throws result → fs' = {["d/owner-actions.json" := "null"]}).
Proof.
  apply (appendOwnerAction_frame Sample.BigNumber_from "d/owner-actions.json"
    "https://goerli.etherscan.io" "Issuer.setMinimumStake"
    (VStr "setMinimumStake(uint256)") (VStr "0x0001") (VNum 1) VNull
    {["d/owner-actions.json" := "null"]}); reflexivity.
Defined.

Lemma appendOwnerAction_unwritten_witness :
  appendOwnerActionGenerator Sample.BigNumber_from "d/owner-actions.json"
    "https://goerli.etherscan.io" "Issuer.setMinimumStake"
    (VStr "setMinimumStake(uint256)") (VStr "0x0001")
    (VObj [("type", VStr "BigNumber"); ("hex", VStr "1e18")])
    (VObj []) ∅
  = (Throw (Exn ArgumentError "invalid BigNumber string"),
     VObj [ ("Issuer.setMinimumStake",
             VObj [ ("target", VStr "0x0001");
                    ("action", VStr "setMinimumStake(uint256)");
                    ("complete", VBool false);
                    ("link", VStr "https://goerli.etherscan.io/address/0x0001#writeContract");
                    ("data", VObj [("type", VStr "BigNumber"); ("hex", VStr "1e18")]) ]) ],
     ∅).
Proof.
  apply (appendOwnerAction_unwritten Sample.BigNumber_from "d/owner-actions.json"
    "https://goerli.etherscan.io" "Issuer.setMinimumStake"
    (VStr "setMinimumStake(uint256)") (VStr "0x0001")
    [("type", VStr "BigNumber"); ("hex", VStr "1e18")] [] ∅); reflexivity.
Defined.

(** ** Console output: [parameterNotice] and [reportDeployedContracts] *)

Lemma mapM_outcome_Return {A B} (f : A → outcome B) l k :
  Forall2 (λ x y, f x = Return y) l k → mapM f l = Return k.
Proof.
  induction 1 as [|x y l k Hx _ IH]; [done|]. simpl. by rewrite Hx, IH.
Qed.

Lemma mapM_outcome_Throw {A B} (f : A → outcome B) l x rest e :
  Forall (λ x, returns (f x)) l → f x = Throw e →
  mapM f (l ++ x :: rest) = Throw e.
Proof.
  intros Hl Hx. induction Hl as [|y l [b Hy] _ IH]; simpl.
  - by rewrite Hx.
  - by rewrite Hy, IH.
Qed.

Section ConsoleProps.
Context (gray green : string → string) (redBright : json → string)
  (table : list (string * string * option json) → outcome string).

Lemma parameterNotice_entries_short entries log :
  Forall (λ p, (String.length (fst p) ≤ 40)%nat) entries →
  ∃ body,
    parameterNotice_entries gray redBright entries log
    = Printed (log ++ body ++ [gray (repeat_string 50 "-")]) None
    ∧ Forall2 (parameter_line gray redBright) entries body.
Proof.
  intros Hall. revert log. induction Hall as [|[key val] entries Hkey _ IH];
    intros log.
  - exists []. split; [done|constructor].
  - cbn [parameterNotice_entries]. unfold String_repeat. simpl in Hkey.
    rewrite (proj2 (Z.ltb_ge _ _)) by lia.
    destruct (IH (log ++ [gray key +:+ repeat_string
                    (Z.to_nat (40 - Z.of_nat (String.length key))) " "
                    +:+ redBright val])) as (body & -> & Hbody).
    eexists (_ :: body). split.
    + by rewrite <- app_assoc.
    + constructor; [|done]. eexists. split; [done|]. simpl. lia.
Qed.

Lemma parameterNotice_entries_long before key val after log :
  Forall (λ p, (String.length (fst p) ≤ 40)%nat) before →
  (40 < String.length key)%nat →
  ∃ body,
    parameterNotice_entries gray redBright (before ++ (key, val) :: after) log
    = Printed (log ++ body)
        (Some (RangeError ("Invalid count value: "
                 +:+ Number_toString (40 - Z.of_nat (String.length key)))))
    ∧ Forall2 (parameter_line gray redBright) before body.
Proof.
  intros Hall Hkey. revert log. induction Hall as [|[k v] before Hk _ IH];
    intros log.
  - exists []. split; [|constructor].
    cbn [app parameterNotice_entries]. unfold String_repeat.
    rewrite (proj2 (Z.ltb_lt _ _)) by lia. by rewrite app_nil_r.
  - cbn [app parameterNotice_entries]. unfold String_repeat at 1. simpl in Hk.
    rewrite (proj2 (Z.ltb_ge _ _)) by lia.
    destruct (IH (log ++ [gray k +:+ repeat_string
                    (Z.to_nat (40 - Z.of_nat (String.length k))) " "
                    +:+ redBright v])) as (body & -> & Hbody).
    eexists (_ :: body). split.
    + by rewrite <- app_assoc.
    + constructor; [|done]. eexists. split; [done|]. simpl. lia.
Qed.

(** X14: when no parameter name is longer than forty characters,
    [parameterNotice] ends normally, having printed a rule of fifty
    dashes, the request to check, the rule, one line per parameter in the
    order of the object, and the rule again. Each parameter line is the
    name, padded with spaces to forty characters, followed by the value:
    the values start in the same column. *)
Theorem parameterNotice_aligned (props : list (string * json)) :
  Forall (λ p, (String.length (fst p) ≤ 40)%nat) props →
  ∃ body,
    parameterNotice gray redBright props
    = Printed
        ([ gray "--------------------------------------------------";
           "Please check the following parameters are correct:";
           gray "--------------------------------------------------" ]
         ++ body ++ [gray "--------------------------------------------------"])
        None
    ∧ Forall2 (parameter_line gray redBright) props body.
Proof.
  intros Hall. unfold parameterNotice.
  by apply parameterNotice_entries_short.
Qed.

(** X15: a parameter name longer than forty characters makes
    [parameterNotice] throw a [RangeError] (the count given to [repeat] is
    negative). The heading and the lines of the parameters before it have
    been printed by then; the line of that parameter, the lines of the
    parameters after it and the closing rule are not printed. *)
Theorem parameterNotice_long_name
    (before after : list (string * json)) (key : string) (val : json) :
  Forall (λ p, (String.length (fst p) ≤ 40)%nat) before →
  (40 < String.length key)%nat →
  ∃ body,
    parameterNotice gray redBright (before ++ (key, val) :: after)
    = Printed
        ([ gray "--------------------------------------------------";
           "Please check the following parameters are correct:";
           gray "--------------------------------------------------" ]
         ++ body)
        (Some (RangeError ("Invalid count value: "
                 +:+ Number_toString (40 - Z.of_nat (String.length key)))))
    ∧ Forall2 (parameter_line gray redBright) before body.
Proof.
  intros Hall Hkey. unfold parameterNotice.
  by apply parameterNotice_entries_long.
Qed.

(** X16: when the deployment record has no target for one of the newly
    deployed contracts (the contracts before it having one),
    [reportDeployedContracts] throws a [TypeError]: it reads [link] off
    [undefined]. Only the first line of the report, with the number of
    contracts, has been printed by then, and [table] is not called. *)
Theorem reportDeployedContracts_missing_target
    (deployer : Deployer.t) (record targets : list (string * json))
    (ahead rest : list (string * string)) (name address : string) :
  Deployer.deployment deployer = VObj record →
  get_prop "targets" record = Some (VObj targets) →
  Deployer.newContractsDeployed deployer = ahead ++ (name, address) :: rest →
  Forall (λ c, ∃ target, get_prop (fst c) targets = Some (VObj target)) ahead →
  get_prop name targets = None → inherited name = false →
  reportDeployedContracts gray green table deployer
  = Printed
      [ green (nl +:+ "Successfully deployed "
               +:+ Number_toString (Z.of_nat (length (ahead ++ (name, address) :: rest)))
               +:+ " contracts!" +:+ nl) ]
      (Some (Exn TypeError "Cannot read properties of undefined (reading 'link')")).
Proof.
  intros Hrecord Htargets Hnew Hdone Hname Hinherited.
  unfold reportDeployedContracts. rewrite Hrecord, Hnew.
  rewrite (mapM_outcome_Throw _ _ _ _
             (Exn TypeError "Cannot read properties of undefined (reading 'link')")).
  - done.
  - eapply Forall_impl; [exact Hdone|]. intros [n a] [target Hn].
    cbn [member fst snd] in *. rewrite Htargets. simpl. rewrite Hn. simpl.
    destruct (get_prop "link" target); by eexists.
  - cbn [member fst snd]. rewrite Htargets. simpl. by rewrite Hname, Hinherited.
Qed.

(** X17: when every newly deployed contract has a target (an object) in
    the deployment record, the report is: the line with the number of
    contracts, an empty line, and then either the note that nothing was
    deployed, when there is no contract, or the heading naming the
    network and the table of one row per contract, in order, each with
    the name, the address and the link of the target ([undefined] when
    the target has none). [table] is called only when there is a row, and
    an exception of [table] leaves the heading printed. *)
Theorem reportDeployedContracts_rows
    (deployer : Deployer.t) (record targets : list (string * json))
    (rows : list (string * string * option json)) :
  Deployer.deployment deployer = VObj record →
  get_prop "targets" record = Some (VObj targets) →
  Forall2 (report_row targets) (Deployer.newContractsDeployed deployer) rows →
  let first :=
    green (nl +:+ "Successfully deployed "
           +:+ Number_toString (Z.of_nat (length rows)) +:+ " contracts!" +:+ nl) in
  let heading :=
    gray ("All contracts deployed on " +:+ dquote +:+ Deployer.network deployer
          +:+ dquote +:+ " network:") in
  reportDeployedContracts gray green table deployer
  = match rows with
    | [] => Printed [first; EmptyString; gray "Note: No new contracts deployed."] None
    | _ =>
        match table rows with
        | Return text => Printed [first; EmptyString; heading; text] None
        | Throw e => Printed [first; EmptyString; heading] (Some e)
        end
    end.
Proof.
  intros Hrecord Htargets Hrows first heading.
  unfold reportDeployedContracts. rewrite Hrecord.
  rewrite (mapM_outcome_Return _ _ rows).
  - subst first. rewrite (Forall2_length _ _ _ Hrows). by destruct rows.
  - eapply Forall2_impl; [exact Hrows|]. intros [n a] row (target & Hn & ->).
    cbn [member fst snd] in *. rewrite Htargets. simpl. rewrite Hn. simpl.
    by destruct (get_prop "link" target).
Qed.
End ConsoleProps.

Lemma parameterNotice_aligned_witness :
  parameterNotice (λ s, s) ToString [("Network", VStr "goerli"); ("Dry Run", VBool true)]
  = Printed
      [ "--------------------------------------------------";
        "Please check the following parameters are correct:";
        "--------------------------------------------------";
        "Network                                 goerli";
        "Dry Run                                 true";
        "--------------------------------------------------" ]
      None.
Proof.
  destruct (parameterNotice_aligned (λ s, s) ToString
              [("Network", VStr "goerli"); ("Dry Run", VBool true)])
    as (body & -> & Hbody).
  - repeat constructor; simpl; lia.
  - apply Forall2_cons_inv_l in Hbody as (l1 & body1 & (n1 & -> & Hn1) & Hbody & ->).
    apply Forall2_cons_inv_l in Hbody as (l2 & body2 & (n2 & -> & Hn2) & Hbody & ->).
    apply Forall2_nil_inv_l in Hbody as ->.
    simpl in Hn1, Hn2. assert (n1 = 33%nat) as -> by lia.
    assert (n2 = 33%nat) as -> by lia. reflexivity.
Defined.

Lemma parameterNotice_long_name_witness :
  parameterNotice (λ s, s) ToString
    [ ("Network", VStr "goerli");
      ("A parameter whose name is longer than forty", VNum 1);
      ("Dry Run", VBool true) ]
  = Printed
      [ "--------------------------------------------------";
        "Please check the following parameters are correct:";
        "--------------------------------------------------";
        "Network                                 goerli" ]
      (Some (RangeError "Invalid count value: -3")).
Proof.
  destruct (parameterNotice_long_name (λ s, s) ToString
              [("Network", VStr "goerli")] [("Dry Run", VBool true)]
              "A parameter whose name is longer than forty" (VNum 1))
    as (body & Hcall & Hbody).
  - repeat constructor; simpl; lia.
  - simpl. lia.
  - cbn [app] in Hcall. rewrite Hcall.
    apply Forall2_cons_inv_l in Hbody as (l1 & body1 & (n1 & -> & Hn1) & Hbody & ->).
    apply Forall2_nil_inv_l in Hbody as ->.
    simpl in Hn1. assert (n1 = 33%nat) as -> by lia. reflexivity.
Defined.

Lemma reportDeployedContracts_missing_target_witness :
  reportDeployedContracts (λ s, s) (λ s, s) (λ _, Return "table")
    {| Deployer.newContractsDeployed :=
         [("Synthetix", "0x0001"); ("Issuer", "0x0002")];
       Deployer.deployment :=
         VObj [("targets", VObj [("Synthetix", VObj [("link", VStr "https://x")])])];
       Deployer.network := "goerli" |}
  = Printed [nl +:+ "Successfully deployed 2 contracts!" +:+ nl]
      (Some (Exn TypeError "Cannot read properties of undefined (reading 'link')")).
Proof.
  apply (reportDeployedContracts_missing_target (λ s, s) (λ s, s) (λ _, Return "table")
           _ [("targets", VObj [("Synthetix", VObj [("link", VStr "https://x")])])]
           [("Synthetix", VObj [("link", VStr "https://x")])]
           [("Synthetix", "0x0001")] [] "Issuer" "0x0002");
    try reflexivity.
  repeat constructor. by eexists.
Defined.

Lemma reportDeployedContracts_rows_witness :
  reportDeployedContracts (λ s, s) (λ s, s) (λ rows, Return "table")
    {| Deployer.newContractsDeployed :=
         [("Synthetix", "0x0001"); ("Issuer", "0x0002")];
       Deployer.deployment :=
         VObj [("targets",
                VObj [("Issuer", VObj []);
                      ("Synthetix", VObj [("link", VStr "https://x")])])];
       Deployer.network := "goerli" |}
  = Printed
      [ nl +:+ "Successfully deployed 2 contracts!" +:+ nl; EmptyString;
        "All contracts deployed on " +:+ dquote +:+ "goerli" +:+ dquote +:+ " network:";
        "table" ]
      None.
Proof.
  rewrite (reportDeployedContracts_rows (λ s, s) (λ s, s) (λ rows, Return "table")
           _ [("targets",
               VObj [("Issuer", VObj []);
                     ("Synthetix", VObj [("link", VStr "https://x")])])]
           [("Issuer", VObj []); ("Synthetix", VObj [("link", VStr "https://x")])]
           [("Synthetix", "0x0001", Some (VStr "https://x")); ("Issuer", "0x0002", None)]);
    try reflexivity.
  repeat constructor; by eexists.
Defined.

(** ** [loadAndCheckRequiredSources]: what it returns *)

Lemma read_json_inv file fs v fs' :
  read_json file fs = (Return v, fs') →
  fs' = fs ∧ ∃ text, fs !! file = Some text ∧ JSON_parse text = Return v.
Proof.
  intros H. pose proof (readonly_read_json file fs) as Hfs. rewrite H in Hfs.
  simpl in Hfs. subst fs'. split; [done|].
  unfold read_json, readFileSync, reader, mbind, io_bind in H.
  destruct (fs !! file) as [text|]; [|done]. exists text. split; [done|].
  unfold lift, reader in H. by simplify_eq.
Qed.

Lemma reader_inv {A} (f : gmap string string → outcome A) fs v fs' :
  reader f fs = (Return v, fs') → fs' = fs ∧ f fs = Return v.
Proof. unfold reader. by intros [= -> ->]. Qed.

Lemma create_if_missing_keeps file content fs file' text :
  fs !! file' = Some text → create_if_missing file content fs !! file' = Some text.
Proof. intros H. by rewrite create_if_missing_present. Qed.

Section LoaderReads.
Context (BigNumber_from : json → outcome Z) (path_join : string → string → string)
  (CONFIG_FILENAME PARAMS_FILENAME DEPLOYMENT_FILENAME
  OWNER_ACTIONS_FILENAME SYNTHS_FILENAME STAKING_REWARDS_FILENAME
  SHORTING_REWARDS_FILENAME VERSIONS_FILENAME FEEDS_FILENAME
  FUTURES_MARKETS_FILENAME : string)
  (getSynths getStakingRewards getShortingRewards getVersions getFeeds
  : string → string → gmap string string → outcome json).

Local Abbreviation load := (loadAndCheckRequiredSources BigNumber_from path_join
  CONFIG_FILENAME PARAMS_FILENAME DEPLOYMENT_FILENAME
  OWNER_ACTIONS_FILENAME SYNTHS_FILENAME STAKING_REWARDS_FILENAME
  SHORTING_REWARDS_FILENAME VERSIONS_FILENAME FEEDS_FILENAME
  FUTURES_MARKETS_FILENAME getSynths getStakingRewards getShortingRewards
  getVersions getFeeds).

(** What the loader read, when it returns. *)
Lemma load_returns_inv (deploymentPath network : string) (freshDeploy : bool)
    (fs fs' : gmap string string) (s : sources) :
  load deploymentPath network freshDeploy fs = (Return s, fs') →
  getSynths network deploymentPath fs = Return (synths s)
  ∧ getStakingRewards network deploymentPath fs = Return (stakingRewards s)
  ∧ getShortingRewards network deploymentPath fs = Return (shortingRewards s)
  ∧ (∃ text, fs !! path_join deploymentPath CONFIG_FILENAME = Some text
       ∧ JSON_parse text = Return (config s))
  ∧ (∃ text, fs !! path_join deploymentPath PARAMS_FILENAME = Some text
       ∧ JSON_parse text = Return (params s))
  ∧ (∃ text, fs !! path_join deploymentPath FUTURES_MARKETS_FILENAME = Some text
       ∧ JSON_parse text = Return (futuresMarkets s))
  ∧ (if bool_decide (network = "local") then versions s = VObj []
     else getVersions network deploymentPath fs = Return (versions s))
  ∧ getFeeds network deploymentPath fs = Return (feeds s)
  ∧ (freshDeploy = false →
     ∀ text, fs !! path_join deploymentPath DEPLOYMENT_FILENAME = Some text →
             JSON_parse text = Return (deployment s))
  ∧ (∀ text, fs !! path_join deploymentPath OWNER_ACTIONS_FILENAME = Some text →
             JSON_parse text = Return (ownerActions s)).
Proof.
  intros H. unfold loadAndCheckRequiredSources in H.
  apply io_bind_Return_inv in H as (vsynths & ? & [-> Hsynths]%reader_inv & H).
  apply io_bind_Return_inv in H as (vstaking & ? & [-> Hstaking]%reader_inv & H).
  apply io_bind_Return_inv in H as (vshorting & ? & [-> Hshorting]%reader_inv & H).
  apply io_bind_Return_inv in H as (vconfig & ? & [-> Hconfig]%read_json_inv & H).
  apply io_bind_Return_inv in H as (vparams & ? & [-> Hparams]%read_json_inv & H).
  apply io_bind_Return_inv in H as (vfutures & ? & [-> Hfutures]%read_json_inv & H).
  apply io_bind_Return_inv in H as (vversions & fs1 & Hversions & H).
  assert (fs1 = fs ∧
          if bool_decide (network = "local") then vversions = VObj []
          else getVersions network deploymentPath fs = Return vversions)
    as [-> Hv].
  { case_bool_decide; simpl in Hversions.
    - unfold mret, io_ret in Hversions. by simplify_eq.
    - by apply reader_inv in Hversions as [-> ?]. }
  apply io_bind_Return_inv in H as (vfeeds & ? & [-> Hfeeds]%reader_inv & H).
  rewrite (create_then_read BigNumber_from _ _ _ _ _ (default_record_text BigNumber_from))
    in H.
  set (record_file := path_join deploymentPath DEPLOYMENT_FILENAME) in *.
  set (ledger_file := path_join deploymentPath OWNER_ACTIONS_FILENAME) in *.
  assert (∃ d,
    match fs !! record_file with
    | Some old => JSON_parse old = Return d
    | None => True
    end
    ∧ (deployment ←
         (if freshDeploy
          then lift (d1 ← assign d "targets" (VObj []); assign d1 "sources" (VObj []))
          else mret d);
       present ← existsSync ledger_file;
       (if negb present then
          text ← lift (stringify BigNumber_from (VObj []));
          writeFileSync ledger_file text
        else mret ());;
       ownerActions ← read_json ledger_file;
       mret {|
         config := vconfig; params := vparams;
         configFile := path_join deploymentPath CONFIG_FILENAME;
         synths := vsynths;
         synthsFile := path_join deploymentPath SYNTHS_FILENAME;
         stakingRewards := vstaking;
         stakingRewardsFile := path_join deploymentPath STAKING_REWARDS_FILENAME;
         futuresMarkets := vfutures;
         futuresMarketsFile := path_join deploymentPath FUTURES_MARKETS_FILENAME;
         deployment := deployment; deploymentFile := record_file;
         ownerActions := ownerActions; ownerActionsFile := ledger_file;
         versions := vversions;
         versionsFile := path_join deploymentPath VERSIONS_FILENAME;
         feeds := vfeeds; feedsFile := path_join deploymentPath FEEDS_FILENAME;
         shortingRewards := vshorting;
         shortingRewardsFile := path_join deploymentPath SHORTING_REWARDS_FILENAME
       |}) (create_if_missing record_file empty_deployment_text fs)
      = (Return s, fs')) as (d & Hd & Htail).
  { unfold create_if_missing. destruct (fs !! record_file) as [old|].
    - destruct (JSON_parse old) as [d|]; [|done]. by exists d.
    - rewrite default_record_parses in H. by eexists. }
  clear H.
  apply io_bind_Return_inv in Htail as (d' & fs2 & Hclear & H).
  assert (fs2 = create_if_missing record_file empty_deployment_text fs
          ∧ (freshDeploy = false → d' = d)) as [-> Hd'].
  { destruct freshDeploy.
    - unfold lift in Hclear. by apply reader_inv in Hclear as [-> _].
    - unfold mret, io_ret in Hclear. by simplify_eq. }
  rewrite (create_then_read BigNumber_from _ _ _ _ _ (default_ledger_text BigNumber_from))
    in H.
  assert (∀ text, fs !! ledger_file = Some text →
                  JSON_parse text = Return (ownerActions s)) as Hledger.
  { intros text Htext.
    rewrite (create_if_missing_keeps _ _ _ _ _ Htext) in H.
    destruct (JSON_parse text) as [a|]; [|done].
    unfold mret, io_ret in H. by simplify_eq. }
  assert (s = {|
         config := vconfig; params := vparams;
         configFile := path_join deploymentPath CONFIG_FILENAME;
         synths := vsynths;
         synthsFile := path_join deploymentPath SYNTHS_FILENAME;
         stakingRewards := vstaking;
         stakingRewardsFile := path_join deploymentPath STAKING_REWARDS_FILENAME;
         futuresMarkets := vfutures;
         futuresMarketsFile := path_join deploymentPath FUTURES_MARKETS_FILENAME;
         deployment := d'; deploymentFile := record_file;
         ownerActions := ownerActions s; ownerActionsFile := ledger_file;
         versions := vversions;
         versionsFile := path_join deploymentPath VERSIONS_FILENAME;
         feeds := vfeeds; feedsFile := path_join deploymentPath FEEDS_FILENAME;
         shortingRewards := vshorting;
         shortingRewardsFile := path_join deploymentPath SHORTING_REWARDS_FILENAME
       |}) as Hs.
  { destruct (create_if_missing record_file empty_deployment_text fs !! ledger_file).
    - destruct (JSON_parse _); [|done]. unfold mret, io_ret in H. by simplify_eq.
    - destruct (JSON_parse _); [|done]. unfold mret, io_ret in H. by simplify_eq. }
  rewrite Hs. cbn. split_and!; try done.
  intros -> text Htext. rewrite Htext in Hd. by rewrite Hd' by done.
Qed.
(** X18: when [loadAndCheckRequiredSources] returns, what it returns is what
    was on disk: [config], [params] and [futuresMarkets] are the JSON
    values of their files, which exist; the synths, the rewards and the
    feeds are what the loaders of the package gave, and so are the
    versions but on the [local] network, where they are empty; the ledger
    is the JSON value of the ledger file when that file existed, and so is
    the deployment record when [freshDeploy] is off. *)
Theorem loadAndCheckRequiredSources_reads_disk
    (deploymentPath network : string) (freshDeploy : bool)
    (fs fs' : gmap string string) (s : sources) :
  load deploymentPath network freshDeploy fs = (Return s, fs') →
  getSynths network deploymentPath fs = Return (synths s)
  ∧ getStakingRewards network deploymentPath fs = Return (stakingRewards s)
  ∧ getShortingRewards network deploymentPath fs = Return (shortingRewards s)
  ∧ (∃ text, fs !! path_join deploymentPath CONFIG_FILENAME = Some text
       ∧ JSON_parse text = Return (config s))
  ∧ (∃ text, fs !! path_join deploymentPath PARAMS_FILENAME = Some text
       ∧ JSON_parse text = Return (params s))
  ∧ (∃ text, fs !! path_join deploymentPath FUTURES_MARKETS_FILENAME = Some text
       ∧ JSON_parse text = Return (futuresMarkets s))
  ∧ (if bool_decide (network = "local") then versions s = VObj []
     else getVersions network deploymentPath fs = Return (versions s))
  ∧ getFeeds network deploymentPath fs = Return (feeds s)
  ∧ (freshDeploy = false →
     ∀ text, fs !! path_join deploymentPath DEPLOYMENT_FILENAME = Some text →
             JSON_parse text = Return (deployment s))
  ∧ (∀ text, fs !! path_join deploymentPath OWNER_ACTIONS_FILENAME = Some text →
             JSON_parse text = Return (ownerActions s)).
Proof. apply load_returns_inv. Qed.

(** X19: an action recorded by the function that [appendOwnerActionGenerator]
    makes for the ledger file of a deployment is found by the next load of
    that deployment: whenever the load returns, its ledger is the ledger
    in memory after the call, BigNumber-shaped values rendered (so the
    ledger itself, when it has none). *)
Theorem recorded_action_is_loaded
    (explorerLinkPrefix key : string) (action target data : json)
    (props : list (string * json)) (rendered : json)
    (deploymentPath network : string) (freshDeploy : bool)
    (fs fs0 fs1 : gmap string string) (result : outcome unit) (ledger : json)
    (s : sources) :
  ordinary_key key = true →
  json_ok (VObj props) = true →
  json_ok action = true → json_ok target = true → json_ok data = true →
  render BigNumber_from
    (VObj (with_action explorerLinkPrefix key action target data props))
    = Return rendered →
  appendOwnerActionGenerator BigNumber_from
    (path_join deploymentPath OWNER_ACTIONS_FILENAME) explorerLinkPrefix
    key action target data (VObj props) fs
  = (result, ledger, fs0) →
  load deploymentPath network freshDeploy fs0 = (Return s, fs1) →
  result = Return ()
  ∧ ownerActions s = rendered
  ∧ (plain (VObj props) = true → plain action = true → plain target = true →
     plain data = true → ownerActions s = ledger).
Proof.
  intros Hkey Hok Ha Ht Hd Hrender Hcall Hload. unfold with_action in *.
  unfold appendOwnerActionGenerator in Hcall. rewrite Hkey in Hcall.
  simpl in Hcall. rewrite stringify_render, Hrender in Hcall. simpl in Hcall.
  injection Hcall as <- <- <-.
  apply load_returns_inv in Hload.
  destruct Hload as (_ & _ & _ & _ & _ & _ & _ & _ & _ & Hledger).
  specialize (Hledger _ (lookup_insert_eq _ _ _)).
  rewrite parse_serialized in Hledger.
  2:{ eapply render_ok; [|exact Hrender].
      apply set_prop_json_ok; [done|]. by apply ownerAction_json_ok. }
  injection Hledger as <-. split_and!; [done..|].
  intros Hp Hpa Hpt Hpd. rewrite render_plain in Hrender; [by simplify_eq|].
  apply set_prop_plain; [done|by apply ownerAction_plain|done].
Qed.
End LoaderReads.

Lemma loadAndCheckRequiredSources_reads_disk_witness :
  JSON_parse Sample.deployed_text = Return (deployment Sample.loaded)
  ∧ config Sample.loaded = VObj [].
Proof.
  assert (fst (Sample.loadAndCheckRequiredSources "d" "goerli" false Sample.deployed)
    = Return Sample.loaded) as H.
  { vm_compute. reflexivity. }
  apply pair_of_fst in H.
  destruct (loadAndCheckRequiredSources_reads_disk Sample.BigNumber_from Sample.path_join
      "config.json" "params.json" "deployment.json" "owner-actions.json"
      "synths.json" "rewards.json" "shorting-rewards.json" "versions.json"
      "feeds.json" "futures-markets.json"
      (Sample.load_file "synths.json") (Sample.load_file "rewards.json")
      (Sample.load_file "shorting-rewards.json") (Sample.load_file "versions.json")
      (Sample.load_file "feeds.json") "d" "goerli" false Sample.deployed _
      Sample.loaded H)
    as (_ & _ & _ & _ & _ & _ & _ & _ & Hrecord & _).
  split; [|reflexivity]. apply Hrecord; [reflexivity|].
  vm_compute. reflexivity.
Defined.

Lemma recorded_action_is_loaded_witness :
  ∃ s, fst (Sample.loadAndCheckRequiredSources "d" "goerli" false
              (<["d/owner-actions.json" :=
                   serialize EmptyString
                     (VObj (with_action "https://goerli.etherscan.io"
                              "ProxyERC20.setTarget" (VStr "setTarget(address)")
                              (VStr "0x0001") (VStr "0xabcd") [])) +:+ nl]>
                 Sample.deployed))
       = Return s
    ∧ ownerActions s
      = VObj (with_action "https://goerli.etherscan.io" "ProxyERC20.setTarget"
                (VStr "setTarget(address)") (VStr "0x0001") (VStr "0xabcd") []).
Proof.
  destruct (Sample.loadAndCheckRequiredSources "d" "goerli" false _)
    as [[s|e] fs1] eqn:Hload.
  - exists s. split; [reflexivity|].
    refine (proj1 (proj2 (recorded_action_is_loaded Sample.BigNumber_from
      Sample.path_join
      "config.json" "params.json" "deployment.json" "owner-actions.json"
      "synths.json" "rewards.json" "shorting-rewards.json" "versions.json"
      "feeds.json" "futures-markets.json"
      (Sample.load_file "synths.json") (Sample.load_file "rewards.json")
      (Sample.load_file "shorting-rewards.json") (Sample.load_file "versions.json")
      (Sample.load_file "feeds.json")
      "https://goerli.etherscan.io" "ProxyERC20.setTarget"
      (VStr "setTarget(address)") (VStr "0x0001") (VStr "0xabcd") [] _
      "d" "goerli" false Sample.deployed _ _ (Return ()) _ s
      eq_refl eq_refl eq_refl eq_refl eq_refl eq_refl eq_refl Hload))).
  - exfalso. apply (f_equal fst) in Hload. vm_compute in Hload.
    discriminate Hload.
Defined.

(** ** [assignGasOptions]: rejection *)


(** ** [assignGasOptions]: the fields of an EIP-1559 transaction *)


